(** * checkend-nextjs: the event processing pipeline

    A shallow embedding of [src/config.ts] (configuration store, matcher,
    redactor, callback chain), of [src/edge.ts] (stack-trace parser, header
    filter, [notify]) and of the interceptor of [src/testing.ts], followed
    by the properties of these functions.

    Conventions of the embedding.
    - A JavaScript string is a [string]: a sequence of code units below 256.
    - A JavaScript number that the code only counts with (depths, line
      numbers, timeouts) is a [Z].
    - A function that may throw returns a [result]; a function that reads or
      writes module-level variables is a function on the [world].
    - A [RegExp] object is its abstract syntax together with its [i] flag;
      the [g] and [y] flags (which make [test] depend on [lastIndex]) are
      not part of the model.
    - An object is the list of its own enumerable properties in the order
      of [Object.entries]; a write [o[key] = v] is [Obj.set], with the
      order of array indices and the setter of ['__proto__'].
    - The methods of a logger object of the user return normally. *)

From Stdlib Require Import String Ascii List ZArith NArith Bool Arith Lia Sorted.
From Stdlib Require Import Numbers.DecimalString.
Import ListNotations.

Local Open Scope string_scope.
Local Open Scope list_scope.
Local Open Scope nat_scope.

(* ================================================================== *)
(** ** Strings: the built-in methods the sources call *)
(* ================================================================== *)

Module Str.

Definition chars (s : string) : list ascii := list_ascii_of_string s.
Definition of_chars (l : list ascii) : string := string_of_list_ascii l.

(** [hay.startsWith(needle)] *)
Definition startsWith (hay needle : string) : bool := String.prefix needle hay.

(** [hay.includes(needle)] *)
Fixpoint includes (hay needle : string) : bool :=
  if String.prefix needle hay then true
  else match hay with
       | EmptyString => false
       | String _ t => includes t needle
       end.

(** [s.slice(0, n)] for [0 <= n] *)
Definition slice0 (n : nat) (s : string) : string := String.substring 0 n s.

(** [l.join(sep)] *)
Definition join (sep : string) (l : list string) : string := String.concat sep l.

(** [s.split('\n')]: the pieces between line feeds, at least one piece. *)
Fixpoint split_lines_aux (cur : string) (s : string) : list string :=
  match s with
  | EmptyString => [cur]
  | String c t =>
      if Ascii.eqb c "010"%char then cur :: split_lines_aux "" t
      else split_lines_aux (cur ++ String c "")%string t
  end.
Definition split_lines (s : string) : list string := split_lines_aux "" s.

Definition is_upper (c : ascii) : bool :=
  let n := nat_of_ascii c in (65 <=? n) && (n <=? 90).
Definition is_lower (c : ascii) : bool :=
  let n := nat_of_ascii c in (97 <=? n) && (n <=? 122).
Definition is_digit (c : ascii) : bool :=
  let n := nat_of_ascii c in (48 <=? n) && (n <=? 57).

(** [c.toLowerCase()] on one code unit below 256. *)
Definition lower_char (c : ascii) : ascii :=
  let n := nat_of_ascii c in
  if is_upper c then ascii_of_nat (n + 32)
  else if (192 <=? n) && (n <=? 222) && negb (n =? 215) then ascii_of_nat (n + 32)
  else c.

Fixpoint toLowerCase (s : string) : string :=
  match s with
  | EmptyString => EmptyString
  | String c t => String (lower_char c) (toLowerCase t)
  end.

(** The white space and line terminators below 256. *)
Definition is_space (c : ascii) : bool :=
  let n := nat_of_ascii c in
  ((9 <=? n) && (n <=? 13)) || (n =? 32) || (n =? 160).

(** [parseInt(s, 10)]: leading white space, an optional sign, then the
    longest run of decimal digits; [None] stands for [NaN].  The result is
    the integer the digits denote, which is the number [parseInt] returns
    up to [2^53]; beyond that the code computes with the nearest double. *)
Fixpoint skip_space (l : list ascii) : list ascii :=
  match l with
  | c :: t => if is_space c then skip_space t else l
  | [] => []
  end.

Fixpoint digits_value (acc : Z) (seen : bool) (l : list ascii) : option Z :=
  match l with
  | c :: t =>
      if is_digit c
      then digits_value (10 * acc + Z.of_nat (nat_of_ascii c - 48))%Z true t
      else if seen then Some acc else None
  | [] => if seen then Some acc else None
  end.

Definition parseInt (s : string) : option Z :=
  match skip_space (chars s) with
  | c :: t =>
      if Ascii.eqb c "-"%char then option_map Z.opp (digits_value 0 false t)
      else if Ascii.eqb c "+"%char then digits_value 0 false t
      else digits_value 0 false (c :: t)
  | [] => None
  end.

End Str.

(* ================================================================== *)
(** ** Regular expressions

    The fragment of the ECMAScript pattern language that the sources and
    their tests use: literal characters, [.], the class escapes [\d \D \s
    \S \w \W], escaped punctuation, the assertions [^] and [$], alternation,
    capturing and non-capturing groups, and the quantifiers [* + ?] with
    their lazy forms.  Matching is the backtracking algorithm of the
    language definition (continuation passing, alternatives in priority
    order), so that captures come out as [String.prototype.match] gives
    them. *)
(* ================================================================== *)

Module RegExp.

Inductive cclass := CDigit | CSpace | CWord.
Inductive quant := QStar | QPlus | QOpt.

Inductive regex :=
| Eps
| Chr (c : ascii)
| Dot
| Esc (neg : bool) (k : cclass)
| Bol
| Eol
| Seq (r1 r2 : regex)
| Alt (r1 r2 : regex)
| Rep (q : quant) (greedy : bool) (r : regex)
| Group (i : nat) (r : regex).

(** A [RegExp] object: the pattern and the [i] flag. *)
Record t := mk { ast : regex; ignoreCase : bool }.

(** *** Matching *)

(** [Canonicalize] of the language definition, on code units below 256:
    the upper-case mapping, kept only when it stays a single code unit
    of the same range. *)
Definition canonicalize (ic : bool) (c : ascii) : ascii :=
  if ic then
    let n := nat_of_ascii c in
    if Str.is_lower c then ascii_of_nat (n - 32)
    else if (224 <=? n) && (n <=? 254) && negb (n =? 247) then ascii_of_nat (n - 32)
    else c
  else c.

Definition chr_eq (ic : bool) (a x : ascii) : bool :=
  Ascii.eqb (canonicalize ic a) (canonicalize ic x).

Definition is_line_terminator (c : ascii) : bool :=
  Ascii.eqb c "010"%char || Ascii.eqb c "013"%char.

Definition in_class (k : cclass) (c : ascii) : bool :=
  match k with
  | CDigit => Str.is_digit c
  | CSpace => Str.is_space c
  | CWord => Str.is_digit c || Str.is_upper c || Str.is_lower c || Ascii.eqb c "_"%char
  end.

(** Captures: group number to captured text; an absent number is a group
    that did not take part in the match ([undefined]). *)
Definition caps := list (nat * list ascii).

Fixpoint getcap (i : nat) (c : caps) : option (list ascii) :=
  match c with
  | [] => None
  | (j, v) :: t => if Nat.eqb i j then Some v else getcap i t
  end.

Definition clearcaps (gs : list nat) (c : caps) : caps :=
  filter (fun p => negb (existsb (Nat.eqb (fst p)) gs)) c.

Definition setcap (i : nat) (v : list ascii) (c : caps) : caps :=
  (i, v) :: clearcaps [i] c.

Fixpoint groups (r : regex) : list nat :=
  match r with
  | Seq a b | Alt a b => groups a ++ groups b
  | Rep _ _ a => groups a
  | Group i a => i :: groups a
  | _ => []
  end.

Definition mstate := (list ascii * caps)%type.
Definition cont := list ascii -> caps -> option mstate.

Definition orElse (a : option mstate) (b : unit -> option mstate) : option mstate :=
  match a with Some x => Some x | None => b tt end.

(** [m ic n r s c k]: match [r] at the front of the remaining input [s]
    (of an input of [n] code units), with captures [c], then continue
    with [k].  A quantifier gives up an iteration that consumes nothing
    once its minimum is reached, as the language definition says; the
    counter of [loop] is the length of the remaining input, which such
    iterations decrease. *)
Fixpoint m (ic : bool) (n : nat) (r : regex) (s : list ascii) (c : caps) (k : cont)
  {struct r} : option mstate :=
  match r with
  | Eps => k s c
  | Chr a =>
      match s with
      | x :: s' => if chr_eq ic a x then k s' c else None
      | [] => None
      end
  | Dot =>
      match s with
      | x :: s' => if is_line_terminator x then None else k s' c
      | [] => None
      end
  | Esc neg cl =>
      match s with
      | x :: s' => if xorb neg (in_class cl x) then k s' c else None
      | [] => None
      end
  | Bol => if Nat.eqb (length s) n then k s c else None
  | Eol => match s with [] => k s c | _ :: _ => None end
  | Seq r1 r2 => m ic n r1 s c (fun s' c' => m ic n r2 s' c' k)
  | Alt r1 r2 => orElse (m ic n r1 s c k) (fun _ => m ic n r2 s c k)
  | Group i r1 =>
      m ic n r1 s c
        (fun s' c' => k s' (setcap i (firstn (length s - length s') s) c'))
  | Rep q greedy r1 =>
      let gs := groups r1 in
      let fix loop (fuel : nat) (s : list ascii) (c : caps) : option mstate :=
        match fuel with
        | O => k s c
        | S fuel' =>
            let iter := fun (_ : unit) =>
              m ic n r1 s (clearcaps gs c)
                (fun s' c' => if length s' <? length s then loop fuel' s' c' else None) in
            if greedy then orElse (iter tt) (fun _ => k s c)
            else orElse (k s c) iter
        end in
      match q with
      | QStar => loop (length s) s c
      | QPlus =>
          m ic n r1 s (clearcaps gs c) (fun s' c' => loop (length s') s' c')
      | QOpt =>
          let iter := fun (_ : unit) =>
            m ic n r1 s (clearcaps gs c)
              (fun s' c' => if length s' <? length s then k s' c' else None) in
          if greedy then orElse (iter tt) (fun _ => k s c)
          else orElse (k s c) iter
      end
  end.

(** The match found at one start position, and the scan over the start
    positions from the left ([lastIndex] is 0). *)
Definition match_at (ic : bool) (n : nat) (r : regex) (s : list ascii)
  : option (list ascii * caps) :=
  match m ic n r s [] (fun s' c' => Some (s', c')) with
  | Some (s', c') => Some (firstn (length s - length s') s, c')
  | None => None
  end.

Fixpoint scan (ic : bool) (n : nat) (r : regex) (s : list ascii)
  : option (list ascii * caps) :=
  match match_at ic n r s with
  | Some x => Some x
  | None => match s with
            | [] => None
            | _ :: t => scan ic n r t
            end
  end.

(** [re.exec(s)] / [s.match(re)]: the whole match and the captures. *)
Definition exec (re : t) (s : string) : option (string * caps) :=
  let l := Str.chars s in
  match scan (ignoreCase re) (length l) (ast re) l with
  | Some (w, c) => Some (Str.of_chars w, c)
  | None => None
  end.

(** [re.test(s)] *)
Definition test (re : t) (s : string) : bool :=
  match exec re s with Some _ => true | None => false end.

(** [match[i]] for [i >= 1]: [None] is [undefined]. *)
Definition capture (i : nat) (c : caps) : option string :=
  option_map Str.of_chars (getcap i c).

(** *** Parsing a pattern *)

Inductive compiled :=
| Compiled (r : regex)
| SyntaxError            (* [new RegExp] throws *)
| Unsupported.           (* a pattern outside the fragment *)

(** What the last term of the current sequence allows after it. *)
Inductive last := LNone | LAtom | LQuant | LLazy.

Record frame := mkframe {
  alts : list regex;      (* finished alternatives, last one first *)
  terms : list regex;     (* terms of the current alternative, last one first *)
  lst : last }.

Definition empty_frame : frame := mkframe [] [] LNone.

Fixpoint mkSeq (l : list regex) : regex :=
  match l with
  | [] => Eps
  | [a] => a
  | a :: t => Seq a (mkSeq t)
  end.

Fixpoint mkAlt (l : list regex) : regex :=
  match l with
  | [] => Eps
  | [a] => a
  | a :: t => Alt a (mkAlt t)
  end.

Definition close (f : frame) : regex :=
  mkAlt (rev (mkSeq (rev (terms f)) :: alts f)).

Definition push (k : last) (a : regex) (f : frame) : frame :=
  mkframe (alts f) (a :: terms f) k.

Definition next_alt (f : frame) : frame :=
  mkframe (mkSeq (rev (terms f)) :: alts f) [] LNone.

Definition quantify (q : quant) (f : frame) : option frame :=
  match lst f, terms f with
  | LAtom, a :: t => Some (mkframe (alts f) (Rep q true a :: t) LQuant)
  | _, _ => None
  end.

Definition make_lazy (f : frame) : option frame :=
  match lst f, terms f with
  | LQuant, Rep q _ a :: t => Some (mkframe (alts f) (Rep q false a :: t) LLazy)
  | _, _ => None
  end.

Definition is_syntax_char (c : ascii) : bool :=
  existsb (Ascii.eqb c) (Str.chars "^$\.*+?()[]{}|").

(** The character after a backslash. *)
Definition escape (e : ascii) : option regex :=
  if is_syntax_char e || Ascii.eqb e "/"%char then Some (Chr e)
  else if Ascii.eqb e "d"%char then Some (Esc false CDigit)
  else if Ascii.eqb e "D"%char then Some (Esc true CDigit)
  else if Ascii.eqb e "s"%char then Some (Esc false CSpace)
  else if Ascii.eqb e "S"%char then Some (Esc true CSpace)
  else if Ascii.eqb e "w"%char then Some (Esc false CWord)
  else if Ascii.eqb e "W"%char then Some (Esc true CWord)
  else if Ascii.eqb e "n"%char then Some (Chr "010"%char)
  else if Ascii.eqb e "r"%char then Some (Chr "013"%char)
  else if Ascii.eqb e "t"%char then Some (Chr "009"%char)
  else None.

Definition ch_is (c d : ascii) : bool := Ascii.eqb c d.

Fixpoint parse (cur : frame) (stk : list (frame * option nat)) (ng : nat)
  (p : list ascii) {struct p} : compiled :=
  match p with
  | [] =>
      match stk with
      | [] => Compiled (close cur)
      | _ :: _ => SyntaxError
      end
  | c :: p1 =>
      if ch_is c "\"%char then
        match p1 with
        | [] => SyntaxError
        | e :: p2 =>
            match escape e with
            | Some a => parse (push LAtom a cur) stk ng p2
            | None => Unsupported
            end
        end
      else if ch_is c "("%char then
        match p1 with
        | q :: p2 =>
            if ch_is q "?"%char then
              match p2 with
              | d :: p3 =>
                  if ch_is d ":"%char then parse empty_frame ((cur, None) :: stk) ng p3
                  else Unsupported
              | [] => SyntaxError
              end
            else parse empty_frame ((cur, Some (S ng)) :: stk) (S ng) p1
        | [] => SyntaxError
        end
      else if ch_is c ")"%char then
        match stk with
        | [] => SyntaxError
        | (outer, gi) :: stk' =>
            let r := close cur in
            let a := match gi with Some i => Group i r | None => r end in
            parse (push LAtom a outer) stk' ng p1
        end
      else if ch_is c "|"%char then parse (next_alt cur) stk ng p1
      else if ch_is c "*"%char then
        match quantify QStar cur with
        | Some f => parse f stk ng p1
        | None => SyntaxError
        end
      else if ch_is c "+"%char then
        match quantify QPlus cur with
        | Some f => parse f stk ng p1
        | None => SyntaxError
        end
      else if ch_is c "?"%char then
        match make_lazy cur with
        | Some f => parse f stk ng p1
        | None =>
            match quantify QOpt cur with
            | Some f => parse f stk ng p1
            | None => SyntaxError
            end
        end
      else if ch_is c "."%char then parse (push LAtom Dot cur) stk ng p1
      else if ch_is c "^"%char then parse (push LNone Bol cur) stk ng p1
      else if ch_is c "$"%char then parse (push LNone Eol cur) stk ng p1
      else if is_syntax_char c then Unsupported
      else parse (push LAtom (Chr c) cur) stk ng p1
  end.

Definition compile (pattern : string) : compiled :=
  parse empty_frame [] 0 (Str.chars pattern).

End RegExp.

(* ================================================================== *)
(** ** Property writes on an ordinary object *)
(* ================================================================== *)

(** An object is represented by its own enumerable properties with string
    names, in the order of [Object.entries]: the array indices in ascending
    order, then the other names in the order of their creation.  The
    prototype is not part of the representation. *)
Module Obj.

Fixpoint digits_value (acc : N) (s : string) : option N :=
  match s with
  | EmptyString => Some acc
  | String c t =>
      let n := nat_of_ascii c in
      if (48 <=? n) && (n <=? 57)
      then digits_value (acc * 10 + N.of_nat (n - 48))%N t
      else None
  end.

(** The array index a property name denotes: a canonical numeric string
    below [2^32 - 1]. *)
Definition array_index (key : string) : option N :=
  match key with
  | EmptyString => None
  | String c t =>
      if Ascii.eqb c "0"%char then (if String.eqb t "" then Some 0%N else None)
      else match digits_value 0 key with
           | Some n => if (n <? 4294967295)%N then Some n else None
           | None => None
           end
  end.

Section Entries.
Context {A : Type}.

Fixpoint get (key : string) (entries : list (string * A)) : option A :=
  match entries with
  | [] => None
  | (k, v) :: t => if String.eqb key k then Some v else get key t
  end.

Definition has (key : string) (entries : list (string * A)) : bool :=
  existsb (fun kv => String.eqb key (fst kv)) entries.

(** The write to an existing own property: its place is kept. *)
Fixpoint replace (key : string) (v : A) (entries : list (string * A))
  : list (string * A) :=
  match entries with
  | [] => []
  | (k, x) :: t => if String.eqb key k then (k, v) :: t else (k, x) :: replace key v t
  end.

(** The creation of the array index [i]: after the smaller indices. *)
Fixpoint insert_index (i : N) (key : string) (v : A) (entries : list (string * A))
  : list (string * A) :=
  match entries with
  | [] => [(key, v)]
  | (k, x) :: t =>
      match array_index k with
      | Some j => if (i <? j)%N then (key, v) :: (k, x) :: t
                  else (k, x) :: insert_index i key v t
      | None => (key, v) :: (k, x) :: t
      end
  end.

(** [o[key] = v] on an object created by [{}] and filled by these
    writes, with at most one write of an object or [null] to
    ['__proto__'] (the names of an object are distinct).  The name
    ['__proto__'] reaches the setter of [Object.prototype]: no own property
    is created (an object or [null] becomes the prototype, any other value
    is ignored). *)
Definition set (key : string) (v : A) (entries : list (string * A))
  : list (string * A) :=
  if String.eqb key "__proto__" then entries
  else if has key entries then replace key v entries
  else match array_index key with
       | Some i => insert_index i key v entries
       | None => entries ++ [(key, v)]
       end.

(** The writes of a list of properties, in its order. *)
Definition assign (writes : list (string * A)) (entries : list (string * A))
  : list (string * A) :=
  fold_left (fun acc kv => set (fst kv) (snd kv) acc) writes entries.

(** The order of [Object.entries] on two names. *)
Definition key_le (k1 k2 : string) : Prop :=
  match array_index k1, array_index k2 with
  | Some i, Some j => (i <= j)%N
  | Some _, None => True
  | None, Some _ => False
  | None, None => True
  end.

(** The entries are those of an object built by writes: the names are
    distinct, in the order of [Object.entries], and ['__proto__'] is not
    among them. *)
Definition canonical (entries : list (string * A)) : Prop :=
  NoDup (map fst entries)
  /\ ~ In "__proto__" (map fst entries)
  /\ StronglySorted key_le (map fst entries).

End Entries.
End Obj.

(* ================================================================== *)
(** ** The data model ([src/config.ts]) *)
(* ================================================================== *)

(** A JavaScript value as [sanitize] sees it ([unknown]): [VOther] stands
    for the remaining non-object values (a function, a symbol). *)
#[warnings="-register-all"] Inductive value :=
| VNull
| VUndefined
| VBool (b : bool)
| VNumber (n : Z)
| VString (s : string)
| VOther (tag : string)
| VArray (items : list value)
| VObject (entries : list (string * value)).

(** [o[key]] on the entries of an object, in the order of
    [Object.entries]. *)
Fixpoint lookup (key : string) (entries : list (string * value)) : option value :=
  match entries with
  | [] => None
  | (k, v) :: t => if String.eqb key k then Some v else lookup key t
  end.

(** One step into a value: a property name or an array index. *)
Inductive step := Key (k : string) | Index (i : nat).

Definition child (st : step) (v : value) : option value :=
  match st, v with
  | Key k, VObject entries => lookup k entries
  | Index i, VArray items => nth_error items i
  | _, _ => None
  end.

(** [v.a[0].b ...]: the value at the end of a path of steps. *)
Fixpoint at_path (p : list step) (v : value) : option value :=
  match p with
  | [] => Some v
  | st :: p' => match child st v with
                | Some v' => at_path p' v'
                | None => None
                end
  end.

(** Induction on values, through the arrays and the objects. *)
Section ValueInduction.
Variable P : value -> Prop.
Hypothesis Hnull : P VNull.
Hypothesis Hundef : P VUndefined.
Hypothesis Hbool : forall b, P (VBool b).
Hypothesis Hnum : forall n, P (VNumber n).
Hypothesis Hstr : forall s, P (VString s).
Hypothesis Hother : forall t, P (VOther t).
Hypothesis Harr : forall items, Forall P items -> P (VArray items).
Hypothesis Hobj :
  forall entries, Forall (fun kv => P (snd kv)) entries -> P (VObject entries).

Fixpoint value_induction (v : value) : P v :=
  match v with
  | VNull => Hnull
  | VUndefined => Hundef
  | VBool b => Hbool b
  | VNumber n => Hnum n
  | VString s => Hstr s
  | VOther t => Hother t
  | VArray items =>
      Harr items
        ((fix go (l : list value) : Forall P l :=
            match l with
            | [] => Forall_nil P
            | x :: t => Forall_cons x (value_induction x) (go t)
            end) items)
  | VObject entries =>
      Hobj entries
        ((fix go (l : list (string * value)) : Forall (fun kv => P (snd kv)) l :=
            match l with
            | [] => Forall_nil _
            | kv :: t => Forall_cons kv (value_induction (snd kv)) (go t)
            end) entries)
  end.
End ValueInduction.

(** [interface CheckendEvent] *)
Record CheckendEvent := mkEvent {
  errorClass : string;
  message : string;
  backtrace : list string;
  context : option value;
  request : option value;
  user : option value;
  tags : option (list string);
  fingerprint : option string }.

(** What a [throw] carries. *)
Inductive exn :=
| JsError (msg : string)
| JsSyntaxError (msg : string)
| Thrown (v : value).

(** [type BeforeSendCallback]: user code; a call returns an event or
    [null], or throws. *)
Inductive outcome :=
| Returns (r : option CheckendEvent)
| Throws (e : exn).

Definition BeforeSendCallback := CheckendEvent -> outcome.

(** [beforeSend?: BeforeSendCallback | BeforeSendCallback[]] *)
Inductive beforeSend_t :=
| OneCallback (f : BeforeSendCallback)
| CallbackArray (fs : list BeforeSendCallback).

(** [(string | RegExp)] *)
Inductive rule :=
| RString (s : string)
| RPattern (re : RegExp.t).

(** [interface CheckendLogger]: either the logger of [createDefaultLogger]
    or a logger object of the user, known by a name; the methods of the
    latter are taken to return normally.  In a configuration, [logger] is
    the name of the user's logger object. *)
Inductive CheckendLogger :=
| DefaultLogger (debugOn : bool)
| CustomLogger (name : string).

(** [interface CheckendNextConfig]; [None] is an absent field. *)
Record CheckendNextConfig := mkConfig {
  apiKey : string;
  endpoint : option string;
  environment : option string;
  appName : option string;
  revision : option string;
  enableClient : option bool;
  enableServer : option bool;
  enableEdge : option bool;
  ignoredRoutes : option (list rule);
  ignoredExceptions : option (list rule);
  filterKeys : option (list string);
  useDefaultFilterKeys : option bool;
  beforeSend : option beforeSend_t;
  debug : option bool;
  logger : option string;
  timeout : option Z;
  connectTimeout : option Z;
  maxQueueSize : option Z;
  shutdownTimeout : option Z }.

Definition DEFAULT_FILTER_KEYS : list string :=
  [ (* Authentication *)
    "password"; "passwd"; "secret"; "token"; "api_key"; "apiKey"; "api-key";
    "authorization"; "auth"; "credentials"; "session"; "sessionId"; "session_id";
    (* Financial *)
    "credit_card"; "creditCard"; "card_number"; "cardNumber"; "cvv"; "cvc";
    "ccv"; "expiry"; "expiration";
    (* Personal *)
    "ssn"; "social_security"; "socialSecurity"; "sin"; "national_id"; "nationalId";
    (* Access control *)
    "private_key"; "privateKey"; "private-key"; "access_token"; "accessToken";
    "access-token"; "refresh_token"; "refreshToken"; "refresh-token"; "bearer";
    (* Common sensitive patterns *)
    "stripe_key"; "stripeKey"; "aws_secret"; "awsSecret"; "database_url";
    "databaseUrl"; "connection_string"; "connectionString" ].

(** *** What the program writes *)

Inductive level := Debug | Info | Warn | Error | Log.

Inductive sink := Console | Custom (name : string).

Inductive log_arg :=
| ArgConfig (c : CheckendNextConfig)
| ArgExn (e : exn)
| ArgValue (v : value).

(** One call of a method of [console] or of the user's logger. *)
Record log_entry := mkEntry {
  le_sink : sink;
  le_level : level;
  le_message : string;
  le_args : list log_arg }.

(** *** The captured notices ([src/testing.ts]) *)

Inductive runtime := Client | Server | Edge.

(** [interface CapturedNotice]; the fields are what [JSON.parse] gave,
    whatever the declared types, and [occurredAt] is the value of the
    clock. *)
Record CapturedNotice := mkNotice {
  cn_errorClass : value;
  cn_message : value;
  cn_backtrace : value;
  cn_context : value;
  cn_request : value;
  cn_user : value;
  cn_tags : value;
  cn_fingerprint : value;
  cn_occurredAt : Z;
  cn_runtime : runtime }.

(** [globalThis.fetch]: the transport of the platform or the interceptor
    of [createMockFetch]. *)
Inductive fetch_impl := RealFetch | MockFetch.

(** *** The module-level variables *)

Record world := mkWorld {
  (* config.ts *)
  globalConfig : option CheckendNextConfig;
  configuredLogger : option CheckendLogger;
  (* testing.ts *)
  capturedNotices : list CapturedNotice;
  isTestMode : bool;
  originalFetch : option fetch_impl;
  (* the platform *)
  fetch : fetch_impl;
  hasWindow : bool;       (* [typeof window !== 'undefined'] *)
  clock : Z;              (* [Date.now()] *)
  network : string -> option Z;   (* the status the real transport answers, [None]: it rejects *)
  (* the observable trace *)
  output : list log_entry;                 (* logger and console calls, oldest first *)
  invoked : list (nat * CheckendEvent);    (* calls of beforeSend callbacks, oldest first *)
  sent : list (string * value) }.          (* requests that left through the real transport *)

Definition initial_world : world :=
  mkWorld None None [] false None RealFetch false 0%Z (fun _ => Some 201%Z) [] [] [].

Definition set_config (c : option CheckendNextConfig) (w : world) : world :=
  mkWorld c (configuredLogger w) (capturedNotices w) (isTestMode w) (originalFetch w)
    (fetch w) (hasWindow w) (clock w) (network w) (output w) (invoked w) (sent w).

Definition set_logger (l : option CheckendLogger) (w : world) : world :=
  mkWorld (globalConfig w) l (capturedNotices w) (isTestMode w) (originalFetch w)
    (fetch w) (hasWindow w) (clock w) (network w) (output w) (invoked w) (sent w).

Definition set_notices (ns : list CapturedNotice) (w : world) : world :=
  mkWorld (globalConfig w) (configuredLogger w) ns (isTestMode w) (originalFetch w)
    (fetch w) (hasWindow w) (clock w) (network w) (output w) (invoked w) (sent w).

Definition set_testMode (b : bool) (w : world) : world :=
  mkWorld (globalConfig w) (configuredLogger w) (capturedNotices w) b (originalFetch w)
    (fetch w) (hasWindow w) (clock w) (network w) (output w) (invoked w) (sent w).

Definition set_fetch (orig : option fetch_impl) (f : fetch_impl) (w : world) : world :=
  mkWorld (globalConfig w) (configuredLogger w) (capturedNotices w) (isTestMode w) orig
    f (hasWindow w) (clock w) (network w) (output w) (invoked w) (sent w).

Definition emit (e : log_entry) (w : world) : world :=
  mkWorld (globalConfig w) (configuredLogger w) (capturedNotices w) (isTestMode w)
    (originalFetch w) (fetch w) (hasWindow w) (clock w) (network w)
    (output w ++ [e]) (invoked w) (sent w).

Definition record_call (i : nat) (ev : CheckendEvent) (w : world) : world :=
  mkWorld (globalConfig w) (configuredLogger w) (capturedNotices w) (isTestMode w)
    (originalFetch w) (fetch w) (hasWindow w) (clock w) (network w)
    (output w) (invoked w ++ [(i, ev)]) (sent w).

Definition record_sent (url : string) (body : value) (w : world) : world :=
  mkWorld (globalConfig w) (configuredLogger w) (capturedNotices w) (isTestMode w)
    (originalFetch w) (fetch w) (hasWindow w) (clock w) (network w)
    (output w) (invoked w) (sent w ++ [(url, body)]).

(** *** Computations: the world threaded through, and a result *)

Inductive result (A : Type) :=
| Ok (a : A)                (* returns *)
| Throw (e : exn)           (* throws *)
| Beyond.                   (* leaves what the embedding covers *)
Arguments Ok {A} a.
Arguments Throw {A} e.
Arguments Beyond {A}.

Definition M (A : Type) := world -> result A * world.

Definition ret {A} (a : A) : M A := fun w => (Ok a, w).
Definition throw {A} (e : exn) : M A := fun w => (Throw e, w).
Definition bind {A B} (c : M A) (f : A -> M B) : M B :=
  fun w => match c w with
           | (Ok a, w') => f a w'
           | (Throw e, w') => (Throw e, w')
           | (Beyond, w') => (Beyond, w')
           end.
Definition modify (f : world -> world) : M unit := fun w => (Ok tt, f w).

Declare Scope comp_scope.
Delimit Scope comp_scope with comp.
Notation "x <- c1 ;; c2" := (bind c1 (fun x => c2))
  (at level 61, c1 at next level, right associativity) : comp_scope.
Notation "c1 ;; c2" := (bind c1 (fun _ => c2))
  (at level 61, right associativity) : comp_scope.
Local Open Scope comp_scope.

(* ================================================================== *)
(** ** The configuration store ([src/config.ts]) *)
(* ================================================================== *)

Definition or_default {A} (o : option A) (d : A) : option A :=
  match o with Some a => Some a | None => Some d end.

(** [{ enableClient: true, ..., shutdownTimeout: 5000, ...options }]
    (a field of [options] present with the value [undefined] is not
    represented: [None] is an absent field). *)
Definition merge_defaults (options : CheckendNextConfig) : CheckendNextConfig :=
  mkConfig (apiKey options) (endpoint options) (environment options)
    (appName options) (revision options)
    (or_default (enableClient options) true)
    (or_default (enableServer options) true)
    (or_default (enableEdge options) true)
    (ignoredRoutes options) (ignoredExceptions options) (filterKeys options)
    (or_default (useDefaultFilterKeys options) true)
    (beforeSend options)
    (or_default (debug options) false)
    (logger options)
    (or_default (timeout options) 30000%Z)
    (or_default (connectTimeout options) 10000%Z)
    (or_default (maxQueueSize options) 1000%Z)
    (or_default (shutdownTimeout options) 5000%Z).

(** [{ ...c, apiKey: k }] *)
Definition with_apiKey (k : string) (c : CheckendNextConfig) : CheckendNextConfig :=
  mkConfig k (endpoint c) (environment c) (appName c) (revision c)
    (enableClient c) (enableServer c) (enableEdge c)
    (ignoredRoutes c) (ignoredExceptions c) (filterKeys c)
    (useDefaultFilterKeys c) (beforeSend c) (debug c) (logger c)
    (timeout c) (connectTimeout c) (maxQueueSize c) (shutdownTimeout c).

(** The truth value of an optional flag: absent is falsy. *)
Definition flag (o : option bool) : bool :=
  match o with Some b => b | None => false end.

Definition createDefaultLogger (debugOn : bool) : CheckendLogger := DefaultLogger debugOn.

(** [logger[level](message, ...args)]; the method of a logger of the
    user is taken to return normally. *)
Definition call_logger (lg : CheckendLogger) (lv : level) (msg : string)
  (args : list log_arg) : M unit :=
  match lg with
  | DefaultLogger debugOn =>
      match lv with
      | Debug => if debugOn then modify (emit (mkEntry Console Debug msg args)) else ret tt
      | _ => modify (emit (mkEntry Console lv msg args))
      end
  | CustomLogger name => modify (emit (mkEntry (Custom name) lv msg args))
  end.

Definition log (lv : level) (msg : string) (args : list log_arg) : M unit :=
  fun w =>
    match configuredLogger w with
    | None => (Ok tt, w)
    | Some lg => call_logger lg lv ("[Checkend] " ++ msg)%string args w
    end.

(** [console.log], [console.warn], [console.error] called directly. *)
Definition console (lv : level) (msg : string) (args : list log_arg) : M unit :=
  modify (emit (mkEntry Console lv msg args)).

Definition init (options : CheckendNextConfig) : M CheckendNextConfig :=
  if String.eqb (apiKey options) "" then throw (JsError "Checkend: apiKey is required")
  else
    let cfg := merge_defaults options in
    modify (set_config (Some cfg)) ;;
    modify (set_logger (Some (match logger cfg with
                              | Some nm => CustomLogger nm
                              | None => createDefaultLogger (flag (debug cfg))
                              end))) ;;
    (if flag (debug cfg)
     then log Debug "Initialized with config:"
            [ArgConfig (with_apiKey (Str.slice0 8 (apiKey cfg) ++ "...")%string cfg)]
     else ret tt) ;;
    ret cfg.

Definition getConfig : M CheckendNextConfig :=
  fun w =>
    match globalConfig w with
    | None =>
        (Throw (JsError
           "Checkend not initialized. Call init() first, typically in instrumentation.ts"), w)
    | Some c => (Ok c, w)
    end.

Definition isInitialized : M bool :=
  fun w => (Ok (match globalConfig w with Some _ => true | None => false end), w).

Definition reset : M unit :=
  modify (set_config None) ;; modify (set_logger None).

(* ================================================================== *)
(** ** The matcher *)
(* ================================================================== *)

Definition route_rule_matches (route : string) (pattern : rule) : bool :=
  match pattern with
  | RString s => String.eqb route s || Str.startsWith route s
  | RPattern re => RegExp.test re route
  end.

Definition shouldIgnoreRoute (route : string) : M bool :=
  config <- getConfig ;;
  match ignoredRoutes config with
  | None | Some [] => ret false
  | Some rules => ret (existsb (route_rule_matches route) rules)
  end.

(** [interface Error]: [name], [message], [stack]. *)
Record JsErrorObject := mkError {
  name : string;
  err_message : string;
  stack : option string }.

Definition exception_rule_matches (error : JsErrorObject) (errorString : string)
  (pattern : rule) : bool :=
  match pattern with
  | RString s => String.eqb (name error) s || Str.includes (err_message error) s
  | RPattern re => RegExp.test re errorString
  end.

Definition shouldIgnoreException (error : JsErrorObject) : M bool :=
  config <- getConfig ;;
  match ignoredExceptions config with
  | None | Some [] => ret false
  | Some rules =>
      let errorString := (name error ++ ": " ++ err_message error)%string in
      ret (existsb (exception_rule_matches error errorString) rules)
  end.

(* ================================================================== *)
(** ** The filter keys and the redactor *)
(* ================================================================== *)

(** [[...new Set(l)]]: the first occurrence of each element, in order. *)
Fixpoint uniq_from (seen : list string) (l : list string) : list string :=
  match l with
  | [] => []
  | x :: t =>
      if existsb (String.eqb x) seen then uniq_from seen t
      else x :: uniq_from (x :: seen) t
  end.

Definition getFilterKeys : M (list string) :=
  config <- getConfig ;;
  let customKeys := match filterKeys config with Some l => l | None => [] end in
  match useDefaultFilterKeys config with
  | Some false => ret customKeys
  | _ => ret (uniq_from [] (DEFAULT_FILTER_KEYS ++ customKeys))
  end.

Definition FILTERED : value := VString "[FILTERED]".
Definition MAX_DEPTH : value := VString "[MAX_DEPTH]".

(** [value.length > 10000 ? value.slice(0, 10000) + '...[TRUNCATED]' : value] *)
Definition truncate (s : string) : string :=
  if (10000 <? Z.of_nat (String.length s))%Z
  then (Str.slice0 (Z.to_nat 10000) s ++ "...[TRUNCATED]")%string
  else s.

(** The inner function of [sanitize]; [filterPattern] and [maxDepth] are the
    variables it closes over. *)
Fixpoint sanitizeValue (filterPattern : RegExp.t) (maxDepth : Z)
  (v : value) (depth : Z) {struct v} : value :=
  if (maxDepth <? depth)%Z then MAX_DEPTH
  else
    match v with
    | VNull | VUndefined => v
    | VString s => VString (truncate s)
    | VArray items =>
        VArray (map (fun item => sanitizeValue filterPattern maxDepth item (depth + 1)%Z) items)
    | VObject entries =>
        VObject
          (fold_left
             (fun result (kv : string * value) =>
                let (key, val) := kv in
                if RegExp.test filterPattern key then Obj.set key FILTERED result
                else Obj.set key (sanitizeValue filterPattern maxDepth val (depth + 1)%Z)
                       result)
             entries [])
    | _ => v
    end.

(** [new RegExp(filterKeys.join('|'), 'i')] *)
Definition filterPattern_of (keys : list string) : RegExp.compiled :=
  RegExp.compile (Str.join "|" keys).

Definition sanitize (data : value) (maxDepth : Z) : M value :=
  keys <- getFilterKeys ;;
  match filterPattern_of keys with
  | RegExp.Compiled r => ret (sanitizeValue (RegExp.mk r true) maxDepth data 0%Z)
  | RegExp.SyntaxError =>
      throw (JsSyntaxError ("Invalid regular expression: /" ++ Str.join "|" keys ++ "/")%string)
  | RegExp.Unsupported => fun w => (Beyond, w)
  end.

(** [sanitize(data)]: [maxDepth] defaults to 10. *)
Definition sanitize_default (data : value) : M value := sanitize data 10%Z.

(* ================================================================== *)
(** ** The callback chain *)
(* ================================================================== *)

(** The [for ... of] loop of [applyBeforeSend]; [i] is the position of
    the next callback, [res] the variable [result]. *)
Fixpoint run_callbacks (i : nat) (callbacks : list BeforeSendCallback)
  (res : option CheckendEvent) : M (option CheckendEvent) :=
  match callbacks with
  | [] => ret res
  | callback :: rest =>
      match res with
      | None => ret None
      | Some ev =>
          modify (record_call i ev) ;;
          match callback ev with
          | Returns r => run_callbacks (S i) rest r
          | Throws err =>
              log Error "beforeSend callback threw an error:" [ArgExn err] ;;
              run_callbacks (S i) rest res
          end
      end
  end.

Definition applyBeforeSend (event : CheckendEvent) : M (option CheckendEvent) :=
  config <- getConfig ;;
  match beforeSend config with
  | None => ret (Some event)
  | Some bs =>
      let callbacks := match bs with
                       | CallbackArray fs => fs
                       | OneCallback f => [f]
                       end in
      run_callbacks 0 callbacks (Some event)
  end.

(** [try { c } catch (e) { h e }] *)
Definition try_catch {A} (c : M A) (h : exn -> M A) : M A :=
  fun w => match c w with
           | (Throw e, w') => h e w'
           | r => r
           end.

(* ================================================================== *)
(** ** The edge runtime ([src/edge.ts]) *)
(* ================================================================== *)

Record Frame := mkFrame {
  file : string;
  method : string;
  number : Z }.

(** The source of the regular expression literal of [parseStackTrace]. *)
Definition STACK_LINE_SOURCE : string :=
  "at\s+(?:(.+?)\s+\()?(.+?):(\d+)(?::\d+)?\)?".

(** A regular expression literal of the sources, through the parser. *)
Definition literal (source : string) (i : bool) : RegExp.t :=
  match RegExp.compile source with
  | RegExp.Compiled r => RegExp.mk r i
  | _ => RegExp.mk RegExp.Eps i
  end.

Definition stack_line_re : RegExp.t := literal STACK_LINE_SOURCE false.

(** [x || d] for an optional string: [undefined] and [''] are falsy. *)
Definition or_string (o : option string) (d : string) : string :=
  match o with
  | Some s => if String.eqb s "" then d else s
  | None => d
  end.

(** [parseInt(x, 10) || 0]: [NaN] and 0 are falsy. *)
Definition parse_number (o : option string) : Z :=
  match o with
  | Some s => match Str.parseInt s with
              | Some n => n
              | None => 0%Z
              end
  | None => 0%Z
  end.

Definition frame_of_match (c : RegExp.caps) : Frame :=
  mkFrame (or_string (RegExp.capture 2 c) "<unknown>")
          (or_string (RegExp.capture 1 c) "<anonymous>")
          (parse_number (RegExp.capture 3 c)).

(** The [for ... of] loop over the lines; [acc] is the array
    [backtrace]. *)
Fixpoint parse_lines (lines : list string) (acc : list Frame) : list Frame :=
  match lines with
  | [] => acc
  | line :: rest =>
      match RegExp.exec stack_line_re line with
      | Some (_, c) => parse_lines rest (acc ++ [frame_of_match c])
      | None => parse_lines rest acc
      end
  end.

Definition parseStackTrace (stack : option string) : list Frame :=
  match stack with
  | None => []
  | Some s =>
      if String.eqb s "" then []
      else parse_lines (tl (Str.split_lines s)) []
  end.

(** [filterHeaders]: [headers] are the pairs [headers.forEach] visits, in
    its order (a name comes twice only for [set-cookie]); the result is the
    object [filtered]. *)
Definition filterHeaders (headers : list (string * string)) (filterKeys : list string)
  : list (string * string) :=
  let sensitiveKeys :=
    ["authorization"; "cookie"; "x-api-key"; "x-auth-token"]
      ++ map Str.toLowerCase filterKeys in
  fold_left
    (fun filtered (kv : string * string) =>
       let (key, val) := kv in
       if existsb (String.eqb (Str.toLowerCase key)) sensitiveKeys
       then Obj.set key "[FILTERED]" filtered
       else Obj.set key val filtered)
    headers [].

(** A [Request] of the platform, by what [notify] reads of it:
    the path and query of its URL, its method and its headers. *)
Record Request := mkRequest {
  rq_pathname : string;
  rq_search : string;
  rq_method : string;
  rq_headers : list (string * string) }.

Record NoticeRequest := mkNoticeRequest {
  nr_url : string;
  nr_method : string;
  nr_headers : list (string * string);
  nr_user_agent : option string }.

(** [interface EdgeNotice] (the [notifier] block is a constant). *)
Record EdgeNotice := mkEdgeNotice {
  n_error_class : string;
  n_message : string;
  n_backtrace : list Frame;
  n_context : option value;
  n_request : option NoticeRequest;
  n_user : option value;
  n_tags : option (list string);
  n_fingerprint : option string }.

(** The [options] argument of [notify]. *)
Record NotifyOptions := mkOptions {
  o_context : option value;
  o_request : option Request;
  o_user : option value;
  o_tags : option (list string);
  o_fingerprint : option string }.

Definition no_options : NotifyOptions := mkOptions None None None None None.

(** [headers.get(name)] *)
Fixpoint headers_get (nm : string) (headers : list (string * string)) : option string :=
  match headers with
  | [] => None
  | (k, v) :: t =>
      if String.eqb (Str.toLowerCase k) (Str.toLowerCase nm) then Some v
      else headers_get nm t
  end.

(** *** The JSON body

    A JSON text is represented by the document it denotes, a [value]
    without [VUndefined] and [VOther]: [JSON.stringify] maps a value to its
    document and [JSON.parse] reads the document back. *)

(** [JSON.stringify] on a value: [None] where it gives [undefined]. *)
Fixpoint jsonify (v : value) : option value :=
  match v with
  | VUndefined | VOther _ => None
  | VArray items =>
      Some (VArray (map (fun x => match jsonify x with
                                  | Some j => j
                                  | None => VNull
                                  end) items))
  | VObject entries =>
      Some (VObject
              (flat_map (fun kv : string * value =>
                           let (k, x) := kv in
                           match jsonify x with
                           | Some j => [(k, j)]
                           | None => []
                           end) entries))
  | _ => Some v
  end.

(** One property of an object literal under [JSON.stringify]. *)
Definition prop (k : string) (o : option value) : list (string * value) :=
  match o with
  | Some v => match jsonify v with
              | Some j => [(k, j)]
              | None => []
              end
  | None => []
  end.

Definition json_string_map (l : list (string * string)) : value :=
  VObject (map (fun kv : string * string => (fst kv, VString (snd kv))) l).

(** A frame is built as [{ method, file, number }]. *)
Definition json_frame (b : Frame) : value :=
  VObject [("method", VString (method b)); ("file", VString (file b));
           ("number", VNumber (number b))].

Definition json_request (r : NoticeRequest) : value :=
  VObject ([("url", VString (nr_url r)); ("method", VString (nr_method r));
            ("headers", json_string_map (nr_headers r))]
           ++ prop "user_agent" (option_map VString (nr_user_agent r))).

Definition NOTIFIER : value :=
  VObject [("name", VString "@checkend/nextjs"); ("version", VString "0.1.0");
           ("url", VString "https://github.com/Checkend/checkend-nextjs")].

(** [JSON.stringify(notice)] *)
Definition json_of_notice (n : EdgeNotice) : value :=
  VObject ([("error_class", VString (n_error_class n));
            ("message", VString (n_message n));
            ("backtrace", VArray (map json_frame (n_backtrace n)))]
           ++ prop "context" (n_context n)
           ++ prop "user" (n_user n)
           ++ prop "tags" (option_map (fun l => VArray (map VString l)) (n_tags n))
           ++ prop "fingerprint" (option_map VString (n_fingerprint n))
           ++ [("notifier", NOTIFIER)]
           ++ prop "request" (option_map json_request (n_request n))).

(* ================================================================== *)
(** ** The interceptor ([src/testing.ts]) *)
(* ================================================================== *)

(** Truthiness, and [a || b]. *)
Definition truthy (v : value) : bool :=
  match v with
  | VNull | VUndefined => false
  | VBool b => b
  | VNumber n => negb (n =? 0)%Z
  | VString s => negb (String.eqb s "")
  | _ => true
  end.

Definition js_or (a b : value) : value := if truthy a then a else b.

(** [payload.k]: [None] where the access throws (on [null]). *)
Definition field (payload : value) (k : string) : option value :=
  match payload with
  | VObject entries => Some (match lookup k entries with
                             | Some v => v
                             | None => VUndefined
                             end)
  | VNull | VUndefined => None
  | _ => Some VUndefined
  end.

(** The object literal [notice] of [createMockFetch]; [None] where one of
    its property accesses throws. *)
Definition decode_notice (payload : value) (now : Z) (rt : runtime)
  : option CapturedNotice :=
  match payload with
  | VNull | VUndefined => None
  | _ =>
      let get k := match field payload k with Some v => v | None => VUndefined end in
      Some (mkNotice
              (js_or (js_or (get "error_class") (get "errorClass")) (VString "Error"))
              (js_or (get "message") (VString ""))
              (js_or (get "backtrace") (VArray []))
              (get "context") (get "request") (get "user") (get "tags")
              (get "fingerprint") now rt)
  end.

(** [HeadersInit]: a record, an array of pairs or a [Headers] object. *)
Inductive HeadersInit :=
| HeadersRecord (entries : list (string * string))
| HeadersPairs (pairs : list (list string))
| HeadersInstance (entries : list (string * string)).

(** [RequestInit], by the members the code passes and reads. *)
Record RequestInit := mkInit {
  init_method : option string;
  init_headers : option HeadersInit;
  init_body : option value }.

(** [headers.toString()]: [None] where the call throws, on a record with a
    property [toString], which is a string and not a function. *)
Definition headers_toString (h : HeadersInit) : option string :=
  match h with
  | HeadersRecord entries =>
      if Obj.has "toString" entries then None else Some "[object Object]"
  | HeadersPairs pairs => Some (Str.join "," (map (Str.join ",") pairs))
  | HeadersInstance _ => Some "[object Headers]"
  end.

(** The transport of the platform: the request leaves, and the answer is
    a status or a rejection. *)
Definition real_fetch (url : string) (init : RequestInit) : M Z :=
  fun w =>
    let w' := match init_body init with
              | Some b => record_sent url b w
              | None => record_sent url VUndefined w
              end in
    match network w url with
    | Some status => (Ok status, w')
    | None => (Throw (JsError "fetch failed"), w')
    end.

(** The function [createMockFetch] returns.  The body is the JSON text
    of a document; what throws inside the [try] (the call of [toString], a
    property of [null]) leaves the store as it is. *)
Definition mock_fetch (url : string) (init : RequestInit) : M Z :=
  if Str.includes url "/ingest/" || Str.includes url "checkend" then
    (fun w =>
       match init_body init with
       | Some payload =>
           let rt :=
             if hasWindow w then Some Client
             else if Str.includes url "edge" then Some Edge
             else match init_headers init with
                  | Some h =>
                      match headers_toString h with
                      | Some text => Some (if Str.includes text "edge" then Edge else Server)
                      | None => None
                      end
                  | None => Some Server
                  end in
           match rt with
           | Some rt =>
               match decode_notice payload (clock w) rt with
               | Some notice => (Ok tt, set_notices (capturedNotices w ++ [notice]) w)
               | None => (Ok tt, w)
               end
           | None => (Ok tt, w)
           end
       | None => (Ok tt, w)
       end) ;;
    ret 201%Z
  else
    fun w =>
      match originalFetch w with
      | Some RealFetch => real_fetch url init w
      | Some MockFetch => (Beyond, w)
      | None => (Throw (JsError "Original fetch not available"), w)
      end.

(** A call of [globalThis.fetch]. *)
Definition call_fetch (url : string) (init : RequestInit) : M Z :=
  fun w => match fetch w with
           | RealFetch => real_fetch url init w
           | MockFetch => mock_fetch url init w
           end.

(** [Partial<CheckendNextConfig>]: an optional [apiKey], and the other
    fields as in [p_others] (whose [apiKey] is not read). *)
Record PartialConfig := mkPartial {
  p_apiKey : option string;
  p_others : CheckendNextConfig }.

Definition first_some {A} (a b : option A) : option A :=
  match a with Some _ => a | None => b end.

Definition no_config (k : string) : CheckendNextConfig :=
  mkConfig k None None None None None None None None None None None None None None
    None None None None.

(** [{ apiKey: 'test-api-key', endpoint: 'https://test.checkend.io',
       environment: 'test', debug: false, ...config }] *)
Definition test_config (config : option PartialConfig) : CheckendNextConfig :=
  match config with
  | None =>
      mkConfig "test-api-key" (Some "https://test.checkend.io") (Some "test")
        None None None None None None None None None None (Some false) None
        None None None None
  | Some p =>
      let o := p_others p in
      mkConfig (match p_apiKey p with Some k => k | None => "test-api-key" end)
        (first_some (endpoint o) (Some "https://test.checkend.io"))
        (first_some (environment o) (Some "test"))
        (appName o) (revision o) (enableClient o) (enableServer o) (enableEdge o)
        (ignoredRoutes o) (ignoredExceptions o) (filterKeys o)
        (useDefaultFilterKeys o) (beforeSend o)
        (first_some (debug o) (Some false))
        (logger o) (timeout o) (connectTimeout o) (maxQueueSize o) (shutdownTimeout o)
  end.

Definition setup (config : option PartialConfig) : M unit :=
  fun w =>
    if isTestMode w then
      console Warn "[Checkend Testing] Already in test mode. Call teardown() first." [] w
    else
      (reset ;;
       init (test_config config) ;;
       modify (set_notices []) ;;
       modify (fun w => set_fetch (Some (fetch w)) MockFetch w) ;;
       modify (set_testMode true)) w.

Definition teardown : M unit :=
  fun w =>
    if negb (isTestMode w) then (Ok tt, w)
    else
      (modify (fun w => match originalFetch w with
                        | Some f => set_fetch None f w
                        | None => w
                        end) ;;
       reset ;;
       modify (set_notices []) ;;
       modify (set_testMode false)) w.

Definition assertTestMode : M unit :=
  fun w =>
    if isTestMode w then (Ok tt, w)
    else (Throw (JsError "[Checkend Testing] Not in test mode. Call setup() first."), w).

Definition notices : M (list CapturedNotice) :=
  assertTestMode ;; fun w => (Ok (capturedNotices w), w).

Definition lastNotice : M (option CapturedNotice) :=
  assertTestMode ;; fun w => (Ok (last (map Some (capturedNotices w)) None), w).

(* ================================================================== *)
(** ** [notify] of the edge runtime *)
(* ================================================================== *)

Definition DEFAULT_ENDPOINT : string := "https://app.checkend.io".

Definition decimal (n : Z) : string := NilEmpty.string_of_int (Z.to_int n).

(** [`${b.file}:${b.number}:in \`${b.method}\``] *)
Definition frame_line (b : Frame) : string :=
  (file b ++ ":" ++ decimal (number b) ++ ":in `" ++ method b ++ "`")%string.

Definition build_notice (error : JsErrorObject) (options : NotifyOptions)
  (config : CheckendNextConfig) : EdgeNotice :=
  mkEdgeNotice (name error) (err_message error) (parseStackTrace (stack error))
    (o_context options)
    (match o_request options with
     | Some rq =>
         Some (mkNoticeRequest
                 (rq_pathname rq ++ rq_search rq)%string
                 (rq_method rq)
                 (filterHeaders (rq_headers rq)
                    (match filterKeys config with Some l => l | None => [] end))
                 (match headers_get "user-agent" (rq_headers rq) with
                  | Some ua => if String.eqb ua "" then None else Some ua
                  | None => None
                  end))
     | None => None
     end)
    (o_user options) (o_tags options) (o_fingerprint options).

Definition event_of_notice (notice : EdgeNotice) : CheckendEvent :=
  mkEvent (n_error_class notice) (n_message notice)
    (map frame_line (n_backtrace notice))
    (n_context notice) None (n_user notice) (n_tags notice) (n_fingerprint notice).

Definition when (b : bool) (c : M unit) : M unit := if b then c else ret tt.

(** The second argument of the [fetch] of [notify]. *)
Definition ingest_init (config : CheckendNextConfig) (notice : EdgeNotice) : RequestInit :=
  mkInit (Some "POST")
    (Some (HeadersRecord [("Content-Type", "application/json");
                          ("Checkend-Ingestion-Key", apiKey config)]))
    (Some (json_of_notice notice)).

Definition notify (error : JsErrorObject) (options : NotifyOptions) : M unit :=
  initialized <- isInitialized ;;
  if negb initialized then console Warn "[Checkend] Edge SDK: not initialized" []
  else
    ignored <- shouldIgnoreException error ;;
    if ignored then ret tt
    else
      config <- getConfig ;;
      if negb (flag (enableEdge config)) then
        when (flag (debug config))
          (console Log "[Checkend] Edge SDK disabled, skipping notification" [])
      else
        let endpoint := or_string (endpoint config) DEFAULT_ENDPOINT in
        let notice := build_notice error options config in
        dropped <-
          match beforeSend config with
          | Some _ =>
              res <- applyBeforeSend (event_of_notice notice) ;;
              match res with
              | None =>
                  when (flag (debug config))
                    (console Log "[Checkend] Edge: beforeSend returned null, skipping" []) ;;
                  ret true
              | Some _ => ret false
              end
          | None => ret false
          end ;;
        if dropped then ret tt
        else
          try_catch
            (status <- call_fetch (endpoint ++ "/ingest/v1/errors")%string
                         (ingest_init config notice) ;;
             when (flag (debug config))
               (console Log "[Checkend] Edge: sent notification, status:"
                  [ArgValue (VNumber status)]))
            (fun e =>
               when (flag (debug config))
                 (console Error "[Checkend] Edge: failed to send notification:" [ArgExn e])).

(* ================================================================== *)
(** ** Notions the statements use *)
(* ================================================================== *)

(** A filter key free of the syntax characters of the pattern language. *)
Definition plain_key (k : string) : bool :=
  forallb (fun c => negb (RegExp.is_syntax_char c)) (Str.chars k).

(** The pattern a plain key stands for: its characters in sequence. *)
Definition lit (k : string) : RegExp.regex :=
  RegExp.mkSeq (map RegExp.Chr (Str.chars k)).

(** The parser state after the plain characters [l]. *)
Definition push_chars (cur : RegExp.frame) (l : list ascii) : RegExp.frame :=
  fold_left (fun f c => RegExp.push RegExp.LAtom (RegExp.Chr c) f) l cur.

(** The property [sanitizeValue] writes for the entry [kv] of an object
    it walks at [depth]. *)
Definition sanitized_entry (p : RegExp.t) (maxDepth depth : Z) (kv : string * value)
  : string * value :=
  (fst kv,
   if RegExp.test p (fst kv) then FILTERED
   else sanitizeValue p maxDepth (snd kv) (depth + 1)%Z).

(** The names of the list are distinct. *)
Fixpoint distinct (l : list string) : bool :=
  match l with
  | [] => true
  | k :: t => negb (existsb (String.eqb k) t) && distinct t
  end.

(** The property names of every object in [v] are distinct, as those of
    an object are. *)
Fixpoint distinct_keys (v : value) : bool :=
  match v with
  | VArray items => forallb distinct_keys items
  | VObject entries =>
      distinct (map fst entries)
      && forallb (fun kv : string * value => distinct_keys (snd kv)) entries
  | _ => true
  end.

(** No property name on the path is matched by the filter pattern, so
    that the walk of [sanitizeValue] follows the path. *)
Definition unfiltered (p : RegExp.t) (path : list step) : bool :=
  forallb (fun st => match st with
                     | Key k => negb (RegExp.test p k)
                     | Index _ => true
                     end) path.


(** The values that are neither strings nor arrays nor objects. *)
Definition is_plain_scalar (v : value) : bool :=
  match v with
  | VNull | VUndefined | VBool _ | VNumber _ | VOther _ => true
  | _ => false
  end.

(** The callback chain as the specification words it: a left fold from
    the input event, [null] absorbing, a throwing callback a no-op. *)
Definition fold_step (acc : option CheckendEvent) (f : BeforeSendCallback)
  : option CheckendEvent :=
  match acc with
  | None => None
  | Some e => match f e with
              | Returns r => r
              | Throws _ => Some e
              end
  end.

Definition fold_callbacks (fs : list BeforeSendCallback) (start : option CheckendEvent)
  : option CheckendEvent :=
  fold_left fold_step fs start.

(** The calls the chain makes: position and argument, in order. *)
Fixpoint calls_of (i : nat) (fs : list BeforeSendCallback) (acc : option CheckendEvent)
  : list (nat * CheckendEvent) :=
  match fs, acc with
  | f :: rest, Some e => (i, e) :: calls_of (S i) rest (fold_step acc f)
  | _, _ => []
  end.

(** What the throwing callbacks of the chain threw, in order. *)
Fixpoint throws_of (fs : list BeforeSendCallback) (acc : option CheckendEvent)
  : list exn :=
  match fs, acc with
  | f :: rest, Some e =>
      match f e with
      | Throws err => err :: throws_of rest (fold_step acc f)
      | Returns _ => throws_of rest (fold_step acc f)
      end
  | _, _ => []
  end.

(** The credential field of an echoed configuration contains [secret]. *)
Definition shows_credential (e : log_entry) (secret : string) : bool :=
  existsb (fun a => match a with
                    | ArgConfig c => Str.includes (apiKey c) secret
                    | _ => false
                    end) (le_args e).

(** The frames one line of a stack trace contributes: one or none. *)
Definition line_frames (line : string) : list Frame :=
  match RegExp.exec stack_line_re line with
  | Some (_, c) => [frame_of_match c]
  | None => []
  end.

(** The capture harness is active in [w] with configuration [cfg]. *)
Definition active (w : world) (cfg : CheckendNextConfig) : Prop :=
  isTestMode w = true /\ fetch w = MockFetch /\ globalConfig w = Some cfg.

(** [JSON.parse(JSON.stringify(x))] of the optional fields of an event. *)
Definition json_tags (o : option (list string)) : value :=
  match o with
  | Some l => VArray (map VString l)
  | None => VUndefined
  end.

Definition json_opt_string (o : option string) : value :=
  match o with
  | Some s => VString s
  | None => VUndefined
  end.

(** The configuration [init({ apiKey: k })] merges. *)
Definition config_of_key (k : string) : CheckendNextConfig := merge_defaults (no_config k).

(** The world after [init(options)] from the initial one. *)
Definition world_after_init (options : CheckendNextConfig) : world :=
  snd (init options initial_world).

(** The list [getFilterKeys] returns on the live configuration [cfg]. *)
Definition effective_keys (cfg : CheckendNextConfig) : list string :=
  let customKeys := match filterKeys cfg with Some l => l | None => [] end in
  match useDefaultFilterKeys cfg with
  | Some false => customKeys
  | _ => uniq_from [] (DEFAULT_FILTER_KEYS ++ customKeys)
  end.

(** ** Inputs the examples use *)

(** [{ apiKey: k, ignoredRoutes, ignoredExceptions, filterKeys,
       useDefaultFilterKeys, beforeSend, debug, logger }] *)
Definition options (k : string) (routes exceptions : option (list rule))
  (keys : option (list string)) (useDefault : option bool)
  (bs : option beforeSend_t) (dbg : option bool) (lg : option string)
  : CheckendNextConfig :=
  mkConfig k None None None None None None None routes exceptions keys useDefault
    bs dbg lg None None None None.

(** [init({ apiKey: 'test-key' })] *)
Definition w_default : world := world_after_init (no_config "test-key").

(** [init({ apiKey: 'test-key', useDefaultFilterKeys: false })] *)
Definition w_no_keys : world :=
  world_after_init (options "test-key" None None None (Some false) None None None).

(** [init({ apiKey: 'test-key', filterKeys: ['('] })] *)
Definition w_paren_key : world :=
  world_after_init (options "test-key" None None (Some ["("]) None None None None).

(** [{ auth: { password: 'hunter2' } }] *)
Definition o_auth_password : value :=
  VObject [("auth", VObject [("password", VString "hunter2")])].

(** [{ user: { password: 'hunter2', name: 'john' } }] *)
Definition o_user_password : value :=
  VObject [("user", VObject [("password", VString "hunter2"); ("name", VString "john")])].


(** The pattern compiled from [DEFAULT_FILTER_KEYS]. *)
Definition default_pattern : RegExp.regex := RegExp.mkAlt (map lit DEFAULT_FILTER_KEYS).

(** [w] with [es] appended to the output and [cs] to the callback calls. *)
Definition add_trace (es : list log_entry) (cs : list (nat * CheckendEvent)) (w : world)
  : world :=
  mkWorld (globalConfig w) (configuredLogger w) (capturedNotices w) (isTestMode w)
    (originalFetch w) (fetch w) (hasWindow w) (clock w) (network w)
    (output w ++ es) (invoked w ++ cs) (sent w).

(** What a call of [log] writes under the logger [lg]. *)
Definition entries_of_log (lg : option CheckendLogger) (lv : level) (msg : string)
  (args : list log_arg) : list log_entry :=
  match lg with
  | None => []
  | Some (DefaultLogger debugOn) =>
      match lv with
      | Debug => if debugOn then [mkEntry Console Debug ("[Checkend] " ++ msg) args] else []
      | _ => [mkEntry Console lv ("[Checkend] " ++ msg) args]
      end
  | Some (CustomLogger nm) => [mkEntry (Custom nm) lv ("[Checkend] " ++ msg) args]
  end.

Definition callback_error_entries (lg : option CheckendLogger) (errs : list exn)
  : list log_entry :=
  flat_map (fun err => entries_of_log lg Error "beforeSend callback threw an error:"
                         [ArgExn err]) errs.

(** The sequence [applyBeforeSend] normalizes [beforeSend] into. *)
Definition callbacks_of (bs : beforeSend_t) : list BeforeSendCallback :=
  match bs with
  | CallbackArray fs => fs
  | OneCallback f => [f]
  end.

Definition rules_of (o : option (list rule)) : list rule :=
  match o with Some l => l | None => [] end.

(** [(event) => ({ ...event, message: event.message + suffix })] *)
Definition append_message (suffix : string) : BeforeSendCallback :=
  fun ev => Returns (Some (mkEvent (errorClass ev) (message ev ++ suffix) (backtrace ev)
                             (context ev) (request ev) (user ev) (tags ev)
                             (fingerprint ev))).

(** [() => null] *)
Definition drop_event : BeforeSendCallback := fun _ => Returns None.


(** [{ errorClass: 'Error', message: msg, backtrace: [] }] *)
Definition plain_event (msg : string) : CheckendEvent :=
  mkEvent "Error" msg [] None None None None None.

Definition w_before_send (fs : list BeforeSendCallback) : world :=
  world_after_init (options "test-key" None None None None (Some (CallbackArray fs)) None None).

Definition w_routes (rules : list rule) : world :=
  world_after_init (options "test-key" (Some rules) None None None None None None).

Definition w_exceptions (rules : list rule) : world :=
  world_after_init (options "test-key" None (Some rules) None None None None None).

(** [new TypeError('bad')], [new Error('ECONNRESET')], [new Error('Generic error')] *)
Definition type_error_bad : JsErrorObject := mkError "TypeError" "bad" None.
Definition error_econnreset : JsErrorObject := mkError "Error" "ECONNRESET" None.
Definition error_generic : JsErrorObject := mkError "Error" "Generic error" None.

(** [/^Error: ECONNRE/] *)
Definition re_econnre : RegExp.t := literal "^Error: ECONNRE" false.

(** [{ apiKey: k, debug: true }] *)
Definition options_debug (k : string) : CheckendNextConfig :=
  options k None None None None None (Some true) None.

(** The line [init] writes when [debug] is set. *)
Definition init_line (snk : sink) (cfg : CheckendNextConfig) : log_entry :=
  mkEntry snk Debug "[Checkend] Initialized with config:"
    [ArgConfig (with_apiKey (Str.slice0 8 (apiKey cfg) ++ "...")%string cfg)].

(** The line feed. *)
Definition LF : string := String "010"%char "".

(** A stack trace of four lines: the header, a frame with a method, a
    line that is no frame, a frame without a method. *)
Definition stack_example : string :=
  ("Error: boom" ++ LF ++ "    at handler (/app/route.js:10:5)" ++ LF
     ++ "    (native code)" ++ LF ++ "    at /app/server.js:7:1")%string.

(** The world after [setup()] from the initial one. *)
Definition w_test : world := snd (setup None initial_world).

(** [const e = new Error('boom'); e.name = ''] *)
Definition error_no_name : JsErrorObject := mkError "" "boom" None.

(** [new ValidationError('Invalid input')] *)
Definition error_validation : JsErrorObject := mkError "ValidationError" "Invalid input" None.

(** [{ tags: ['validation'], fingerprint: 'fp-1' }] *)
Definition options_tagged : NotifyOptions :=
  mkOptions None None None (Some ["validation"]) (Some "fp-1").

(** *** The inputs of the tests of the repository ([test/config.test.ts]) *)

(** [{ username: 'john', password: 'secret123', email: 'john@example.com' }] *)
Definition t_flat : value :=
  VObject [("username", VString "john"); ("password", VString "secret123");
           ("email", VString "john@example.com")].

(** [{ user: { name: 'john', apiKey: 'key123' } }] *)
Definition t_nested : value :=
  VObject [("user", VObject [("name", VString "john"); ("apiKey", VString "key123")])].

(** [{ items: [{ id: 1, token: 'abc' }, { id: 2, token: 'def' }] }] *)
Definition t_array : value :=
  VObject [("items",
            VArray [VObject [("id", VNumber 1); ("token", VString "abc")];
                    VObject [("id", VNumber 2); ("token", VString "def")]])].

(** [{ a: null, b: undefined, c: 'value' }] *)
Definition t_nullish : value :=
  VObject [("a", VNull); ("b", VUndefined); ("c", VString "value")].

(** [{ value: 'deep' }] wrapped [n] times in [{ nested: ... }]. *)
Fixpoint t_deep (n : nat) : value :=
  match n with
  | O => VObject [("value", VString "deep")]
  | S n' => VObject [("nested", t_deep n')]
  end.

(** [/^\/api\/v\d+\/internal/] *)
Definition re_api_internal : RegExp.t := literal "^\/api\/v\d+\/internal" false.

(* ================================================================== *)
(** ** The queries and assertions of [src/testing.ts] *)
(* ================================================================== *)

Definition firstNotice : M (option CapturedNotice) :=
  assertTestMode ;; fun w => (Ok (hd_error (capturedNotices w)), w).

Definition noticeCount : M nat :=
  assertTestMode ;; fun w => (Ok (length (capturedNotices w)), w).

Definition hasNotices : M bool :=
  assertTestMode ;; fun w => (Ok (0 <? length (capturedNotices w)), w).

Definition clearNotices : M unit :=
  assertTestMode ;; modify (set_notices []).

Definition isActive : M bool := fun w => (Ok (isTestMode w), w).

(** [findNotices(predicate)]; the predicate is taken to return normally. *)
Definition findNotices (predicate : CapturedNotice -> bool) : M (list CapturedNotice) :=
  assertTestMode ;; fun w => (Ok (filter predicate (capturedNotices w)), w).

(** [v === s] for a string [s]. *)
Definition is_string (v : value) (s : string) : bool :=
  match v with
  | VString x => String.eqb x s
  | _ => false
  end.

Definition findNoticesByClass (c : string) : M (list CapturedNotice) :=
  findNotices (fun n => is_string (cn_errorClass n) c).

(** [tags?.includes(tag) ?? false]: on an array the membership of the
    string, on a string the occurrence of [tag] in it, on [null] and
    [undefined] false; [None] for the other values, where the call
    throws. *)
Definition tags_include (tgs : value) (tag : string) : option bool :=
  match tgs with
  | VNull | VUndefined => Some false
  | VArray items => Some (existsb (fun x => is_string x tag) items)
  | VString s => Some (Str.includes s tag)
  | _ => None
  end.

(** [capturedNotices.filter((n) => n.tags?.includes(tag) ?? false)]. *)
Fixpoint filter_by_tag (tag : string) (l : list CapturedNotice)
  : option (list CapturedNotice) :=
  match l with
  | [] => Some []
  | n :: t =>
      match tags_include (cn_tags n) tag with
      | Some b =>
          match filter_by_tag tag t with
          | Some r => Some (if b then n :: r else r)
          | None => None
          end
      | None => None
      end
  end.

Definition findNoticesByTag (tag : string) : M (list CapturedNotice) :=
  assertTestMode ;;
  fun w => match filter_by_tag tag (capturedNotices w) with
           | Some r => (Ok r, w)
           | None => (Beyond, w)
           end.

Definition runtime_eqb (a b : runtime) : bool :=
  match a, b with
  | Client, Client | Server, Server | Edge, Edge => true
  | _, _ => false
  end.

Definition findNoticesByRuntime (rt : runtime) : M (list CapturedNotice) :=
  findNotices (fun n => runtime_eqb (cn_runtime n) rt).

(** *** JSON text and string conversion, for the messages of the assertions *)

Definition DQ : string := String "034"%char "".
Definition BS : string := String "092"%char "".

Definition hex_digit (n : nat) : string :=
  String (nth n (Str.chars "0123456789abcdef") "0"%char) "".

(** One code unit inside a JSON string ([QuoteJSONString]). *)
Definition quote_char (c : ascii) : string :=
  let n := nat_of_ascii c in
  if n =? 34 then BS ++ DQ
  else if n =? 92 then BS ++ BS
  else if n =? 8 then BS ++ "b"
  else if n =? 12 then BS ++ "f"
  else if n =? 10 then BS ++ "n"
  else if n =? 13 then BS ++ "r"
  else if n =? 9 then BS ++ "t"
  else if n <? 32 then BS ++ "u00" ++ hex_digit (n / 16) ++ hex_digit (n mod 16)
  else String c "".

Fixpoint quote_chars (s : string) : string :=
  match s with
  | EmptyString => EmptyString
  | String c t => (quote_char c ++ quote_chars t)%string
  end.

Definition quote (s : string) : string := (DQ ++ quote_chars s ++ DQ)%string.

(** [JSON.stringify(v)] as text; [None] where it gives [undefined]. *)
Fixpoint json_text (v : value) : option string :=
  match v with
  | VNull => Some "null"
  | VUndefined | VOther _ => None
  | VBool b => Some (if b then "true" else "false")
  | VNumber n => Some (decimal n)
  | VString s => Some (quote s)
  | VArray items =>
      Some ("[" ++ Str.join ","
                     (map (fun x => match json_text x with
                                    | Some t => t
                                    | None => "null"
                                    end) items) ++ "]")%string
  | VObject entries =>
      Some ("{" ++ Str.join ","
                     (flat_map (fun kv : string * value =>
                                  match json_text (snd kv) with
                                  | Some t => [(quote (fst kv) ++ ":" ++ t)%string]
                                  | None => []
                                  end) entries) ++ "}")%string
  end.

Fixpoint all_some {A} (l : list (option A)) : option (list A) :=
  match l with
  | [] => Some []
  | Some a :: t => option_map (cons a) (all_some t)
  | None :: _ => None
  end.

(** [`${v}`]; [None] on a [VOther], which the embedding does not print. *)
Fixpoint js_toString (v : value) : option string :=
  match v with
  | VNull => Some "null"
  | VUndefined => Some "undefined"
  | VBool b => Some (if b then "true" else "false")
  | VNumber n => Some (decimal n)
  | VString s => Some s
  | VOther _ => None
  | VArray items =>
      option_map (Str.join ",")
        (all_some (map (fun x => match x with
                                 | VNull | VUndefined => Some ""
                                 | _ => js_toString x
                                 end) items))
  | VObject _ => Some "[object Object]"
  end.

Definition assertNoticeCount (expected : Z) : M unit :=
  actual <- noticeCount ;;
  if (Z.of_nat actual =? expected)%Z then ret tt
  else
    fun w =>
      match json_text (VArray (map cn_errorClass (capturedNotices w))) with
      | Some js =>
          (Throw (JsError ("Expected " ++ decimal expected ++ " notice(s), but got "
                             ++ decimal (Z.of_nat actual) ++ ". " ++ "Notices: " ++ js)), w)
      | None => (Beyond, w)
      end.

(** [`${n.errorClass}: ${n.message}`] *)
Definition notice_line (n : CapturedNotice) : option value :=
  match js_toString (cn_errorClass n), js_toString (cn_message n) with
  | Some c, Some m => Some (VString (c ++ ": " ++ m))
  | _, _ => None
  end.

Definition assertNoNotices : M unit :=
  has <- hasNotices ;;
  if has then
    count <- noticeCount ;;
    fun w =>
      match all_some (map notice_line (capturedNotices w)) with
      | Some lines =>
          match json_text (VArray lines) with
          | Some js =>
              (Throw (JsError ("Expected no notices, but got " ++ decimal (Z.of_nat count)
                                 ++ ". " ++ "Notices: " ++ js)), w)
          | None => (Beyond, w)
          end
      | None => (Beyond, w)
      end
  else ret tt.

(** The argument of [addNotice]: [Partial<CapturedNotice>] with
    [errorClass] and [message] required; [None] is an absent field. *)
Record PartialNotice := mkPartialNotice {
  pn_errorClass : string;
  pn_message : string;
  pn_backtrace : option (list string);
  pn_context : option value;
  pn_request : option value;
  pn_user : option value;
  pn_tags : option (list string);
  pn_fingerprint : option string;
  pn_occurredAt : option Z;
  pn_runtime : option runtime }.

Definition opt_value (o : option value) : value :=
  match o with Some v => v | None => VUndefined end.

(** [{ backtrace: [], occurredAt: new Date(), runtime: 'server', ...notice }] *)
Definition notice_of_partial (p : PartialNotice) (now : Z) : CapturedNotice :=
  mkNotice (VString (pn_errorClass p)) (VString (pn_message p))
    (match pn_backtrace p with
     | Some l => VArray (map VString l)
     | None => VArray []
     end)
    (opt_value (pn_context p)) (opt_value (pn_request p)) (opt_value (pn_user p))
    (json_tags (pn_tags p)) (json_opt_string (pn_fingerprint p))
    (match pn_occurredAt p with Some t => t | None => now end)
    (match pn_runtime p with Some r => r | None => Server end).

Definition addNotice (notice : PartialNotice) : M unit :=
  assertTestMode ;;
  fun w => (Ok tt, set_notices (capturedNotices w ++ [notice_of_partial notice (clock w)]) w).

(* ================================================================== *)
(** ** The middleware wrapper ([src/integrations/middleware.ts]) *)
(* ================================================================== *)

(** How a call of the wrapped handler ends: with a response, by throwing
    an [Error], or by throwing another value. *)
Inductive settled (R : Type) :=
| Responds (r : R)
| Rejects (error : JsErrorObject)
| RejectsWith (v : value).
Arguments Responds {R} r.
Arguments Rejects {R} error.
Arguments RejectsWith {R} v.

(** [type NextMiddleware]: user code, by how its call ends. *)
Definition NextMiddleware (R : Type) := Request -> settled R.

(** The function [withCheckendMiddleware(handler)] returns.  [Ok o]: the
    call ends as [o] (returns the response, or rethrows what the handler
    threw); [Throw e]: the wrapper itself throws [e]. *)
Definition withCheckendMiddleware {R} (handler : NextMiddleware R) (request : Request)
  : M (settled R) :=
  let pathname := rq_pathname request in
  ignored <- shouldIgnoreRoute pathname ;;
  if ignored then ret (handler request)
  else
    match handler request with
    | Responds r => ret (Responds r)
    | Rejects error =>
        notify error
          (mkOptions
             (Some (VObject [("middleware", VBool true); ("pathname", VString pathname)]))
             (Some request) None None None) ;;
        ret (Rejects error)
    | RejectsWith v => ret (RejectsWith v)
    end.

(* ================================================================== *)
(** ** Further notions the statements use *)
(* ================================================================== *)

(** No value is left under a property name the pattern matches, at any
    depth of [v]. *)
Fixpoint redacted (p : RegExp.t) (v : value) : bool :=
  match v with
  | VArray items => forallb (redacted p) items
  | VObject entries =>
      forallb (fun kv : string * value =>
                 if RegExp.test p (fst kv)
                 then match snd kv with
                      | VString s => String.eqb s "[FILTERED]"
                      | _ => false
                      end
                 else redacted p (snd kv)) entries
  | _ => true
  end.

(** [needle] at the front of [hay] / somewhere in [hay], up to the case
    folding of the [i] flag. *)
Fixpoint prefix_ci (ic : bool) (needle hay : list ascii) : bool :=
  match needle, hay with
  | [], _ => true
  | a :: needle', x :: hay' => RegExp.chr_eq ic a x && prefix_ci ic needle' hay'
  | _ :: _, [] => false
  end.

Fixpoint includes_ci (ic : bool) (hay needle : list ascii) : bool :=
  if prefix_ci ic needle hay then true
  else match hay with
       | [] => false
       | _ :: t => includes_ci ic t needle
       end.

(** Every string value in [v] has at most [limit] code units. *)
Fixpoint strings_within (limit : Z) (v : value) : bool :=
  match v with
  | VString s => (Z.of_nat (String.length s) <=? limit)%Z
  | VArray items => forallb (strings_within limit) items
  | VObject entries =>
      forallb (fun kv : string * value => strings_within limit (snd kv)) entries
  | _ => true
  end.

Definition is_some {A} (o : option A) : bool :=
  match o with Some _ => true | None => false end.

(** [config.filterKeys || []] *)
Definition custom_keys (cfg : CheckendNextConfig) : list string :=
  match filterKeys cfg with Some l => l | None => [] end.

(** The names [filterHeaders] treats as sensitive. *)
Definition sensitive_headers (filterKeys : list string) : list string :=
  ["authorization"; "cookie"; "x-api-key"; "x-auth-token"] ++ map Str.toLowerCase filterKeys.

(** The number of line feeds in a string. *)
Fixpoint count_lf (s : string) : nat :=
  match s with
  | EmptyString => 0
  | String c t => (if Ascii.eqb c "010"%char then 1 else 0) + count_lf t
  end.

(** The error every read of the configuration throws before [init]. *)
Definition NOT_INITIALIZED : exn :=
  JsError "Checkend not initialized. Call init() first, typically in instrumentation.ts".

(** The error every query throws outside test mode. *)
Definition NOT_IN_TEST_MODE : exn :=
  JsError "[Checkend Testing] Not in test mode. Call setup() first.".

(** The request [notify] sends for [error] and [options] under [cfg]. *)
Definition ingest_url (cfg : CheckendNextConfig) : string :=
  (or_string (endpoint cfg) DEFAULT_ENDPOINT ++ "/ingest/v1/errors")%string.

(** [{ Business: 1, title: 'x' }] *)
Definition o_business : value :=
  VObject [("Business", VNumber 1); ("title", VString "x")].

(** The headers of the edge test and one more, as [forEach] visits them
    (in the order of the names). *)
Definition headers_example : list (string * string) :=
  [("authorization", "Bearer secret-token"); ("content-type", "application/json");
   ("cookie", "session=abc123"); ("x-tenant", "acme")].

(** What [filterHeaders] writes for the header [kv]. *)
Definition filtered_header (filterKeys : list string) (kv : string * string)
  : string * string :=
  (fst kv,
   if existsb (String.eqb (Str.toLowerCase (fst kv))) (sensitive_headers filterKeys)
   then "[FILTERED]" else snd kv).

(** The value of [shouldIgnoreException(error)] under [cfg]. *)
Definition ignored_exception (cfg : CheckendNextConfig) (error : JsErrorObject) : bool :=
  existsb (exception_rule_matches error (name error ++ ": " ++ err_message error))
    (rules_of (ignoredExceptions cfg)).

(** The [try ... catch] at the end of [notify]: the request and the two
    debug lines. *)
Definition deliver (cfg : CheckendNextConfig) (notice : EdgeNotice) : M unit :=
  try_catch
    (status <- call_fetch (ingest_url cfg) (ingest_init cfg notice) ;;
     when (flag (debug cfg))
       (console Log "[Checkend] Edge: sent notification, status:"
          [ArgValue (VNumber status)]))
    (fun e =>
       when (flag (debug cfg))
         (console Error "[Checkend] Edge: failed to send notification:" [ArgExn e])).

(** The callbacks configured under [cfg] drop the event of [notice]. *)
Definition dropped_by_callbacks (cfg : CheckendNextConfig) (notice : EdgeNotice) : bool :=
  match beforeSend cfg with
  | Some bs =>
      negb (is_some (fold_callbacks (callbacks_of bs) (Some (event_of_notice notice))))
  | None => false
  end.

(** [notify] returns without a request: nothing is initialised, or the
    exception is ignored, or the edge runtime is disabled, or a callback
    dropped the event. *)
Definition suppressed (w : world) (error : JsErrorObject) (options : NotifyOptions) : Prop :=
  globalConfig w = None
  \/ exists cfg,
       globalConfig w = Some cfg
       /\ (ignored_exception cfg error = true
           \/ flag (enableEdge cfg) = false
           \/ dropped_by_callbacks cfg (build_notice error options cfg) = true).

(** [init({ apiKey: 'test-key', enableEdge: false })] *)
Definition w_edge_disabled : world :=
  world_after_init
    (mkConfig "test-key" None None None None None None (Some false) None None None None
       None None None None None None None).


(** [new Error('Test error')] *)
Definition error_test : JsErrorObject := mkError "Error" "Test error" None.


(** [{ errorClass: c, message: m, tags: t }] *)
Definition partial_notice (c m : string) (t : option (list string)) : PartialNotice :=
  mkPartialNotice c m None None None None t None None None.

(** The tags of a notice are absent or a list of strings. *)
Definition well_tagged (n : CapturedNotice) : Prop :=
  exists o, cn_tags n = json_tags o.

(** The notice carries [tag] among its tags. *)
Definition has_tag (tag : string) (n : CapturedNotice) : bool :=
  match cn_tags n with
  | VArray items => existsb (fun x => is_string x tag) items
  | _ => false
  end.

(** The store of the scenario: a validation error, then a network
    error, both injected with [addNotice] after [setup()]. *)
Definition w_two_notices : world :=
  snd (addNotice (partial_notice "NetworkError" "x" (Some ["network"]))
         (snd (addNotice (partial_notice "ValidationError" "Invalid input"
                            (Some ["validation"])) w_test))).

(** The class and the message of the notice are strings. *)
Definition string_typed (n : CapturedNotice) : Prop :=
  exists c m, cn_errorClass n = VString c /\ cn_message n = VString m.

(** ['edge'] occurs in the text of the headers of the request. *)
Definition headers_mention_edge (init : RequestInit) : bool :=
  match init_headers init with
  | Some h => match headers_toString h with
              | Some text => Str.includes text "edge"
              | None => false
              end
  | None => false
  end.

(** The headers of the request are a record with a property [toString],
    on which the call [headers.toString()] throws. *)
Definition headers_not_printable (init : RequestInit) : bool :=
  match init_headers init with
  | Some (HeadersRecord entries) => Obj.has "toString" entries
  | _ => false
  end.

(** The interceptor takes the request as one of the ingestion API. *)
Definition intercepted (url : string) : bool :=
  Str.includes url "/ingest/" || Str.includes url "checkend".

(** The options the middleware wrapper passes to [notify]. *)
Definition middleware_options (request : Request) : NotifyOptions :=
  mkOptions
    (Some (VObject [("middleware", VBool true); ("pathname", VString (rq_pathname request))]))
    (Some request) None None None.

(** The route is covered by a rule of [ignoredRoutes]. *)
Definition ignored_route (cfg : CheckendNextConfig) (route : string) : bool :=
  existsb (route_rule_matches route) (rules_of (ignoredRoutes cfg)).

(** A request [GET /api/users] and one [GET /health/live]. *)
Definition request_api : Request := mkRequest "/api/users" "" "GET" [].
Definition request_health : Request := mkRequest "/health/live" "" "GET" [].

(** A handler that throws [new Error('Test error')] on every request. *)
Definition failing_handler : NextMiddleware unit :=
  fun _ => Rejects (mkError "Error" "Test error" None).

(* ================================================================== *)
(** * Properties *)
(* ================================================================== *)

(** ** Property writes *)

Section ObjFacts.
Import Obj.
Context {A : Type}.
Implicit Types (entries acc writes : list (string * A)) (key k : string) (v x : A).

Lemma has_in key entries : has key entries = true <-> In key (map fst entries).
Proof.
  unfold has. rewrite existsb_exists, in_map_iff. split.
  - intros (kv & Hin & He). apply String.eqb_eq in He. now exists kv.
  - intros (kv & He & Hin). exists kv. split; [exact Hin|]. apply String.eqb_eq. now symmetry.
Qed.

Lemma has_false key entries : has key entries = false <-> ~ In key (map fst entries).
Proof. rewrite <- has_in. destruct (has key entries); split; congruence. Qed.

Lemma get_none key entries : get key entries = None <-> ~ In key (map fst entries).
Proof.
  induction entries as [|[k' x] t IH]; cbn [get map In fst].
  - tauto.
  - destruct (String.eqb_spec key k') as [->|Hne].
    + split; [discriminate|]. intros H. destruct H. now left.
    + rewrite IH. split; [intros H [E|Hin]; [congruence | tauto] | tauto].
Qed.

Lemma get_in key v entries : get key entries = Some v -> In (key, v) entries.
Proof.
  induction entries as [|[k' x] t IH]; cbn [get]; [discriminate|].
  destruct (String.eqb_spec key k') as [->|Hne].
  - intros [= ->]. now left.
  - intros H. right. now apply IH.
Qed.

Lemma in_get key v entries :
  NoDup (map fst entries) -> In (key, v) entries -> get key entries = Some v.
Proof.
  induction entries as [|[k' x] t IH]; cbn [map fst get]; intros Hnd Hin; [destruct Hin|].
  inversion Hnd as [|? ? Hk Ht]; subst. destruct Hin as [[= -> ->]|Hin].
  - now rewrite String.eqb_refl.
  - destruct (String.eqb_spec key k') as [->|Hne]; [|now apply IH].
    destruct Hk. apply in_map_iff. now exists (k', v).
Qed.

(** *** What a write leaves in the object *)

Lemma replace_keys key v entries : map fst (replace key v entries) = map fst entries.
Proof.
  induction entries as [|[k' x] t IH]; [reflexivity|]. cbn [replace].
  destruct (String.eqb key k'); cbn [map fst]; [reflexivity | now rewrite IH].
Qed.

Lemma get_replace k key v entries :
  get k (replace key v entries)
  = if String.eqb k key then (if has key entries then Some v else None) else get k entries.
Proof.
  induction entries as [|[k' x] t IH]; cbn [replace get has existsb fst].
  - now destruct (String.eqb k key).
  - fold (has key t). destruct (String.eqb_spec key k') as [->|Hne]; cbn [get orb].
    + now destruct (String.eqb k k').
    + rewrite IH. destruct (String.eqb_spec k key) as [->|Hne2].
      * destruct (String.eqb_spec key k'); [contradiction | reflexivity].
      * reflexivity.
Qed.

Lemma in_replace k x key v entries :
  In (k, x) (replace key v entries) -> (k = key /\ x = v) \/ In (k, x) entries.
Proof.
  induction entries as [|[k' x'] t IH]; cbn [replace]; [intros []|].
  destruct (String.eqb_spec key k') as [->|Hne]; cbn [In].
  - intros [[= -> ->]|H]; [left; now split | right; now right].
  - intros [H|H]; [right; now left|]. destruct (IH H) as [?|?]; [now left | right; now right].
Qed.

Lemma insert_index_keys i key v entries :
  exists l1 l2, map fst entries = l1 ++ l2
                /\ map fst (insert_index i key v entries) = l1 ++ key :: l2.
Proof.
  induction entries as [|[k' x] t (l1 & l2 & E1 & E2)]; cbn [insert_index].
  - now exists [], [].
  - destruct (array_index k') as [j|]; [destruct (i <? j)%N|].
    + now exists [], (k' :: map fst t).
    + exists (k' :: l1), l2. cbn [map fst app]. now rewrite E1, E2.
    + now exists [], (k' :: map fst t).
Qed.

Lemma in_insert_index k x i key v entries :
  In (k, x) (insert_index i key v entries) <-> (k = key /\ x = v) \/ In (k, x) entries.
Proof.
  induction entries as [|[k' x'] t IH]; cbn [insert_index].
  - cbn [In]. split; [intros [[= <- <-]|[]]; now left | intros [[-> ->]|[]]; now left].
  - destruct (array_index k') as [j|]; [destruct (i <? j)%N|]; cbn [In];
      try rewrite IH; split; intros H;
      repeat match goal with
             | H : _ \/ _ |- _ => destruct H
             | H : _ /\ _ |- _ => destruct H
             end; subst; auto; try (left; congruence);
      match goal with H : (_, _) = (_, _) |- _ => injection H as <- <-; auto end.
Qed.

Lemma get_insert_index k i key v entries :
  has key entries = false ->
  get k (insert_index i key v entries) = if String.eqb k key then Some v else get k entries.
Proof.
  induction entries as [|[k' x] t IH]; cbn [insert_index has existsb fst]; intros Hh.
  - cbn [get]. reflexivity.
  - fold (has key t) in Hh. apply orb_false_iff in Hh. destruct Hh as [Hk Ht].
    assert (Hkk : forall s, String.eqb s key = true -> String.eqb s k' = false).
    { intros s E. apply String.eqb_eq in E. subst s. exact Hk. }
    destruct (array_index k') as [j|]; [destruct (i <? j)%N|]; cbn [get];
      try rewrite (IH Ht); destruct (String.eqb k key) eqn:E; try reflexivity;
      now rewrite (Hkk k E).
Qed.

Lemma get_app k entries l2 :
  get k (entries ++ l2) = match get k entries with Some v => Some v | None => get k l2 end.
Proof.
  induction entries as [|[k' x] t IH]; [reflexivity|].
  cbn [app get]. destruct (String.eqb k k'); [reflexivity | exact IH].
Qed.

Lemma get_set k key v entries :
  get k (set key v entries)
  = if String.eqb key "__proto__" then get k entries
    else if String.eqb k key then Some v else get k entries.
Proof.
  unfold set. destruct (String.eqb key "__proto__"); [reflexivity|].
  destruct (has key entries) eqn:Hh.
  - rewrite get_replace, Hh. reflexivity.
  - destruct (array_index key) as [i|].
    + now apply get_insert_index.
    + rewrite get_app. cbn [get]. apply has_false in Hh.
      destruct (String.eqb_spec k key) as [->|Hne].
      * apply get_none in Hh. now rewrite Hh.
      * now destruct (get k entries).
Qed.

Lemma in_set k x key v entries :
  In (k, x) (set key v entries) -> (k = key /\ x = v) \/ In (k, x) entries.
Proof.
  unfold set. destruct (String.eqb key "__proto__"); [now right|].
  destruct (has key entries).
  - apply in_replace.
  - destruct (array_index key) as [i|].
    + apply in_insert_index.
    + rewrite in_app_iff. cbn [In]. intros [H|[[= <- <-]|[]]]; [now right | now left].
Qed.

Lemma set_keys_incl key v entries :
  incl (map fst (set key v entries)) (key :: map fst entries).
Proof.
  intros k Hin. apply in_map_iff in Hin. destruct Hin as ([k' x] & <- & Hin).
  cbn [fst]. destruct (in_set _ _ _ _ _ Hin) as [[-> _]|H]; [now left|].
  right. apply in_map_iff. now exists (k', x).
Qed.

(** *** The writes of a list *)

Lemma assign_cons kv writes entries :
  assign (kv :: writes) entries = assign writes (set (fst kv) (snd kv) entries).
Proof. reflexivity. Qed.

Lemma assign_app w1 w2 entries : assign (w1 ++ w2) entries = assign w2 (assign w1 entries).
Proof. apply fold_left_app. Qed.

Lemma in_assign k x writes : forall entries,
  In (k, x) (assign writes entries) -> In (k, x) writes \/ In (k, x) entries.
Proof.
  induction writes as [|[k' x'] t IH]; intros entries H; [now right|].
  rewrite assign_cons in H. destruct (IH _ H) as [?|Hs]; [left; now right|].
  cbn [fst snd] in Hs. destruct (in_set _ _ _ _ _ Hs) as [[-> ->]|?]; [left; now left | now right].
Qed.

Lemma get_assign_absent k writes : forall entries,
  ~ In k (map fst writes) -> get k (assign writes entries) = get k entries.
Proof.
  induction writes as [|[k' x'] t IH]; intros entries Hn; [reflexivity|].
  rewrite assign_cons, IH by (intros H; apply Hn; now right).
  rewrite get_set. cbn [fst snd]. destruct (String.eqb k' "__proto__"); [reflexivity|].
  destruct (String.eqb_spec k k') as [->|Hne]; [|reflexivity].
  destruct Hn. now left.
Qed.

Lemma get_assign_proto writes : forall entries,
  get "__proto__" (assign writes entries) = get "__proto__" entries.
Proof.
  induction writes as [|[k' x'] t IH]; intros entries; [reflexivity|].
  rewrite assign_cons, IH, get_set. cbn [fst snd].
  destruct (String.eqb_spec k' "__proto__") as [->|Hne]; [reflexivity|].
  destruct (String.eqb_spec "__proto__" k'); [congruence | reflexivity].
Qed.

Lemma get_assign k v writes : forall entries,
  k <> "__proto__" ->
  NoDup (map fst writes) ->
  get k writes = Some v ->
  get k (assign writes entries) = Some v.
Proof.
  induction writes as [|[k' x'] t IH]; intros entries Hk Hnd Hg; [discriminate|].
  cbn [map fst] in Hnd. inversion Hnd as [|? ? Hnk Ht]; subst.
  rewrite assign_cons. cbn [get fst snd] in *.
  destruct (String.eqb_spec k k') as [->|Hne].
  - injection Hg as ->. rewrite get_assign_absent by exact Hnk.
    rewrite get_set. apply String.eqb_neq in Hk. now rewrite Hk, String.eqb_refl.
  - now apply IH.
Qed.

Lemma get_assign_some k writes : forall entries,
  k <> "__proto__" ->
  In k (map fst writes) ->
  exists v, get k (assign writes entries) = Some v.
Proof.
  induction writes as [|[k' x'] t IH]; intros entries Hk Hin; [destruct Hin|].
  rewrite assign_cons. cbn [map fst snd] in *.
  destruct (in_dec string_dec k (map fst t)) as [Ht|Ht]; [now apply IH|].
  destruct Hin as [->|Hin]; [|contradiction].
  rewrite get_assign_absent by exact Ht. rewrite get_set.
  apply String.eqb_neq in Hk. rewrite Hk, String.eqb_refl. now eexists.
Qed.

(** *** The canonical form *)

Lemma key_le_refl k : key_le k k.
Proof. unfold key_le. destruct (array_index k); [apply N.le_refl | exact I]. Qed.

Lemma canonical_nil : canonical (@nil (string * A)).
Proof. repeat split; [constructor | intros [] | constructor]. Qed.

Lemma sorted_insert_index i key v entries :
  array_index key = Some i ->
  StronglySorted key_le (map fst entries) ->
  StronglySorted key_le (map fst (insert_index i key v entries)).
Proof.
  intros Hi. induction entries as [|[k' x] t IH]; cbn [insert_index map fst]; intros Hs.
  - repeat constructor.
  - inversion Hs as [|? ? Hst Hall]; subst.
    assert (Hcase : forall j, array_index k' = j ->
              match j with Some j => (i <? j)%N = true | None => True end ->
              StronglySorted key_le (key :: k' :: map fst t)).
    { intros j Hj Hlt. constructor; [exact Hs|].
      assert (Hkk : key_le key k').
      { unfold key_le. rewrite Hi, Hj. destruct j as [j|]; [|exact I].
        apply N.ltb_lt in Hlt. lia. }
      constructor; [exact Hkk|].
      eapply Forall_impl; [|exact Hall]. intros k2 H2. unfold key_le in *.
      rewrite Hi. rewrite Hj in H2. destruct (array_index k2) as [j2|]; [|exact I].
      destruct j as [j|]; [|destruct H2]. apply N.ltb_lt in Hlt. lia. }
    destruct (array_index k') as [j|] eqn:Hj; [destruct (i <? j)%N eqn:Hlt|].
    + now apply (Hcase (Some j)).
    + cbn [map fst]. constructor; [now apply IH|].
      apply Forall_forall. intros k2 Hin. apply in_map_iff in Hin.
      destruct Hin as ([k3 x3] & <- & Hin). cbn [fst].
      apply in_insert_index in Hin. destruct Hin as [[-> _]|Hin].
      * unfold key_le. rewrite Hj, Hi. apply N.ltb_ge in Hlt. exact Hlt.
      * rewrite Forall_forall in Hall. apply Hall. apply in_map_iff. now exists (k3, x3).
    + now apply (Hcase None).
Qed.

Lemma sorted_snoc (key : string) (l : list string) :
  array_index key = None ->
  StronglySorted key_le l -> StronglySorted key_le (l ++ [key]).
Proof.
  intros Hn. induction 1 as [|k t Hst IH Hall]; cbn [app]; [repeat constructor|].
  constructor; [exact IH|]. apply Forall_app. split; [exact Hall|].
  constructor; [|constructor]. unfold key_le. rewrite Hn. now destruct (array_index k).
Qed.

Lemma NoDup_insert (k : string) l1 l2 :
  NoDup (l1 ++ l2) -> ~ In k (l1 ++ l2) -> NoDup (l1 ++ k :: l2).
Proof.
  intros Hnd Hn. apply NoDup_Add with (a := k) (l := l1 ++ l2).
  - apply Add_app.
  - now split.
Qed.

Lemma set_canonical key v entries : canonical entries -> canonical (set key v entries).
Proof.
  intros (Hnd & Hp & Hs). unfold set.
  destruct (String.eqb_spec key "__proto__") as [->|Hne]; [now repeat split|].
  destruct (has key entries) eqn:Hh.
  - unfold canonical. now rewrite replace_keys.
  - apply has_false in Hh. destruct (array_index key) as [i|] eqn:Hi.
    + destruct (insert_index_keys i key v entries) as (l1 & l2 & E1 & E2).
      unfold canonical. split; [|split].
      * rewrite E2. rewrite E1 in Hnd, Hh. now apply NoDup_insert.
      * rewrite E2. rewrite E1 in Hp. rewrite in_app_iff in *. cbn [In].
        intros [H|[H|H]]; [tauto | congruence | tauto].
      * now apply sorted_insert_index.
    + unfold canonical. rewrite map_app. cbn [map fst]. split; [|split].
      * change (map fst entries ++ [key]) with (map fst entries ++ key :: []).
        apply NoDup_insert; rewrite app_nil_r; assumption.
      * rewrite in_app_iff. cbn [In]. intros [H|[H|[]]]; [tauto | congruence].
      * now apply sorted_snoc.
Qed.

Lemma assign_canonical writes : forall entries,
  canonical entries -> canonical (assign writes entries).
Proof.
  induction writes as [|kv t IH]; intros entries H; [exact H|].
  rewrite assign_cons. apply IH. now apply set_canonical.
Qed.

Lemma insert_index_last i key v entries :
  Forall (fun k => key_le k key) (map fst entries) ->
  array_index key = Some i ->
  insert_index i key v entries = entries ++ [(key, v)].
Proof.
  intros Hall Hi. induction entries as [|[k' x] t IH]; [reflexivity|].
  cbn [map fst] in Hall. inversion Hall as [|? ? Hk Ht]; subst.
  cbn [insert_index app]. unfold key_le in Hk. rewrite Hi in Hk.
  destruct (array_index k') as [j|]; [|destruct Hk].
  apply N.ltb_ge in Hk. rewrite Hk. f_equal. now apply IH.
Qed.

Lemma set_snoc key v entries :
  canonical (entries ++ [(key, v)]) -> set key v entries = entries ++ [(key, v)].
Proof.
  intros (Hnd & Hp & Hs). rewrite map_app in Hnd, Hp, Hs. cbn [map fst] in *.
  unfold set.
  destruct (String.eqb_spec key "__proto__") as [->|_].
  { destruct Hp. apply in_app_iff. right. now left. }
  assert (Hh : has key entries = false).
  { apply has_false. intros Hin. apply NoDup_remove_2 in Hnd. apply Hnd.
    rewrite app_nil_r. exact Hin. }
  rewrite Hh. destruct (array_index key) as [i|] eqn:Hi; [|reflexivity].
  apply insert_index_last; [|exact Hi].
  clear -Hs. induction (map fst entries) as [|k t IH]; [constructor|].
  cbn [app] in Hs. inversion Hs as [|? ? Hst Hall]; subst.
  constructor; [|now apply IH]. rewrite Forall_app in Hall. destruct Hall as [_ Hl].
  now inversion Hl.
Qed.

Lemma canonical_prefix (l1 l2 : list (string * A)) :
  canonical (l1 ++ l2) -> canonical l1.
Proof.
  intros (Hnd & Hp & Hs). rewrite map_app in *. split; [|split].
  - now apply NoDup_app_remove_r in Hnd.
  - intros H. apply Hp. apply in_app_iff. now left.
  - clear -Hs. induction (map fst l1) as [|k t IH]; [constructor|].
    cbn [app] in Hs. inversion Hs as [|? ? Hst Hall]; subst.
    constructor; [now apply IH|]. rewrite Forall_app in Hall. tauto.
Qed.

(** Writing the entries of an object built by writes, in their order, into
    an empty object gives these entries back. *)
Lemma assign_canonical_id writes : canonical writes -> assign writes [] = writes.
Proof.
  induction writes as [|[k x] t IH] using rev_ind; intros Hc; [reflexivity|].
  rewrite assign_app, IH by (eapply canonical_prefix; exact Hc).
  cbn [assign fold_left fst snd]. now apply set_snoc.
Qed.

Lemma canonical_map {B} (f : string * A -> B) entries :
  canonical entries -> canonical (map (fun kv : string * A => (fst kv, f kv)) entries).
Proof. unfold canonical. rewrite map_map. cbn [fst]. tauto. Qed.

End ObjFacts.

(** ** Regular expressions compiled from plain keys *)

Section RegExpFacts.
Import RegExp.

Lemma chars_app (a b : string) : Str.chars (a ++ b)%string = Str.chars a ++ Str.chars b.
Proof. induction a; simpl; [reflexivity | now rewrite IHa]. Qed.

Lemma chars_length (s : string) : length (Str.chars s) = String.length s.
Proof. induction s; simpl; congruence. Qed.

Lemma mkSeq_cons ic n a l s c k :
  m ic n (mkSeq (a :: l)) s c k
  = m ic n a s c (fun s' c' => m ic n (mkSeq l) s' c' k).
Proof. destruct l; reflexivity. Qed.

Lemma m_literal ic n l l' rest c k :
  Forall2 (fun a x => chr_eq ic a x = true) l l' ->
  m ic n (mkSeq (map Chr l)) (l' ++ rest) c k = k rest c.
Proof.
  induction 1 as [|a x l l' Hax _ IH]; [reflexivity|].
  cbn [map]. rewrite mkSeq_cons. cbn [m app]. now rewrite Hax.
Qed.

Lemma chr_eq_refl ic a : chr_eq ic a a = true.
Proof. apply Ascii.eqb_refl. Qed.

Lemma m_mkAlt ic n rs r s c k :
  In r rs -> m ic n r s c k <> None -> m ic n (mkAlt rs) s c k <> None.
Proof.
  induction rs as [|a t IH]; [contradiction|].
  intros Hin Hr. destruct t as [|b t'].
  - destruct Hin as [->|[]]. exact Hr.
  - change (mkAlt (a :: b :: t')) with (Alt a (mkAlt (b :: t'))).
    cbn [m]. unfold orElse.
    destruct (m ic n a s c k) eqn:Ea; [discriminate|].
    destruct Hin as [->|Hin]; [congruence|]. now apply IH.
Qed.

Lemma scan_skip ic n r pre s :
  match_at ic n r s <> None -> scan ic n r (pre ++ s) <> None.
Proof.
  intros H. induction pre as [|x pre IH]; cbn [app].
  - destruct s; cbn [scan]; destruct (match_at ic n r _); congruence.
  - cbn [scan]. destruct (match_at ic n r (x :: pre ++ s)); [discriminate | exact IH].
Qed.

Lemma not_syntax_char c :
  is_syntax_char c = false ->
  ch_is c "\" = false /\ ch_is c "(" = false /\ ch_is c ")" = false /\
  ch_is c "|" = false /\ ch_is c "*" = false /\ ch_is c "+" = false /\
  ch_is c "?" = false /\ ch_is c "." = false /\ ch_is c "^" = false /\
  ch_is c "$" = false.
Proof.
  unfold is_syntax_char, ch_is. cbn [Str.chars list_ascii_of_string existsb].
  intros H.
  repeat match type of H with
         | (_ || _)%bool = false => apply orb_false_elim in H; destruct H as [? H]
         end.
  repeat split; assumption.
Qed.

Lemma parse_plain_char c cur stk ng p1 :
  is_syntax_char c = false ->
  parse cur stk ng (c :: p1) = parse (push LAtom (Chr c) cur) stk ng p1.
Proof.
  intros H. destruct (not_syntax_char c H) as (H1&H2&H3&H4&H5&H6&H7&H8&H9&H10).
  cbn [parse]. now rewrite H1, H2, H3, H4, H5, H6, H7, H8, H9, H10, H.
Qed.

Lemma parse_plain_chars l : forall cur stk ng rest,
  forallb (fun c => negb (is_syntax_char c)) l = true ->
  parse cur stk ng (l ++ rest) = parse (push_chars cur l) stk ng rest.
Proof.
  induction l as [|c l IH]; intros cur stk ng rest H; [reflexivity|].
  cbn [forallb] in H. apply andb_prop in H. destruct H as [Hc Hl].
  apply negb_true_iff in Hc.
  cbn [app]. rewrite parse_plain_char by exact Hc. now rewrite IH.
Qed.

Lemma push_chars_terms l : forall cur,
  terms (push_chars cur l) = rev (map Chr l) ++ terms cur
  /\ alts (push_chars cur l) = alts cur.
Proof.
  induction l as [|c l IH]; intros cur; [split; reflexivity|].
  cbn [push_chars fold_left map rev]. fold (push_chars (push LAtom (Chr c) cur) l).
  destruct (IH (push LAtom (Chr c) cur)) as [Ht Ha]. rewrite Ht, Ha.
  split; [|reflexivity]. cbn [push terms]. now rewrite <- app_assoc.
Qed.

Lemma parse_keys keys : forall done k0,
  forallb plain_key (k0 :: keys) = true ->
  parse (mkframe (rev (map lit done)) [] LNone) [] 0
        (Str.chars (Str.join "|" (k0 :: keys)))
  = Compiled (mkAlt (map lit (done ++ k0 :: keys))).
Proof.
  induction keys as [|k1 ks IH]; intros done k0 H.
  - cbn [forallb] in H. rewrite andb_true_r in H.
    change (Str.join "|" [k0]) with k0.
    rewrite <- (app_nil_r (Str.chars k0)).
    rewrite parse_plain_chars by exact H. cbn [parse]. f_equal.
    unfold close. destruct (push_chars_terms (Str.chars k0) (mkframe (rev (map lit done)) [] LNone)) as [Ht Ha].
    rewrite Ht, Ha. cbn [terms alts]. rewrite app_nil_r, rev_involutive.
    cbn [rev]. rewrite rev_involutive. now rewrite map_app.
  - cbn [forallb] in H. apply andb_prop in H. destruct H as [H0 H].
    change (Str.join "|" (k0 :: k1 :: ks))
      with (k0 ++ "|" ++ Str.join "|" (k1 :: ks))%string.
    rewrite chars_app. rewrite parse_plain_chars by exact H0.
    rewrite chars_app.
    change (Str.chars "|") with ["|"%char]. cbn [app].
    set (f := push_chars _ _).
    assert (Hstep : forall p1, parse f [] 0 ("|"%char :: p1) = parse (next_alt f) [] 0 p1)
      by reflexivity.
    rewrite Hstep. unfold next_alt, f.
    destruct (push_chars_terms (Str.chars k0) (mkframe (rev (map lit done)) [] LNone)) as [Ht Ha].
    rewrite Ht, Ha. cbn [terms alts]. rewrite app_nil_r, rev_involutive.
    change (mkSeq (map Chr (Str.chars k0)) :: rev (map lit done))
      with (lit k0 :: rev (map lit done)).
    replace (lit k0 :: rev (map lit done)) with (rev (map lit (done ++ [k0])))
      by (rewrite map_app, rev_app_distr; reflexivity).
    rewrite IH by exact H. now rewrite <- app_assoc.
Qed.

(** The pattern compiled from plain filter keys is the alternation of
    the keys, each a sequence of literal characters. *)
Lemma filterPattern_plain keys :
  forallb plain_key keys = true ->
  filterPattern_of keys = Compiled (mkAlt (map lit keys)).
Proof.
  intros H. destruct keys as [|k0 ks]; [reflexivity|].
  exact (parse_keys ks [] k0 H).
Qed.

(** Such a pattern tests true on every string that contains one of the
    keys. *)
Lemma test_plain_key ic keys k pre post :
  In k keys ->
  test (mk (mkAlt (map lit keys)) ic) (pre ++ k ++ post)%string = true.
Proof.
  intros Hin. unfold test, exec. cbn [ast ignoreCase].
  rewrite !chars_app.
  set (n := length _).
  destruct (scan ic n (mkAlt (map lit keys)) (Str.chars pre ++ Str.chars k ++ Str.chars post)) as [[w c]|] eqn:E;
    [reflexivity|].
  exfalso. revert E. apply scan_skip. unfold match_at.
  match goal with |- context [m ?a ?b ?r ?s ?c ?k] => destruct (m a b r s c k) as [[s' c']|] eqn:Em end;
    [discriminate|].
  exfalso. revert Em. apply m_mkAlt with (r := lit k).
  - now apply in_map.
  - unfold lit. rewrite m_literal; [discriminate|].
    induction (Str.chars k); constructor; [apply chr_eq_refl | assumption].
Qed.

Lemma test_eps ic s : test (mk Eps ic) s = true.
Proof.
  unfold test, exec. cbn [ast ignoreCase].
  destruct (Str.chars s); reflexivity.
Qed.

End RegExpFacts.

(** ** The redactor *)

(** ** Objects with distinct property names *)

Lemma lookup_get k entries : lookup k entries = Obj.get k entries.
Proof.
  induction entries as [|[k' v] t IH]; [reflexivity|].
  cbn [lookup Obj.get]. now rewrite IH.
Qed.

Lemma distinct_NoDup l : distinct l = true -> NoDup l.
Proof.
  induction l as [|k t IH]; cbn [distinct]; intros H; [constructor|].
  apply andb_prop in H. destruct H as [Hk Ht]. constructor; [|now apply IH].
  apply negb_true_iff in Hk. intros Hin.
  assert (existsb (String.eqb k) t = true); [|congruence].
  apply existsb_exists. exists k. split; [exact Hin | apply String.eqb_refl].
Qed.

Lemma distinct_keys_child st v sub :
  distinct_keys v = true -> child st v = Some sub -> distinct_keys sub = true.
Proof.
  intros Hd Hc. destruct st as [k|i]; destruct v; try discriminate; cbn [child] in Hc;
    cbn [distinct_keys] in Hd.
  - apply andb_prop in Hd. destruct Hd as [_ Hd]. rewrite forallb_forall in Hd.
    rewrite lookup_get in Hc. apply get_in in Hc. exact (Hd _ Hc).
  - rewrite forallb_forall in Hd. apply Hd. eapply nth_error_In. exact Hc.
Qed.

Lemma distinct_keys_at_path path : forall v sub,
  distinct_keys v = true -> at_path path v = Some sub -> distinct_keys sub = true.
Proof.
  induction path as [|st path IH]; intros v sub Hd Hat.
  - cbn in Hat. now injection Hat as <-.
  - cbn [at_path] in Hat. destruct (child st v) as [v'|] eqn:Hc; [|discriminate].
    eapply IH; [|exact Hat]. eapply distinct_keys_child; eassumption.
Qed.

Section Redactor.
Variable p : RegExp.t.
Variable maxDepth : Z.

Local Abbreviation san := (sanitizeValue p maxDepth).

Lemma sanitize_beyond v depth :
  (maxDepth < depth)%Z -> san v depth = MAX_DEPTH.
Proof.
  intros H. apply Z.ltb_lt in H.
  destruct v; cbn [sanitizeValue]; now rewrite H.
Qed.

Lemma sanitize_scalar v depth :
  (depth <= maxDepth)%Z -> is_plain_scalar v = true -> san v depth = v.
Proof.
  intros H Hs. apply Z.ltb_ge in H.
  destruct v; try discriminate; cbn [sanitizeValue]; now rewrite H.
Qed.

Lemma sanitize_string s depth :
  (depth <= maxDepth)%Z -> san (VString s) depth = VString (truncate s).
Proof. intros H. apply Z.ltb_ge in H. cbn [sanitizeValue]. now rewrite H. Qed.

Lemma sanitize_array items depth :
  (depth <= maxDepth)%Z ->
  san (VArray items) depth = VArray (map (fun item => san item (depth + 1)%Z) items).
Proof. intros H. apply Z.ltb_ge in H. cbn [sanitizeValue]. now rewrite H. Qed.

(** The loop over the entries is the sequence of the writes of the
    sanitized entries into an empty object. *)
Lemma sanitize_object entries depth :
  (depth <= maxDepth)%Z ->
  san (VObject entries) depth
  = VObject (Obj.assign (map (sanitized_entry p maxDepth depth) entries) []).
Proof.
  intros H. apply Z.ltb_ge in H. cbn [sanitizeValue]. rewrite H. f_equal.
  unfold Obj.assign. generalize (@nil (string * value)) as acc.
  induction entries as [|[k v] t IH]; intros acc; [reflexivity|].
  cbn [fold_left map].
  change (sanitized_entry p maxDepth depth (k, v))
    with (k, if RegExp.test p k then FILTERED else san v (depth + 1)%Z).
  cbn [fst snd]. destruct (RegExp.test p k); apply IH.
Qed.

Lemma sanitized_entry_keys entries depth :
  map fst (map (sanitized_entry p maxDepth depth) entries) = map fst entries.
Proof. rewrite map_map. reflexivity. Qed.

Lemma get_sanitized_entries k entries depth :
  Obj.get k (map (sanitized_entry p maxDepth depth) entries)
  = match Obj.get k entries with
    | Some v => Some (if RegExp.test p k then FILTERED else san v (depth + 1)%Z)
    | None => None
    end.
Proof.
  induction entries as [|[k' v'] t IH]; [reflexivity|].
  cbn [map Obj.get]. unfold sanitized_entry at 1. cbn [fst snd].
  destruct (String.eqb_spec k k') as [->|Hne]; [reflexivity | exact IH].
Qed.

Lemma lookup_sanitized k entries depth :
  k <> "__proto__" ->
  NoDup (map fst entries) ->
  lookup k (Obj.assign (map (sanitized_entry p maxDepth depth) entries) [])
  = match lookup k entries with
    | Some v => Some (if RegExp.test p k then FILTERED else san v (depth + 1)%Z)
    | None => None
    end.
Proof.
  intros Hk Hnd. rewrite (lookup_get k entries), lookup_get.
  destruct (Obj.get k entries) as [v|] eqn:Hg.
  - apply get_assign; [exact Hk | now rewrite sanitized_entry_keys|].
    now rewrite get_sanitized_entries, Hg.
  - rewrite get_assign_absent; [reflexivity|].
    rewrite sanitized_entry_keys. now apply get_none.
Qed.

Lemma lookup_sanitized_proto entries depth :
  lookup "__proto__" (Obj.assign (map (sanitized_entry p maxDepth depth) entries) []) = None.
Proof. rewrite lookup_get. now rewrite get_assign_proto. Qed.

Lemma in_sanitized k x entries depth :
  In (k, x) (Obj.assign (map (sanitized_entry p maxDepth depth) entries) []) ->
  exists v, In (k, v) entries
            /\ x = if RegExp.test p k then FILTERED else san v (depth + 1)%Z.
Proof.
  intros H. apply in_assign in H. destruct H as [H|[]].
  apply in_map_iff in H. destruct H as ([k' v] & E & Hin).
  unfold sanitized_entry in E. cbn [fst snd] in E. injection E as -> <-.
  now exists v.
Qed.

Lemma sanitize_child st v sub depth :
  (depth <= maxDepth)%Z ->
  distinct_keys v = true ->
  child st v = Some sub ->
  unfiltered p [st] = true ->
  st <> Key "__proto__" ->
  child st (san v depth) = Some (san sub (depth + 1)%Z).
Proof.
  intros Hd Hdk Hc Hu Hp. destruct st as [k|i]; destruct v; try discriminate.
  - rewrite sanitize_object by exact Hd. cbn [child] in *.
    cbn [distinct_keys] in Hdk. apply andb_prop in Hdk. destruct Hdk as [Hdk _].
    rewrite lookup_sanitized, Hc; [| congruence | now apply distinct_NoDup].
    cbn [unfiltered forallb] in Hu. rewrite andb_true_r in Hu.
    apply negb_true_iff in Hu. now rewrite Hu.
  - rewrite sanitize_array by exact Hd. cbn [child] in *.
    now rewrite nth_error_map, Hc.
Qed.

Lemma sanitize_at_path path : forall v sub depth,
  distinct_keys v = true ->
  at_path path v = Some sub ->
  unfiltered p path = true ->
  ~ In (Key "__proto__") path ->
  (depth + Z.of_nat (length path) <= maxDepth + 1)%Z ->
  at_path path (san v depth) = Some (san sub (depth + Z.of_nat (length path))%Z).
Proof.
  induction path as [|st path IH]; intros v sub depth Hdk Hat Hu Hp Hd.
  - cbn in *. injection Hat as ->. now rewrite Z.add_0_r.
  - cbn [at_path] in Hat. destruct (child st v) as [v'|] eqn:Hc; [|discriminate].
    cbn [unfiltered forallb] in Hu. apply andb_prop in Hu. destruct Hu as [Hst Hrest].
    cbn [length] in Hd.
    cbn [at_path].
    rewrite (sanitize_child st v v' depth); [ | lia | exact Hdk | exact Hc | | ].
    + assert (Hd' : distinct_keys v' = true)
        by (eapply distinct_keys_child; eassumption).
      assert (Hp' : ~ In (Key "__proto__") path) by (intros H; apply Hp; now right).
      rewrite (IH v' sub (depth + 1)%Z Hd' Hat Hrest Hp') by lia.
      do 2 f_equal. cbn [length]. lia.
    + cbn [unfiltered forallb]. now rewrite Hst.
    + intros ->. apply Hp. now left.
Qed.



End Redactor.

Lemma at_path_app p1 p2 v :
  at_path (p1 ++ p2) v
  = match at_path p1 v with Some x => at_path p2 x | None => None end.
Proof.
  revert v. induction p1 as [|st p1 IH]; intros v; [reflexivity|].
  cbn [app at_path]. destruct (child st v); [apply IH | reflexivity].
Qed.

Lemma getFilterKeys_live w cfg :
  globalConfig w = Some cfg -> getFilterKeys w = (Ok (effective_keys cfg), w).
Proof.
  intros H. unfold getFilterKeys, bind, getConfig, effective_keys. rewrite H.
  destruct (useDefaultFilterKeys cfg) as [[|]|]; reflexivity.
Qed.

Lemma sanitize_live w cfg r data maxDepth :
  globalConfig w = Some cfg ->
  filterPattern_of (effective_keys cfg) = RegExp.Compiled r ->
  sanitize data maxDepth w = (Ok (sanitizeValue (RegExp.mk r true) maxDepth data 0%Z), w).
Proof.
  intros H Hc. unfold sanitize, bind. rewrite (getFilterKeys_live w cfg H), Hc.
  reflexivity.
Qed.

(** ** C10, C3, C1: the redactor *)

(** C10 (amended). With [useDefaultFilterKeys] set to false and no custom
    filter keys (absent or an empty list), [getFilterKeys] returns the empty
    list, the pattern [sanitize] compiles from it is the empty pattern,
    which tests true on every key, and so [sanitize] replaces the value at
    every key other than ['__proto__'] of every object it walks (at a depth
    of at most [maxDepth]) with ['[FILTERED]'].  The result holds nothing
    else, and no property ['__proto__']; for an object built by writes (as
    every object is whose names do not include ['__proto__']) it is the
    object with ['[FILTERED]'] at every key, in the same order. *)
Theorem C10_no_filter_keys_redacts_every_key :
  forall (w : world) (cfg : CheckendNextConfig),
    globalConfig w = Some cfg ->
    useDefaultFilterKeys cfg = Some false ->
    (filterKeys cfg = None \/ filterKeys cfg = Some []) ->
    getFilterKeys w = (Ok [], w)
    /\ filterPattern_of [] = RegExp.Compiled RegExp.Eps
    /\ (forall key, RegExp.test (RegExp.mk RegExp.Eps true) key = true)
    /\ (forall data maxDepth,
          sanitize data maxDepth w
          = (Ok (sanitizeValue (RegExp.mk RegExp.Eps true) maxDepth data 0%Z), w))
    /\ (forall entries maxDepth depth,
          (depth <= maxDepth)%Z ->
          exists out,
            sanitizeValue (RegExp.mk RegExp.Eps true) maxDepth (VObject entries) depth
            = VObject out
            /\ (forall key, key <> "__proto__" -> In key (map fst entries) ->
                            lookup key out = Some FILTERED)
            /\ (forall key val, In (key, val) out ->
                                val = FILTERED /\ In key (map fst entries))
            /\ lookup "__proto__" out = None
            /\ (Obj.canonical entries ->
                out = map (fun kv => (fst kv, FILTERED)) entries)).
Proof.
  intros w cfg Hlive Huse Hkeys.
  assert (Heff : effective_keys cfg = []).
  { unfold effective_keys. rewrite Huse. now destruct Hkeys as [-> | ->]. }
  split; [|split; [|split; [|split]]].
  - rewrite (getFilterKeys_live w cfg Hlive). now rewrite Heff.
  - reflexivity.
  - intros key. apply test_eps.
  - intros data maxDepth. apply (sanitize_live w cfg); [exact Hlive|].
    now rewrite Heff.
  - intros entries maxDepth depth Hd.
    eexists. split; [apply sanitize_object; exact Hd|].
    assert (Hall : forall key val,
               In (key, val)
                  (Obj.assign (map (sanitized_entry (RegExp.mk RegExp.Eps true)
                                      maxDepth depth) entries) []) ->
               val = FILTERED /\ In key (map fst entries)).
    { intros key val Hin. apply in_sanitized in Hin. destruct Hin as (v & Hin & ->).
      rewrite test_eps. split; [reflexivity|]. apply in_map_iff. now exists (key, v). }
    split; [|split; [exact Hall|split]].
    + intros key Hk Hin.
      destruct (get_assign_some key
                  (map (sanitized_entry (RegExp.mk RegExp.Eps true) maxDepth depth) entries)
                  [] Hk) as (v & Hv).
      { now rewrite sanitized_entry_keys. }
      rewrite lookup_get, Hv. f_equal. apply get_in in Hv. now apply Hall in Hv.
    + apply lookup_sanitized_proto.
    + intros Hc.
      replace (map (sanitized_entry (RegExp.mk RegExp.Eps true) maxDepth depth) entries)
        with (map (fun kv : string * value => (fst kv, FILTERED)) entries).
      * apply assign_canonical_id. now apply canonical_map.
      * apply map_ext. intros [k v]. unfold sanitized_entry. cbn [fst snd].
        now rewrite test_eps.
Qed.

Lemma C10_witness :
  globalConfig w_no_keys
  = Some (merge_defaults (options "test-key" None None None (Some false) None None None))
  /\ sanitize_default (VObject [("username", VString "john"); ("n", VNumber 1)]) w_no_keys
     = (Ok (VObject [("username", FILTERED); ("n", FILTERED)]), w_no_keys).
Proof.
  split; [reflexivity|].
  destruct (C10_no_filter_keys_redacts_every_key w_no_keys
              (merge_defaults (options "test-key" None None None (Some false) None None None))
              eq_refl eq_refl (or_introl eq_refl))
    as (_ & _ & _ & Hs & _).
  unfold sanitize_default. rewrite Hs. vm_compute. reflexivity.
Defined.

(** C10 as stated fails on the key ['__proto__'] (an own property of what
    [JSON.parse] returns, for one): the write of ['[FILTERED]'] to that
    name reaches the setter of the prototype, which ignores a string, and
    the result has no such property. *)
Lemma C10_counterexample :
  globalConfig w_no_keys
  = Some (merge_defaults (options "test-key" None None None (Some false) None None None))
  /\ lookup "__proto__" [("__proto__", VString "x"); ("username", VString "john")]
     = Some (VString "x")
  /\ sanitize_default
       (VObject [("__proto__", VString "x"); ("username", VString "john")]) w_no_keys
     = (Ok (VObject [("username", FILTERED)]), w_no_keys)
  /\ lookup "__proto__" [("username", FILTERED)] = None.
Proof. repeat split; vm_compute; reflexivity. Qed.




(** C1 (amended). On a live configuration whose effective filter keys
    contain no syntax character of the pattern language and include
    ["password"], the filter pattern compiles, and for every input and every
    key ["password"] in an object nested at a depth of at most [maxDepth]
    and reached through property names that the pattern does not match and
    that are not ['__proto__'], [sanitize] returns a value with
    ['[FILTERED]'] at that key.  In every object walked at a depth of at
    most [maxDepth], a key the pattern matches gets ['[FILTERED]'] and a key
    it does not match gets its value walked at [depth + 1], except for a
    key ['__proto__'], which the result does not have; [null], [undefined]
    and the scalars that are not strings come back unchanged at such a
    depth.  (The property names of an object are distinct.) *)
Theorem C1_password_is_filtered :
  forall (w : world) (cfg : CheckendNextConfig),
    globalConfig w = Some cfg ->
    forallb plain_key (effective_keys cfg) = true ->
    In "password" (effective_keys cfg) ->
    getFilterKeys w = (Ok (effective_keys cfg), w)
    /\ exists r : RegExp.regex,
      filterPattern_of (effective_keys cfg) = RegExp.Compiled r
      /\ forall maxDepth : Z,
          (forall data path v0,
              distinct_keys data = true ->
              at_path (path ++ [Key "password"]) data = Some v0 ->
              (Z.of_nat (length path) <= maxDepth)%Z ->
              unfiltered (RegExp.mk r true) path = true ->
              ~ In (Key "__proto__") path ->
              exists out,
                sanitize data maxDepth w = (Ok out, w)
                /\ at_path (path ++ [Key "password"]) out = Some FILTERED)
          /\ (forall entries depth key val,
                (depth <= maxDepth)%Z ->
                NoDup (map fst entries) ->
                key <> "__proto__" ->
                lookup key entries = Some val ->
                exists out,
                  sanitizeValue (RegExp.mk r true) maxDepth (VObject entries) depth
                  = VObject out
                  /\ lookup key out
                     = Some (if RegExp.test (RegExp.mk r true) key then FILTERED
                             else sanitizeValue (RegExp.mk r true) maxDepth val
                                    (depth + 1)%Z))
          /\ (forall entries depth,
                (depth <= maxDepth)%Z ->
                exists out,
                  sanitizeValue (RegExp.mk r true) maxDepth (VObject entries) depth
                  = VObject out
                  /\ lookup "__proto__" out = None)
          /\ (forall v depth,
                (depth <= maxDepth)%Z ->
                is_plain_scalar v = true ->
                sanitizeValue (RegExp.mk r true) maxDepth v depth = v).
Proof.
  intros w cfg Hlive Hplain Hin.
  split; [exact (getFilterKeys_live w cfg Hlive)|].
  exists (RegExp.mkAlt (map lit (effective_keys cfg))).
  pose proof (filterPattern_plain _ Hplain) as Hc.
  split; [exact Hc|]. intros maxDepth. split; [|split; [|split]].
  - intros data path v0 Hdk Hat Hlen Hu Hp.
    eexists. split; [exact (sanitize_live w cfg _ data maxDepth Hlive Hc)|].
    rewrite at_path_app in Hat |- *.
    destruct (at_path path data) as [obj|] eqn:Hobj; [|discriminate].
    rewrite (sanitize_at_path _ _ path data obj 0%Z Hdk Hobj Hu Hp) by lia.
    cbn [at_path] in Hat |- *.
    destruct (child (Key "password") obj) as [v1|] eqn:Hch; [|discriminate].
    pose proof (distinct_keys_at_path _ _ _ Hdk Hobj) as Hdo.
    destruct obj; try discriminate. cbn [child] in Hch.
    rewrite sanitize_object by lia. cbn [child].
    cbn [distinct_keys] in Hdo. apply andb_prop in Hdo. destruct Hdo as [Hdo _].
    rewrite lookup_sanitized, Hch; [|discriminate | now apply distinct_NoDup].
    pose proof (test_plain_key true (effective_keys cfg) "password" "" "" Hin) as Ht.
    cbn [append] in Ht. now rewrite Ht.
  - intros entries depth key val Hd Hnd Hk Hl.
    eexists. split; [apply sanitize_object; exact Hd|].
    now rewrite lookup_sanitized, Hl.
  - intros entries depth Hd.
    eexists. split; [apply sanitize_object; exact Hd|]. apply lookup_sanitized_proto.
  - intros v depth Hd Hs. now apply sanitize_scalar.
Qed.

Lemma C1_witness :
  globalConfig w_default = Some (config_of_key "test-key")
  /\ In "password" (effective_keys (config_of_key "test-key"))
  /\ exists out,
       sanitize o_user_password 10%Z w_default = (Ok out, w_default)
       /\ at_path [Key "user"; Key "password"] out = Some FILTERED.
Proof.
  assert (Hplain : forallb plain_key (effective_keys (config_of_key "test-key")) = true)
    by (vm_compute; reflexivity).
  assert (Hin : In "password" (effective_keys (config_of_key "test-key")))
    by (vm_compute; left; reflexivity).
  split; [reflexivity|]. split; [exact Hin|].
  destruct (C1_password_is_filtered w_default (config_of_key "test-key")
              eq_refl Hplain Hin) as (_ & r & Hc & H).
  destruct (H 10%Z) as (Hpw & _).
  apply (Hpw o_user_password [Key "user"] (VString "hunter2")).
  - reflexivity.
  - reflexivity.
  - cbn. lia.
  - assert (Hr : RegExp.Compiled r = RegExp.Compiled default_pattern)
      by (rewrite <- Hc; vm_compute; reflexivity).
    injection Hr as ->. vm_compute. reflexivity.
  - intros [H1|[]]. discriminate H1.
Defined.

(** C1 as stated fails in two ways.  Under the default configuration the
    key ["auth"] is itself matched, so the whole object below it is
    replaced and nothing is left at [auth.password]; and a filter key
    ["("] next to the default keys makes the pattern invalid, so that
    [sanitize] throws. *)
Lemma C1_counterexample :
  (In "password" (effective_keys (config_of_key "test-key"))
   /\ at_path [Key "auth"; Key "password"] o_auth_password = Some (VString "hunter2")
   /\ sanitize o_auth_password 10%Z w_default
      = (Ok (VObject [("auth", FILTERED)]), w_default)
   /\ at_path [Key "auth"; Key "password"] (VObject [("auth", FILTERED)]) = None)
  /\ (exists cfg,
        globalConfig w_paren_key = Some cfg
        /\ In "password" (effective_keys cfg)
        /\ exists msg,
             sanitize o_user_password 10%Z w_paren_key
             = (Throw (JsSyntaxError msg), w_paren_key)).
Proof.
  split.
  - split; [vm_compute; left; reflexivity|].
    split; [reflexivity|]. split; vm_compute; reflexivity.
  - eexists. split; [reflexivity|]. split; [vm_compute; left; reflexivity|].
    eexists. vm_compute. reflexivity.
Qed.

(** ** The trace of a computation *)

Lemma add_trace_nil w : add_trace [] [] w = w.
Proof. destruct w. unfold add_trace. cbn. now rewrite !app_nil_r. Qed.

Lemma add_trace_add_trace e1 c1 e2 c2 w :
  add_trace e2 c2 (add_trace e1 c1 w) = add_trace (e1 ++ e2) (c1 ++ c2) w.
Proof. unfold add_trace. cbn. now rewrite !app_assoc. Qed.

Lemma record_call_trace i ev w : record_call i ev w = add_trace [] [(i, ev)] w.
Proof. unfold record_call, add_trace. now rewrite app_nil_r. Qed.

Lemma emit_trace e w : emit e w = add_trace [e] [] w.
Proof. unfold emit, add_trace. now rewrite app_nil_r. Qed.

Lemma log_trace lv msg args w :
  log lv msg args w
  = (Ok tt, add_trace (entries_of_log (configuredLogger w) lv msg args) [] w).
Proof.
  unfold log, entries_of_log.
  destruct (configuredLogger w) as [[d|nm]|] eqn:E.
  - destruct lv; cbn [call_logger]; try destruct d; unfold modify, ret;
      rewrite ?emit_trace, ?add_trace_nil; reflexivity.
  - cbn [call_logger]. unfold modify. now rewrite emit_trace.
  - now rewrite add_trace_nil.
Qed.

(** ** C4, C5: the callback chain *)

Lemma fold_callbacks_none fs : fold_callbacks fs None = None.
Proof. induction fs; [reflexivity | exact IHfs]. Qed.

Lemma fold_callbacks_app fs1 fs2 start :
  fold_callbacks (fs1 ++ fs2) start = fold_callbacks fs2 (fold_callbacks fs1 start).
Proof. apply fold_left_app. Qed.

Lemma calls_of_app fs1 : forall fs2 i start,
  calls_of i (fs1 ++ fs2) start
  = calls_of i fs1 start ++ calls_of (i + length fs1) fs2 (fold_callbacks fs1 start).
Proof.
  induction fs1 as [|f fs1 IH]; intros fs2 i start.
  - cbn. now rewrite Nat.add_0_r.
  - destruct start as [e|].
    + cbn [app calls_of length]. rewrite IH. cbn [app]. do 3 f_equal. lia.
    + cbn [app calls_of]. rewrite fold_callbacks_none.
      destruct fs2; reflexivity.
Qed.

Lemma calls_of_index fs : forall i start j e,
  In (j, e) (calls_of i fs start) -> i <= j < i + length fs.
Proof.
  induction fs as [|f fs IH]; intros i start j e H; [destruct start; contradiction|].
  destruct start as [e0|]; [|contradiction].
  cbn [calls_of length] in *. destruct H as [H|H].
  - injection H as <- _. lia.
  - apply IH in H. lia.
Qed.


(** The loop of [applyBeforeSend] returns the fold, and leaves in the
    trace the calls it made and the errors it logged. *)
Lemma run_callbacks_trace fs : forall i res w,
  run_callbacks i fs res w
  = (Ok (fold_callbacks fs res),
     add_trace (callback_error_entries (configuredLogger w) (throws_of fs res))
               (calls_of i fs res) w).
Proof.
  induction fs as [|f fs IH]; intros i res w.
  - cbn. destruct res; now rewrite add_trace_nil.
  - destruct res as [ev|].
    + cbn [run_callbacks]. unfold bind at 1. unfold modify at 1.
      cbn [fold_callbacks fold_left fold_step calls_of throws_of].
      destruct (f ev) as [r|err] eqn:Ef.
      * rewrite IH. f_equal.
        rewrite record_call_trace.
        now rewrite add_trace_add_trace.
      * unfold bind. rewrite log_trace. rewrite IH. f_equal.
        rewrite record_call_trace.
        rewrite !add_trace_add_trace. cbn [app callback_error_entries flat_map].
        reflexivity.
    + cbn. rewrite fold_callbacks_none. now rewrite add_trace_nil.
Qed.

Lemma applyBeforeSend_trace w cfg bs event :
  globalConfig w = Some cfg ->
  beforeSend cfg = Some bs ->
  applyBeforeSend event w
  = (Ok (fold_callbacks (callbacks_of bs) (Some event)),
     add_trace (callback_error_entries (configuredLogger w)
                  (throws_of (callbacks_of bs) (Some event)))
               (calls_of 0 (callbacks_of bs) (Some event)) w).
Proof.
  intros Hlive Hbs. unfold applyBeforeSend, bind, getConfig. rewrite Hlive, Hbs.
  destruct bs; apply run_callbacks_trace.
Qed.

(** C4. With no [beforeSend] configured, [applyBeforeSend] returns the
    event unchanged and calls nothing.  With a configured sequence (a single
    callback counting as a sequence of one) it returns the left fold of the
    callbacks from the input event, calling them in order; when a callback
    returns [null] the result is [null], and that callback is the last one
    called. *)
Theorem C4_applyBeforeSend_folds_left :
  forall (w : world) (cfg : CheckendNextConfig) (event : CheckendEvent),
    globalConfig w = Some cfg ->
    (beforeSend cfg = None -> applyBeforeSend event w = (Ok (Some event), w))
    /\ (forall bs,
          beforeSend cfg = Some bs ->
          exists w',
            applyBeforeSend event w
            = (Ok (fold_left fold_step (callbacks_of bs) (Some event)), w')
            /\ invoked w' = invoked w ++ calls_of 0 (callbacks_of bs) (Some event))
    /\ (forall bs fs1 f fs2 e1,
          beforeSend cfg = Some bs ->
          callbacks_of bs = fs1 ++ f :: fs2 ->
          fold_left fold_step fs1 (Some event) = Some e1 ->
          f e1 = Returns None ->
          exists w',
            applyBeforeSend event w = (Ok None, w')
            /\ invoked w' = invoked w ++ calls_of 0 fs1 (Some event) ++ [(length fs1, e1)]
            /\ forall j e, In (j, e) (invoked w') ->
                           In (j, e) (invoked w) \/ j <= length fs1).
Proof.
  intros w cfg event Hlive. repeat split.
  - intros Hnone. unfold applyBeforeSend, bind, getConfig. now rewrite Hlive, Hnone.
  - intros bs Hbs. eexists. split; [exact (applyBeforeSend_trace w cfg bs event Hlive Hbs)|].
    reflexivity.
  - intros bs fs1 f fs2 e1 Hbs Hsplit Hfold Hnull.
    assert (Hcalls : calls_of 0 (callbacks_of bs) (Some event)
                     = calls_of 0 fs1 (Some event) ++ [(length fs1, e1)]).
    { rewrite Hsplit, calls_of_app. f_equal. fold (fold_callbacks fs1 (Some event)).
      unfold fold_callbacks. rewrite Hfold. cbn [calls_of Nat.add fold_step].
      rewrite Hnull. destruct fs2; reflexivity. }
    eexists. split; [|split].
    + rewrite (applyBeforeSend_trace w cfg bs event Hlive Hbs). f_equal. f_equal.
      rewrite Hsplit, fold_callbacks_app. unfold fold_callbacks at 2. rewrite Hfold.
      cbn [fold_callbacks fold_left fold_step]. rewrite Hnull.
      apply fold_callbacks_none.
    + cbn [add_trace invoked]. now rewrite Hcalls.
    + intros j e Hin. cbn [add_trace invoked] in Hin. rewrite Hcalls in Hin.
      apply in_app_or in Hin. destruct Hin as [Hin|Hin]; [now left|right].
      apply in_app_or in Hin. destruct Hin as [Hin|[Hin|[]]].
      * apply calls_of_index in Hin. lia.
      * injection Hin as <- _. lia.
Qed.

Lemma C4_witness :
  globalConfig (w_before_send [append_message "1"; append_message "2"])
  = Some (merge_defaults (options "test-key" None None None None
            (Some (CallbackArray [append_message "1"; append_message "2"])) None None))
  /\ exists w',
       applyBeforeSend (plain_event "msg") (w_before_send [append_message "1"; append_message "2"])
       = (Ok (Some (plain_event "msg12")), w').
Proof.
  split; [reflexivity|].
  destruct (C4_applyBeforeSend_folds_left
              (w_before_send [append_message "1"; append_message "2"])
              _ (plain_event "msg") eq_refl) as (_ & H & _).
  destruct (H _ eq_refl) as (w' & Hrun & _).
  exists w'. exact Hrun.
Defined.



(** ** Strings *)

Lemma prefix_iff (s1 s2 : string) :
  String.prefix s1 s2 = true <-> exists rest, s2 = (s1 ++ rest)%string.
Proof.
  revert s2. induction s1 as [|a s1 IH]; intros s2; destruct s2 as [|b s2];
    cbn [String.prefix append].
  - split; [intros _; now exists "" | reflexivity].
  - split; [intros _; now exists (String b s2) | reflexivity].
  - split; [discriminate | intros [rest H]; discriminate].
  - destruct (ascii_dec a b) as [->|Hne].
    + rewrite IH. split; intros [rest H]; exists rest; congruence.
    + split; [discriminate | intros [rest H]; congruence].
Qed.

Lemma includes_iff (hay needle : string) :
  Str.includes hay needle = true
  <-> exists pre post, hay = (pre ++ needle ++ post)%string.
Proof.
  induction hay as [|c hay IH]; cbn [Str.includes].
  - destruct (String.prefix needle "") eqn:Ep.
    + split; [intros _|reflexivity]. apply prefix_iff in Ep. destruct Ep as [rest H].
      now exists "", rest.
    + split; [discriminate|]. intros (pre & post & H).
      destruct pre; [|discriminate]. cbn [append] in H.
      assert (String.prefix needle "" = true) by (apply prefix_iff; now exists post).
      congruence.
  - destruct (String.prefix needle (String c hay)) eqn:Ep.
    + split; [intros _|reflexivity]. apply prefix_iff in Ep. destruct Ep as [rest H].
      now exists "", rest.
    + rewrite IH. split.
      * intros (pre & post & H). exists (String c pre), post. cbn [append]. congruence.
      * intros (pre & post & H). destruct pre as [|c' pre].
        -- cbn [append] in H.
           assert (String.prefix needle (String c hay) = true)
             by (apply prefix_iff; now exists post).
           congruence.
        -- cbn [append] in H. injection H as _ H. now exists pre, post.
Qed.

Lemma append_length (a b : string) :
  String.length (a ++ b) = String.length a + String.length b.
Proof. induction a; cbn; congruence. Qed.

Lemma includes_length (hay needle : string) :
  Str.includes hay needle = true -> String.length needle <= String.length hay.
Proof.
  intros H. apply includes_iff in H. destruct H as (pre & post & ->).
  rewrite !append_length. lia.
Qed.

Lemma slice0_length (n : nat) (s : string) :
  String.length (Str.slice0 n s) <= n.
Proof.
  unfold Str.slice0. revert s. induction n as [|n IH]; intros s.
  - destruct s; cbn; lia.
  - destruct s as [|c s]; cbn; [lia|]. specialize (IH s). lia.
Qed.

Lemma slice0_short (n : nat) (s : string) :
  String.length s <= n -> Str.slice0 n s = s.
Proof.
  unfold Str.slice0. revert s. induction n as [|n IH]; intros s H.
  - destruct s; [reflexivity | cbn in H; lia].
  - destruct s as [|c s]; [reflexivity|]. cbn in *. rewrite IH; [reflexivity | lia].
Qed.

(** ** C6, C7: the matcher *)

Lemma route_rule_matches_iff route pattern :
  route_rule_matches route pattern = true
  <-> (exists s, pattern = RString s
                 /\ (route = s \/ exists rest, route = (s ++ rest)%string))
      \/ (exists re, pattern = RPattern re /\ RegExp.test re route = true).
Proof.
  destruct pattern as [s|re]; cbn [route_rule_matches].
  - rewrite orb_true_iff, String.eqb_eq. unfold Str.startsWith. rewrite prefix_iff.
    split.
    + intros H. left. exists s. now split.
    + intros [(s' & Hs & H)|(re & Hre & _)]; [|discriminate].
      injection Hs as <-. exact H.
  - split.
    + intros H. right. now exists re.
    + intros [(s' & Hs & _)|(re' & Hre & H)]; [discriminate|].
      now injection Hre as <-.
Qed.

(** C6. On a live configuration [shouldIgnoreRoute(path)] returns; it
    returns false when the list of ignored routes is absent or empty, and
    otherwise true exactly when some string rule equals [path] or is a
    prefix of it, or some pattern rule tests true on [path].  With the
    rules [['/health']] both ['/health'] and ['/healthcheck'] are
    ignored. *)
Theorem C6_shouldIgnoreRoute_rules :
  forall (w : world) (cfg : CheckendNextConfig) (path : string),
    globalConfig w = Some cfg ->
    exists b : bool,
      shouldIgnoreRoute path w = (Ok b, w)
      /\ (rules_of (ignoredRoutes cfg) = [] -> b = false)
      /\ (b = true <->
          (exists s, In (RString s) (rules_of (ignoredRoutes cfg))
                     /\ (path = s \/ exists rest, path = (s ++ rest)%string))
          \/ (exists re, In (RPattern re) (rules_of (ignoredRoutes cfg))
                         /\ RegExp.test re path = true))
      /\ (ignoredRoutes cfg = Some [RString "/health"] ->
          path = "/health" \/ path = "/healthcheck" -> b = true).
Proof.
  intros w cfg path Hlive.
  exists (existsb (route_rule_matches path) (rules_of (ignoredRoutes cfg))).
  split; [|split; [|split]].
  - unfold shouldIgnoreRoute, bind, getConfig. rewrite Hlive.
    destruct (ignoredRoutes cfg) as [[|r rs]|]; reflexivity.
  - now intros ->.
  - rewrite existsb_exists. split.
    + intros (r & Hin & Hm). apply route_rule_matches_iff in Hm.
      destruct Hm as [(s & -> & H)|(re & -> & H)]; [left; now exists s | right; now exists re].
    + intros [(s & Hin & H)|(re & Hin & H)].
      * exists (RString s). split; [exact Hin|]. apply route_rule_matches_iff.
        left. now exists s.
      * exists (RPattern re). split; [exact Hin|]. apply route_rule_matches_iff.
        right. now exists re.
  - intros -> [-> | ->]; reflexivity.
Qed.

Lemma C6_witness :
  globalConfig (w_routes [RString "/health"])
  = Some (merge_defaults (options "test-key" (Some [RString "/health"]) None None None
                            None None None))
  /\ shouldIgnoreRoute "/healthcheck" (w_routes [RString "/health"])
     = (Ok true, w_routes [RString "/health"]).
Proof.
  split; [reflexivity|].
  destruct (C6_shouldIgnoreRoute_rules (w_routes [RString "/health"]) _ "/healthcheck"
              eq_refl) as (b & Hrun & _ & _ & Hex).
  rewrite Hrun. now rewrite (Hex eq_refl (or_intror eq_refl)).
Defined.

Lemma exception_rule_matches_iff error pattern :
  exception_rule_matches error (name error ++ ": " ++ err_message error) pattern = true
  <-> (exists s, pattern = RString s
                 /\ (name error = s
                     \/ exists pre post, err_message error = (pre ++ s ++ post)%string))
      \/ (exists re, pattern = RPattern re
                     /\ RegExp.test re (name error ++ ": " ++ err_message error) = true).
Proof.
  destruct pattern as [s|re]; cbn [exception_rule_matches].
  - rewrite orb_true_iff, String.eqb_eq, includes_iff. split.
    + intros H. left. exists s. now split.
    + intros [(s' & Hs & H)|(re & Hre & _)]; [|discriminate].
      injection Hs as <-. exact H.
  - split.
    + intros H. right. now exists re.
    + intros [(s' & Hs & _)|(re' & Hre & H)]; [discriminate|].
      now injection Hre as <-.
Qed.

(** C7. On a live configuration [shouldIgnoreException(error)] returns;
    it returns false when the list of ignored exceptions is absent or
    empty, and otherwise true exactly when some string rule equals the name
    of the error or occurs in its message, or some pattern rule tests true
    on ["{name}: {message}"].  With [['TypeError']] a [TypeError] is
    ignored; with [[/^Error: ECONNRE/]] an [Error] with message
    ['ECONNRESET'] is ignored and one with message ['Generic error'] is
    not. *)
Theorem C7_shouldIgnoreException_rules :
  forall (w : world) (cfg : CheckendNextConfig) (error : JsErrorObject),
    globalConfig w = Some cfg ->
    exists b : bool,
      shouldIgnoreException error w = (Ok b, w)
      /\ (rules_of (ignoredExceptions cfg) = [] -> b = false)
      /\ (b = true <->
          (exists s, In (RString s) (rules_of (ignoredExceptions cfg))
                     /\ (name error = s
                         \/ exists pre post,
                              err_message error = (pre ++ s ++ post)%string))
          \/ (exists re, In (RPattern re) (rules_of (ignoredExceptions cfg))
                         /\ RegExp.test re (name error ++ ": " ++ err_message error)
                            = true))
      /\ (ignoredExceptions cfg = Some [RString "TypeError"] ->
          name error = "TypeError" -> b = true)
      /\ (ignoredExceptions cfg = Some [RPattern re_econnre] ->
          name error = "Error" ->
          (err_message error = "ECONNRESET" -> b = true)
          /\ (err_message error = "Generic error" -> b = false)).
Proof.
  intros w cfg error Hlive.
  exists (existsb (exception_rule_matches error (name error ++ ": " ++ err_message error))
            (rules_of (ignoredExceptions cfg))).
  split; [|split; [|split; [|split]]].
  - unfold shouldIgnoreException, bind, getConfig. rewrite Hlive.
    destruct (ignoredExceptions cfg) as [[|r rs]|]; reflexivity.
  - now intros ->.
  - rewrite existsb_exists. split.
    + intros (r & Hin & Hm). apply exception_rule_matches_iff in Hm.
      destruct Hm as [(s & -> & H)|(re & -> & H)]; [left; now exists s | right; now exists re].
    + intros [(s & Hin & H)|(re & Hin & H)].
      * exists (RString s). split; [exact Hin|]. apply exception_rule_matches_iff.
        left. now exists s.
      * exists (RPattern re). split; [exact Hin|]. apply exception_rule_matches_iff.
        right. now exists re.
  - intros -> Hn. cbn [rules_of existsb exception_rule_matches]. rewrite Hn. reflexivity.
  - intros -> Hn. cbn [rules_of existsb exception_rule_matches]. rewrite Hn.
    split; intros ->; vm_compute; reflexivity.
Qed.

Lemma C7_witness :
  globalConfig (w_exceptions [RPattern re_econnre])
  = Some (merge_defaults (options "test-key" None (Some [RPattern re_econnre]) None None
                            None None None))
  /\ shouldIgnoreException error_econnreset (w_exceptions [RPattern re_econnre])
     = (Ok true, w_exceptions [RPattern re_econnre])
  /\ shouldIgnoreException error_generic (w_exceptions [RPattern re_econnre])
     = (Ok false, w_exceptions [RPattern re_econnre]).
Proof.
  split; [reflexivity|]. split.
  - destruct (C7_shouldIgnoreException_rules (w_exceptions [RPattern re_econnre]) _
                error_econnreset eq_refl) as (b & Hrun & _ & _ & _ & Hex).
    rewrite Hrun. destruct (Hex eq_refl eq_refl) as [Hyes _]. now rewrite (Hyes eq_refl).
  - destruct (C7_shouldIgnoreException_rules (w_exceptions [RPattern re_econnre]) _
                error_generic eq_refl) as (b & Hrun & _ & _ & _ & Hex).
    rewrite Hrun. destruct (Hex eq_refl eq_refl) as [_ Hno]. now rewrite (Hno eq_refl).
Defined.

(** ** C2: the line [init] writes *)

Lemma credential_shown (snk : sink) (cfg : CheckendNextConfig) :
  (11 < String.length (apiKey cfg) ->
   shows_credential (init_line snk cfg) (apiKey cfg) = false)
  /\ (String.length (apiKey cfg) <= 8 ->
      shows_credential (init_line snk cfg) (apiKey cfg) = true).
Proof.
  unfold shows_credential, init_line. cbn [le_args existsb with_apiKey apiKey].
  rewrite orb_false_r. split; intros Hlen.
  - destruct (Str.includes _ _) eqn:E; [|reflexivity].
    apply includes_length in E. rewrite append_length in E.
    pose proof (slice0_length 8 (apiKey cfg)). cbn [String.length] in E. lia.
  - rewrite slice0_short by exact Hlen. apply includes_iff. now exists "", "...".
Qed.

(** C2 (amended). For every non-empty [apiKey], [init] returns the merged
    configuration; it writes nothing when [debug] is off, and when [debug]
    is on it writes one debug-level line that echoes the merged
    configuration with the credential replaced by its first 8 characters
    followed by ['...'].  That field never contains a credential of more
    than 11 characters, and always contains one of at most 8 characters. *)
Theorem C2_init_echoes_truncated_credential :
  forall (w : world) (options : CheckendNextConfig),
    apiKey options <> "" ->
    exists w',
      init options w = (Ok (merge_defaults options), w')
      /\ (flag (debug (merge_defaults options)) = false -> output w' = output w)
      /\ (flag (debug (merge_defaults options)) = true ->
          exists snk,
            output w' = output w ++ [init_line snk (merge_defaults options)]
            /\ (11 < String.length (apiKey options) ->
                shows_credential (init_line snk (merge_defaults options)) (apiKey options)
                = false)
            /\ (String.length (apiKey options) <= 8 ->
                shows_credential (init_line snk (merge_defaults options)) (apiKey options)
                = true)).
Proof.
  intros w options Hkey.
  assert (Hne : String.eqb (apiKey options) "" = false) by now apply String.eqb_neq.
  unfold init. rewrite Hne.
  set (cfg := merge_defaults options).
  destruct (flag (debug cfg)) eqn:Hd.
  - unfold bind, modify, ret. rewrite log_trace.
    cbn [configuredLogger set_logger set_config].
    destruct (logger cfg) as [nm|] eqn:Hl.
    + eexists. split; [reflexivity|]. split; [discriminate|]. intros _.
      exists (Custom nm). split; [reflexivity | apply (credential_shown (Custom nm) cfg)].
    + eexists. split; [reflexivity|]. split; [discriminate|]. intros _.
      exists Console. split; [reflexivity | apply (credential_shown Console cfg)].
  - unfold bind, modify, ret. eexists. split; [reflexivity|].
    split; [reflexivity | discriminate].
Qed.

Lemma C2_witness :
  exists w' snk,
    init (options_debug "ck_live_0123456789abcdef") initial_world
    = (Ok (merge_defaults (options_debug "ck_live_0123456789abcdef")), w')
    /\ output w' = [init_line snk (merge_defaults (options_debug "ck_live_0123456789abcdef"))]
    /\ shows_credential
         (init_line snk (merge_defaults (options_debug "ck_live_0123456789abcdef")))
         "ck_live_0123456789abcdef" = false.
Proof.
  destruct (C2_init_echoes_truncated_credential initial_world
              (options_debug "ck_live_0123456789abcdef"))
    as (w' & Hrun & _ & Hon); [discriminate|].
  destruct (Hon eq_refl) as (snk & Hout & Hlong & _).
  exists w', snk. split; [exact Hrun|]. split; [exact Hout|].
  apply Hlong. cbn. lia.
Defined.

(** C2 as stated fails on a credential of at most 8 characters: after
    [init({ apiKey: 'test-key', debug: true })] the line written shows
    ['test-key...'], which contains the whole credential. *)
Lemma C2_counterexample :
  "test-key" <> ""
  /\ output (snd (init (options_debug "test-key") initial_world))
     = [init_line Console (merge_defaults (options_debug "test-key"))]
  /\ le_args (init_line Console (merge_defaults (options_debug "test-key")))
     = [ArgConfig (with_apiKey "test-key..." (merge_defaults (options_debug "test-key")))]
  /\ shows_credential (init_line Console (merge_defaults (options_debug "test-key")))
       "test-key" = true.
Proof. repeat split; discriminate || reflexivity. Qed.

(** ** C9: the stack-trace parser *)

Lemma parse_lines_flat_map lines : forall acc,
  parse_lines lines acc = acc ++ flat_map line_frames lines.
Proof.
  induction lines as [|line rest IH]; intros acc; cbn [parse_lines flat_map].
  - now rewrite app_nil_r.
  - unfold line_frames at 1. destruct (RegExp.exec stack_line_re line) as [[wh c]|].
    + rewrite IH. now rewrite <- app_assoc.
    + apply IH.
Qed.

(** C9. [parseStackTrace] returns the empty sequence for [undefined];
    for a (non-empty) trace it drops the first line and returns, in the
    order of the remaining lines, one frame for each line the pattern of the
    two shapes matches and none for a line it does not match.  The frame of
    a matched line has the method ['<anonymous>'] when the method group did
    not take part, and the number 0 when the digits do not parse.  A line
    ["at handler (/app/route.js:10:5)"] and a line ["at /app/server.js:7:1"]
    are matched, with the file, method and line number expected. *)
Theorem C9_parseStackTrace_frames :
  parseStackTrace None = []
  /\ (forall stack,
        stack <> "" ->
        parseStackTrace (Some stack) = flat_map line_frames (tl (Str.split_lines stack)))
  /\ (forall lines1 lines2,
        flat_map line_frames (lines1 ++ lines2)
        = flat_map line_frames lines1 ++ flat_map line_frames lines2)
  /\ (forall line,
        match RegExp.exec stack_line_re line with
        | Some (_, c) => line_frames line = [frame_of_match c]
        | None => line_frames line = []
        end)
  /\ (forall c, RegExp.capture 1 c = None -> method (frame_of_match c) = "<anonymous>")
  /\ (forall c digits,
        RegExp.capture 3 c = Some digits ->
        Str.parseInt digits = None ->
        number (frame_of_match c) = 0%Z)
  /\ line_frames "    at handler (/app/route.js:10:5)"
     = [mkFrame "/app/route.js" "handler" 10%Z]
  /\ line_frames "    at /app/server.js:7:1"
     = [mkFrame "/app/server.js" "<anonymous>" 7%Z]
  /\ line_frames "    (native code)" = []
  /\ parseStackTrace (Some stack_example)
     = [mkFrame "/app/route.js" "handler" 10%Z;
        mkFrame "/app/server.js" "<anonymous>" 7%Z].
Proof.
  repeat apply conj.
  - reflexivity.
  - intros stack Hne. unfold parseStackTrace.
    apply String.eqb_neq in Hne. rewrite Hne. apply parse_lines_flat_map.
  - intros lines1 lines2. apply flat_map_app.
  - intros line. unfold line_frames.
    destruct (RegExp.exec stack_line_re line) as [[wh c]|]; reflexivity.
  - intros c H. unfold frame_of_match. cbn [method]. now rewrite H.
  - intros c digits Hc Hp. unfold frame_of_match, parse_number. cbn [number].
    now rewrite Hc, Hp.
  - vm_compute. reflexivity.
  - vm_compute. reflexivity.
  - vm_compute. reflexivity.
  - vm_compute. reflexivity.
Qed.

(** ** C8: the captured notice *)

Lemma lookup_app k l1 l2 :
  lookup k (l1 ++ l2)
  = match lookup k l1 with Some v => Some v | None => lookup k l2 end.
Proof.
  induction l1 as [|[k' v'] t IH]; [reflexivity|].
  cbn [app lookup]. destruct (String.eqb k k'); [reflexivity | exact IH].
Qed.

Lemma lookup_prop k k' o :
  lookup k (prop k' o)
  = if String.eqb k k' then match o with Some v => jsonify v | None => None end
    else None.
Proof.
  unfold prop. destruct o as [v|]; [destruct (jsonify v) as [j|]|]; cbn [lookup];
    destruct (String.eqb k k'); reflexivity.
Qed.

Lemma jsonify_strings l :
  jsonify (VArray (map VString l)) = Some (VArray (map VString l)).
Proof.
  cbn [jsonify]. do 2 f_equal. rewrite map_map. apply map_ext. reflexivity.
Qed.

(** The fields [createMockFetch] reads back from the body [notify] sends. *)
Lemma payload_fields (n : EdgeNotice) :
  field (json_of_notice n) "error_class" = Some (VString (n_error_class n))
  /\ field (json_of_notice n) "message" = Some (VString (n_message n))
  /\ field (json_of_notice n) "tags" = Some (json_tags (n_tags n))
  /\ field (json_of_notice n) "fingerprint" = Some (json_opt_string (n_fingerprint n)).
Proof.
  unfold json_of_notice, field. repeat apply conj.
  - reflexivity.
  - reflexivity.
  - cbn [app lookup String.eqb Ascii.eqb Bool.eqb].
    rewrite !lookup_app, !lookup_prop. cbn [String.eqb Ascii.eqb Bool.eqb lookup].
    rewrite ?lookup_prop. cbn [String.eqb Ascii.eqb Bool.eqb].
    destruct (n_tags n) as [l|]; cbn [option_map json_tags].
    + now rewrite jsonify_strings.
    + reflexivity.
  - cbn [app lookup String.eqb Ascii.eqb Bool.eqb].
    rewrite !lookup_app, !lookup_prop. cbn [String.eqb Ascii.eqb Bool.eqb lookup].
    rewrite ?lookup_prop. cbn [String.eqb Ascii.eqb Bool.eqb].
    destruct (n_fingerprint n) as [s|]; reflexivity.
Qed.

Lemma decode_of_notice (n : EdgeNotice) now rt :
  exists c,
    decode_notice (json_of_notice n) now rt = Some c
    /\ cn_errorClass c
       = VString (if String.eqb (n_error_class n) "" then "Error" else n_error_class n)
    /\ cn_message c = VString (n_message n)
    /\ cn_tags c = json_tags (n_tags n)
    /\ cn_fingerprint c = json_opt_string (n_fingerprint n)
    /\ cn_runtime c = rt
    /\ cn_occurredAt c = now.
Proof.
  destruct (payload_fields n) as (He & Hm & Ht & Hf).
  unfold decode_notice. change (json_of_notice n) with (VObject
    ([("error_class", VString (n_error_class n)); ("message", VString (n_message n));
      ("backtrace", VArray (map json_frame (n_backtrace n)))]
       ++ prop "context" (n_context n) ++ prop "user" (n_user n)
       ++ prop "tags" (option_map (fun l => VArray (map VString l)) (n_tags n))
       ++ prop "fingerprint" (option_map VString (n_fingerprint n))
       ++ [("notifier", NOTIFIER)]
       ++ prop "request" (option_map json_request (n_request n)))) at 1.
  cbv beta iota. eexists. split; [reflexivity|].
  cbn [cn_errorClass cn_message cn_tags cn_fingerprint cn_runtime cn_occurredAt].
  rewrite He, Hm, Ht, Hf. repeat apply conj; try reflexivity.
  - unfold js_or at 2. cbn [truthy].
    destruct (String.eqb (n_error_class n) "") eqn:E; cbn [negb].
    + assert (Hno : field (json_of_notice n) "errorClass" = Some VUndefined).
      { unfold json_of_notice, field. cbn [app lookup String.eqb Ascii.eqb Bool.eqb].
        rewrite !lookup_app, !lookup_prop. cbn [String.eqb Ascii.eqb Bool.eqb lookup].
        rewrite ?lookup_prop. cbn [String.eqb Ascii.eqb Bool.eqb]. reflexivity. }
      rewrite Hno. reflexivity.
    + unfold js_or. cbn [truthy]. now rewrite E.
  - unfold js_or. cbn [truthy]. destruct (String.eqb (n_message n) "") eqn:E; [|reflexivity].
    apply String.eqb_eq in E. now rewrite E.
Qed.

Lemma ingest_url_intercepted endpoint :
  Str.includes (endpoint ++ "/ingest/v1/errors") "/ingest/" = true.
Proof. apply includes_iff. now exists endpoint, "v1/errors". Qed.

(** The request of [notify] under the interceptor: the notice decoded from
    its body is added to the store. *)
Lemma mock_fetch_ingest cfg notice endpoint w :
  exists c,
    mock_fetch (endpoint ++ "/ingest/v1/errors") (ingest_init cfg notice) w
    = (Ok 201%Z, set_notices (capturedNotices w ++ [c]) w)
    /\ cn_errorClass c
       = VString (if String.eqb (n_error_class notice) "" then "Error"
                  else n_error_class notice)
    /\ cn_message c = VString (n_message notice)
    /\ cn_tags c = json_tags (n_tags notice)
    /\ cn_fingerprint c = json_opt_string (n_fingerprint notice)
    /\ cn_runtime c
       = (if hasWindow w then Client
          else if Str.includes (endpoint ++ "/ingest/v1/errors") "edge" then Edge
          else Server)
    /\ cn_occurredAt c = clock w.
Proof.
  destruct (decode_of_notice notice (clock w)
              (if hasWindow w then Client
               else if Str.includes (endpoint ++ "/ingest/v1/errors") "edge" then Edge
               else Server)) as (c & Hdec & Hc).
  exists c. split; [|exact Hc].
  unfold mock_fetch. rewrite ingest_url_intercepted. cbn [orb].
  unfold bind, ret. cbn [ingest_init init_body init_headers headers_toString].
  change (Obj.has "toString" _) with false. cbv iota.
  change (Str.includes "[object Object]" "edge") with false. cbv iota.
  destruct (hasWindow w); [now rewrite Hdec|].
  destruct (Str.includes (endpoint ++ "/ingest/v1/errors") "edge"); now rewrite Hdec.
Qed.

(** C8 (amended). While the capture harness is active, every error that
    [notify] sends (not ignored, the edge runtime enabled, not dropped by
    [beforeSend]) leaves exactly one more captured notice, whose [message],
    [tags] and [fingerprint] are those of the event built from the error
    and the options; its [errorClass] is that of the event when this is not
    the empty string, and ['Error'] when it is. *)
Theorem C8_captured_notice_reproduces_event :
  forall (w : world) (cfg : CheckendNextConfig) (error : JsErrorObject)
         (options : NotifyOptions),
    active w cfg ->
    shouldIgnoreException error w = (Ok false, w) ->
    flag (enableEdge cfg) = true ->
    (forall bs, beforeSend cfg = Some bs ->
                fold_callbacks (callbacks_of bs)
                  (Some (event_of_notice (build_notice error options cfg))) <> None) ->
    exists w' c,
      notify error options w = (Ok tt, w')
      /\ capturedNotices w' = capturedNotices w ++ [c]
      /\ (errorClass (event_of_notice (build_notice error options cfg)) <> "" ->
          cn_errorClass c
          = VString (errorClass (event_of_notice (build_notice error options cfg))))
      /\ (errorClass (event_of_notice (build_notice error options cfg)) = "" ->
          cn_errorClass c = VString "Error")
      /\ cn_message c
         = VString (message (event_of_notice (build_notice error options cfg)))
      /\ cn_tags c = json_tags (tags (event_of_notice (build_notice error options cfg)))
      /\ cn_fingerprint c
         = json_opt_string (fingerprint (event_of_notice (build_notice error options cfg))).
Proof.
  intros w cfg error options (Hmode & Hfetch & Hlive) Hign Hedge Hsend.
  set (notice := build_notice error options cfg) in *.
  (* the world in which [fetch] is called *)
  assert (Hpre : exists es cs,
             (dropped <-
                match beforeSend cfg with
                | Some _ =>
                    res <- applyBeforeSend (event_of_notice notice) ;;
                    match res with
                    | None =>
                        when (flag (debug cfg))
                          (console Log "[Checkend] Edge: beforeSend returned null, skipping" []) ;;
                        ret true
                    | Some _ => ret false
                    end
                | None => ret false
                end ;; ret dropped)%comp w = (Ok false, add_trace es cs w)).
  { destruct (beforeSend cfg) as [bs|] eqn:Hbs.
    - unfold bind. rewrite (applyBeforeSend_trace w cfg bs _ Hlive Hbs).
      specialize (Hsend bs eq_refl).
      destruct (fold_callbacks (callbacks_of bs) (Some (event_of_notice notice)));
        [|congruence].
      unfold ret. now do 2 eexists.
    - exists [], []. unfold bind, ret. now rewrite add_trace_nil. }
  destruct Hpre as (es & cs & Hpre).
  destruct (mock_fetch_ingest cfg notice (or_string (endpoint cfg) DEFAULT_ENDPOINT)
              (add_trace es cs w)) as (c & Hrun & Hclass & Hmsg & Htags & Hfp & _).
  exists (mkWorld (globalConfig w) (configuredLogger w) (capturedNotices w ++ [c])
            (isTestMode w) (originalFetch w) (fetch w) (hasWindow w) (clock w) (network w)
            (output w ++ es
               ++ (if flag (debug cfg)
                   then [mkEntry Console Log "[Checkend] Edge: sent notification, status:"
                           [ArgValue (VNumber 201%Z)]]
                   else []))
            (invoked w ++ cs) (sent w)), c.
  split; [|split; [reflexivity|]].
  - unfold notify. unfold bind at 1. unfold isInitialized. rewrite Hlive. cbn [negb].
    unfold bind at 1. rewrite Hign. cbn iota.
    unfold bind at 1. unfold getConfig at 1. rewrite Hlive. rewrite Hedge. cbn [negb].
    fold notice.
    unfold bind at 1. unfold bind in Hpre at 1.
    match type of Hpre with
    | match ?X with _ => _ end = _ => destruct X as [[d| |] w1] eqn:Hx
    end; try discriminate.
    unfold ret in Hpre. injection Hpre as -> ->. cbn iota.
    unfold try_catch, bind, call_fetch. cbn [add_trace fetch]. rewrite Hfetch.
    cbn [add_trace] in Hrun. rewrite Hrun.
    unfold ret, when.
    destruct (flag (debug cfg)); unfold console, modify, emit, set_notices; cbn;
      rewrite <- ?app_assoc, ?app_nil_r, ?Hlive, ?Hfetch; reflexivity.
  - change (errorClass (event_of_notice notice)) with (n_error_class notice).
    repeat apply conj.
    + intros Hne. apply String.eqb_neq in Hne. now rewrite Hne in Hclass.
    + intros He. rewrite He in Hclass. exact Hclass.
    + exact Hmsg.
    + exact Htags.
    + exact Hfp.
Qed.

Lemma C8_witness :
  active w_test (merge_defaults (test_config None))
  /\ exists w' c,
       notify error_validation options_tagged w_test = (Ok tt, w')
       /\ capturedNotices w' = [c]
       /\ cn_errorClass c = VString "ValidationError"
       /\ cn_message c = VString "Invalid input"
       /\ cn_tags c = VArray [VString "validation"]
       /\ cn_fingerprint c = VString "fp-1".
Proof.
  assert (Hact : active w_test (merge_defaults (test_config None)))
    by (repeat apply conj; reflexivity).
  split; [exact Hact|].
  destruct (C8_captured_notice_reproduces_event w_test (merge_defaults (test_config None))
              error_validation options_tagged Hact eq_refl eq_refl)
    as (w' & c & Hrun & Hcap & Hclass & _ & Hc).
  - intros bs Hbs. discriminate Hbs.
  - exists w', c. split; [exact Hrun|]. split; [exact Hcap|].
    split; [apply Hclass; discriminate | exact Hc].
Defined.

(** C8 as stated fails on an error whose name is the empty string: the
    interceptor reads an empty [error_class] as missing and captures the
    class ['Error']. *)
Lemma C8_counterexample :
  active w_test (merge_defaults (test_config None))
  /\ errorClass (event_of_notice
                   (build_notice error_no_name options_tagged
                      (merge_defaults (test_config None)))) = ""
  /\ fst (notify error_no_name options_tagged w_test) = Ok tt
  /\ map cn_errorClass (capturedNotices (snd (notify error_no_name options_tagged w_test)))
     = [VString "Error"].
Proof.
  split; [repeat apply conj; reflexivity|].
  split; [reflexivity|]. split; vm_compute; reflexivity.
Qed.

(** ** The tests of the repository, replayed on the embedding *)

(** The regular expression literals of the sources and of the tests lie
    in the fragment the parser covers. *)
Lemma literals_compile :
  (exists r, RegExp.compile STACK_LINE_SOURCE = RegExp.Compiled r
             /\ stack_line_re = RegExp.mk r false)
  /\ (exists r, RegExp.compile "^Error: ECONNRE" = RegExp.Compiled r
                /\ re_econnre = RegExp.mk r false)
  /\ (exists r, RegExp.compile "^\/api\/v\d+\/internal" = RegExp.Compiled r
                /\ re_api_internal = RegExp.mk r false).
Proof. repeat apply conj; eexists; split; vm_compute; reflexivity. Qed.

Example test_filters_sensitive_keys :
  fst (sanitize_default t_flat w_default)
  = Ok (VObject [("username", VString "john"); ("password", FILTERED);
                 ("email", VString "john@example.com")]).
Proof. vm_compute. reflexivity. Qed.

Example test_filters_nested_objects :
  fst (sanitize_default t_nested w_default)
  = Ok (VObject [("user", VObject [("name", VString "john"); ("apiKey", FILTERED)])]).
Proof. vm_compute. reflexivity. Qed.

Example test_filters_arrays :
  fst (sanitize_default t_array w_default)
  = Ok (VObject [("items",
                  VArray [VObject [("id", VNumber 1); ("token", FILTERED)];
                          VObject [("id", VNumber 2); ("token", FILTERED)]])]).
Proof. vm_compute. reflexivity. Qed.

Example test_handles_null_and_undefined :
  fst (sanitize_default t_nullish w_default) = Ok t_nullish.
Proof. vm_compute. reflexivity. Qed.

Example test_handles_max_depth :
  exists out,
    fst (sanitize_default (t_deep 15) w_default) = Ok out
    /\ at_path (repeat (Key "nested") 11) out = Some MAX_DEPTH.
Proof. eexists. split; vm_compute; reflexivity. Qed.

Example test_ignores_routes :
  fst (shouldIgnoreRoute "/health" (w_routes [RString "/health"; RString "/api/internal"]))
  = Ok true
  /\ fst (shouldIgnoreRoute "/api/internal/health" (w_routes [RString "/api/internal"]))
     = Ok true
  /\ fst (shouldIgnoreRoute "/api/users" (w_routes [RString "/health"; RString "/api/internal"]))
     = Ok false
  /\ fst (shouldIgnoreRoute "/api/v1/internal/health" (w_routes [RPattern re_api_internal]))
     = Ok true
  /\ fst (shouldIgnoreRoute "/api/v1/users" (w_routes [RPattern re_api_internal]))
     = Ok false
  /\ fst (shouldIgnoreRoute "/api/users" w_default) = Ok false.
Proof. repeat apply conj; vm_compute; reflexivity. Qed.

Example test_ignores_exceptions :
  fst (shouldIgnoreException type_error_bad (w_exceptions [RString "TypeError"])) = Ok true
  /\ fst (shouldIgnoreException (mkError "Error" "Request timeout after 30s" None)
            (w_exceptions [RString "ECONNRESET"; RString "timeout"])) = Ok true
  /\ fst (shouldIgnoreException error_generic
            (w_exceptions [RString "ECONNRESET"; RString "timeout"])) = Ok false
  /\ fst (shouldIgnoreException (mkError "Error" "ECONNREFUSED" None)
            (w_exceptions [RPattern re_econnre])) = Ok true.
Proof. repeat apply conj; vm_compute; reflexivity. Qed.

Example test_stops_processing_when_callback_returns_null :
  fst (applyBeforeSend (plain_event "test") (w_before_send [drop_event; drop_event]))
  = Ok None
  /\ invoked (snd (applyBeforeSend (plain_event "test")
                     (w_before_send [drop_event; drop_event])))
     = [(0, plain_event "test")].
Proof. split; vm_compute; reflexivity. Qed.

Example test_init_without_key_throws :
  fst (init (no_config "") initial_world) = Throw (JsError "Checkend: apiKey is required")
  /\ fst (getConfig initial_world)
     = Throw (JsError
                "Checkend not initialized. Call init() first, typically in instrumentation.ts").
Proof. split; reflexivity. Qed.

(* ================================================================== *)
(** * Further properties of the sources *)
(* ================================================================== *)

(** ** The configuration store *)

Lemma init_ok (w : world) (options : CheckendNextConfig) :
  apiKey options <> "" ->
  exists w1,
    init options w = (Ok (merge_defaults options), w1)
    /\ globalConfig w1 = Some (merge_defaults options)
    /\ configuredLogger w1
       = Some (match logger options with
               | Some nm => CustomLogger nm
               | None => DefaultLogger (flag (debug (merge_defaults options)))
               end)
    /\ capturedNotices w1 = capturedNotices w
    /\ isTestMode w1 = isTestMode w
    /\ fetch w1 = fetch w
    /\ originalFetch w1 = originalFetch w
    /\ sent w1 = sent w.
Proof.
  intros Hkey. apply String.eqb_neq in Hkey. unfold init. rewrite Hkey.
  unfold bind, modify, ret.
  destruct (flag (debug (merge_defaults options))); rewrite ?log_trace; eexists;
    (split; [reflexivity|]); repeat apply conj; reflexivity.
Qed.

(** X1. After [init] with a non-empty [apiKey], [getConfig] returns the
    merged configuration and [isInitialized] is true; an [init] without a
    key then throws and leaves that configuration live, a second [init]
    replaces it; after [reset], [getConfig] throws, [isInitialized] is false
    and a further [reset] changes nothing. *)
Theorem X1_configuration_lifecycle :
  forall (w : world) (options : CheckendNextConfig),
    apiKey options <> "" ->
    exists w1 w2,
      init options w = (Ok (merge_defaults options), w1)
      /\ getConfig w1 = (Ok (merge_defaults options), w1)
      /\ isInitialized w1 = (Ok true, w1)
      /\ (forall bad, apiKey bad = "" ->
            init bad w1 = (Throw (JsError "Checkend: apiKey is required"), w1))
      /\ (forall next, apiKey next <> "" ->
            fst (getConfig (snd (init next w1))) = Ok (merge_defaults next))
      /\ reset w1 = (Ok tt, w2)
      /\ getConfig w2 = (Throw NOT_INITIALIZED, w2)
      /\ isInitialized w2 = (Ok false, w2)
      /\ reset w2 = (Ok tt, w2).
Proof.
  intros w options Hkey.
  destruct (init_ok w options Hkey) as (w1 & Hinit & Hcfg & _).
  exists w1. eexists. split; [exact Hinit|].
  split; [unfold getConfig; now rewrite Hcfg|].
  split; [unfold isInitialized; now rewrite Hcfg|].
  split.
  { intros bad Hbad. unfold init. rewrite Hbad. reflexivity. }
  split.
  { intros next Hnext. destruct (init_ok w1 next Hnext) as (w' & Hi & Hc & _).
    rewrite Hi. cbn [snd]. unfold getConfig. now rewrite Hc. }
  split; [reflexivity|]. repeat apply conj; reflexivity.
Qed.

Lemma X1_witness :
  exists w1 w2,
    init (no_config "test-key") initial_world = (Ok (config_of_key "test-key"), w1)
    /\ getConfig w1 = (Ok (config_of_key "test-key"), w1)
    /\ reset w1 = (Ok tt, w2)
    /\ getConfig w2 = (Throw NOT_INITIALIZED, w2).
Proof.
  destruct (X1_configuration_lifecycle initial_world (no_config "test-key"))
    as (w1 & w2 & H1 & H2 & _ & _ & _ & H3 & H4 & _); [discriminate|].
  exists w1, w2. repeat apply conj; assumption.
Defined.

Lemma or_default_idem {A} (o : option A) (d : A) :
  or_default (or_default o d) d = or_default o d.
Proof. now destruct o. Qed.

(** X2. Merging the defaults is idempotent and keeps the key, so that
    initialising again with the configuration [init] returned is the same
    as the first initialisation; a supplied option is never replaced by a
    default, and an absent one gets the documented default. *)
Theorem X2_defaults_merge_once :
  forall (options : CheckendNextConfig),
    merge_defaults (merge_defaults options) = merge_defaults options
    /\ apiKey (merge_defaults options) = apiKey options
    /\ (forall w, init (merge_defaults options) w = init options w)
    /\ (forall b, enableEdge options = Some b -> enableEdge (merge_defaults options) = Some b)
    /\ (forall b, debug options = Some b -> debug (merge_defaults options) = Some b)
    /\ (forall b, useDefaultFilterKeys options = Some b ->
                  useDefaultFilterKeys (merge_defaults options) = Some b)
    /\ (forall n, timeout options = Some n -> timeout (merge_defaults options) = Some n)
    /\ merge_defaults (no_config (apiKey options))
       = mkConfig (apiKey options) None None None None (Some true) (Some true) (Some true)
           None None None (Some true) None (Some false) None
           (Some 30000%Z) (Some 10000%Z) (Some 1000%Z) (Some 5000%Z).
Proof.
  intros options.
  assert (Hidem : merge_defaults (merge_defaults options) = merge_defaults options).
  { unfold merge_defaults. cbn. now rewrite !or_default_idem. }
  split; [exact Hidem|]. split; [reflexivity|]. split.
  { intros w. unfold init. rewrite Hidem. reflexivity. }
  repeat apply conj; try reflexivity;
    intros x Hx; unfold merge_defaults; cbn; now rewrite Hx.
Qed.

(** X3. After [init], [log] at the levels info, warn and error writes
    exactly one entry, prefixed with ['[Checkend] '], to the user's logger
    when one was given and to the console otherwise; at the level debug the
    default logger writes only when [debug] is on; after [reset] (or
    before any [init]) [log] writes nothing and returns. *)
Theorem X3_log_routes_to_the_configured_logger :
  forall (w : world) (options : CheckendNextConfig) (msg : string) (args : list log_arg),
    apiKey options <> "" ->
    exists w1,
      init options w = (Ok (merge_defaults options), w1)
      /\ (forall lv, lv = Info \/ lv = Warn \/ lv = Error ->
            log lv msg args w1
            = (Ok tt,
               emit (mkEntry (match logger options with
                              | Some nm => Custom nm
                              | None => Console
                              end) lv ("[Checkend] " ++ msg) args) w1))
      /\ (logger options = None ->
          log Debug msg args w1
          = (Ok tt,
             if flag (debug (merge_defaults options))
             then emit (mkEntry Console Debug ("[Checkend] " ++ msg) args) w1
             else w1))
      /\ (forall nm, logger options = Some nm ->
            log Debug msg args w1
            = (Ok tt, emit (mkEntry (Custom nm) Debug ("[Checkend] " ++ msg) args) w1))
      /\ (forall lv, log lv msg args (snd (reset w1)) = (Ok tt, snd (reset w1))).
Proof.
  intros w options msg args Hkey.
  destruct (init_ok w options Hkey) as (w1 & Hinit & _ & Hlog & _).
  exists w1. split; [exact Hinit|]. repeat apply conj.
  - intros lv Hlv. unfold log. rewrite Hlog.
    destruct (logger options); destruct Hlv as [-> | [-> | ->]]; reflexivity.
  - intros Hnone. unfold log. rewrite Hlog, Hnone. cbn [call_logger].
    destruct (flag (debug (merge_defaults options))); reflexivity.
  - intros nm Hnm. unfold log. rewrite Hlog, Hnm. reflexivity.
  - intros lv. reflexivity.
Qed.

Lemma X3_witness :
  exists w1,
    init (no_config "test-key") initial_world = (Ok (config_of_key "test-key"), w1)
    /\ output (snd (log Warn "careful" [] w1))
       = [mkEntry Console Warn "[Checkend] careful" []]
    /\ output (snd (log Debug "quiet" [] w1)) = [].
Proof.
  destruct (X3_log_routes_to_the_configured_logger initial_world (no_config "test-key")
              "careful" []) as (w1 & Hinit & Hlv & _); [discriminate|].
  destruct (X3_log_routes_to_the_configured_logger initial_world (no_config "test-key")
              "quiet" []) as (w1' & Hinit' & _ & Hdbg & _); [discriminate|].
  assert (w1' = w1) by congruence. subst w1'.
  exists w1. split; [exact Hinit|]. split.
  - rewrite (Hlv Warn (or_intror (or_introl eq_refl))). cbn [snd emit output].
    injection Hinit as <-. reflexivity.
  - rewrite (Hdbg eq_refl). cbn [snd]. injection Hinit as <-. reflexivity.
Defined.

(** X4. With no live configuration every function that reads it throws
    the same error and changes nothing: [getConfig], [getFilterKeys],
    [sanitize], [shouldIgnoreRoute], [shouldIgnoreException] and
    [applyBeforeSend]; [isInitialized] alone answers, with false. *)
Theorem X4_reads_before_init_throw :
  forall (w : world),
    globalConfig w = None ->
    getConfig w = (Throw NOT_INITIALIZED, w)
    /\ getFilterKeys w = (Throw NOT_INITIALIZED, w)
    /\ (forall data maxDepth, sanitize data maxDepth w = (Throw NOT_INITIALIZED, w))
    /\ (forall route, shouldIgnoreRoute route w = (Throw NOT_INITIALIZED, w))
    /\ (forall error, shouldIgnoreException error w = (Throw NOT_INITIALIZED, w))
    /\ (forall event, applyBeforeSend event w = (Throw NOT_INITIALIZED, w))
    /\ isInitialized w = (Ok false, w).
Proof.
  intros w H.
  assert (Hg : getConfig w = (Throw NOT_INITIALIZED, w))
    by (unfold getConfig; now rewrite H).
  repeat apply conj; intros;
    unfold getFilterKeys, sanitize, getFilterKeys, shouldIgnoreRoute,
      shouldIgnoreException, applyBeforeSend, isInitialized, bind;
    rewrite ?Hg, ?H; reflexivity.
Qed.

Lemma X4_witness :
  globalConfig initial_world = None
  /\ sanitize t_flat 10%Z initial_world = (Throw NOT_INITIALIZED, initial_world)
  /\ shouldIgnoreRoute "/health" initial_world = (Throw NOT_INITIALIZED, initial_world).
Proof.
  split; [reflexivity|].
  destruct (X4_reads_before_init_throw initial_world eq_refl) as (_ & _ & Hs & Hr & _).
  split; [apply Hs | apply Hr].
Defined.

(** ** The filter keys *)

Lemma uniq_from_in seen l x :
  In x (uniq_from seen l) <-> In x l /\ ~ In x seen.
Proof.
  revert seen. induction l as [|y t IH]; intros seen; cbn [uniq_from].
  - split; [contradiction | intros [[] _]].
  - destruct (existsb (String.eqb y) seen) eqn:E.
    + apply existsb_exists in E. destruct E as (z & Hz & Hyz).
      apply String.eqb_eq in Hyz. subst z.
      rewrite IH. cbn [In]. split.
      * intros [H1 H2]. split; [now right | exact H2].
      * intros [[->|H1] H2]; [contradiction | now split].
    + assert (Hy : ~ In y seen).
      { intros Hin. assert (existsb (String.eqb y) seen = true).
        { apply existsb_exists. exists y. split; [exact Hin | apply String.eqb_refl]. }
        congruence. }
      cbn [In]. rewrite IH. cbn [In]. split.
      * intros [<-|[H1 H2]]; [split; [now left | exact Hy]|].
        split; [now right | intros Hn; apply H2; now right].
      * intros [[<-|H1] H2]; [now left|].
        destruct (string_dec y x) as [->|Hne]; [now left|].
        right. split; [exact H1|]. intros [Heq|Hin]; [congruence | contradiction].
Qed.

Lemma uniq_from_nodup seen l : NoDup (uniq_from seen l).
Proof.
  revert seen. induction l as [|y t IH]; intros seen; cbn [uniq_from]; [constructor|].
  destruct (existsb (String.eqb y) seen); [apply IH|].
  constructor; [|apply IH]. rewrite uniq_from_in. intros [_ H]. apply H. now left.
Qed.

Lemma uniq_from_ext s1 s2 l :
  (forall x, In x s1 <-> In x s2) -> uniq_from s1 l = uniq_from s2 l.
Proof.
  revert s1 s2. induction l as [|y t IH]; intros s1 s2 H; [reflexivity|].
  cbn [uniq_from].
  assert (E : existsb (String.eqb y) s1 = existsb (String.eqb y) s2).
  { apply eq_true_iff_eq. rewrite !existsb_exists.
    split; intros (z & Hz & Hyz); exists z; (split; [now apply H | exact Hyz]). }
  rewrite E. destruct (existsb (String.eqb y) s2).
  - now apply IH.
  - f_equal. apply IH. intros x. cbn [In]. now rewrite H.
Qed.

Lemma uniq_from_app l1 : forall seen l2,
  uniq_from seen (l1 ++ l2) = uniq_from seen l1 ++ uniq_from (l1 ++ seen) l2.
Proof.
  induction l1 as [|y t IH]; intros seen l2; [reflexivity|].
  cbn [app uniq_from]. destruct (existsb (String.eqb y) seen) eqn:E.
  - rewrite IH. f_equal. apply uniq_from_ext. intros x.
    apply existsb_exists in E. destruct E as (z & Hz & Hyz).
    apply String.eqb_eq in Hyz. subst z. cbn [app In]. rewrite !in_app_iff.
    split; [tauto|]. intros [<-|H]; tauto.
  - cbn [app]. f_equal. rewrite IH. f_equal. apply uniq_from_ext.
    intros x. cbn [app In]. rewrite !in_app_iff. cbn [In]. tauto.
Qed.

(** X5. On a live configuration with the default keys in use,
    [getFilterKeys] returns a list without duplicates that holds exactly
    the default keys and the custom keys: the default keys first, in their
    order, then the custom keys that are new, in the order of their first
    occurrence.  With the default keys switched off it returns the custom
    keys as they were given. *)
Theorem X5_getFilterKeys_union :
  forall (w : world) (cfg : CheckendNextConfig),
    globalConfig w = Some cfg ->
    exists keys,
      getFilterKeys w = (Ok keys, w)
      /\ (useDefaultFilterKeys cfg = Some false -> keys = custom_keys cfg)
      /\ (useDefaultFilterKeys cfg <> Some false ->
          NoDup keys
          /\ (forall k, In k keys <-> In k DEFAULT_FILTER_KEYS \/ In k (custom_keys cfg))
          /\ keys = DEFAULT_FILTER_KEYS ++ uniq_from DEFAULT_FILTER_KEYS (custom_keys cfg)).
Proof.
  intros w cfg Hlive. exists (effective_keys cfg).
  split; [exact (getFilterKeys_live w cfg Hlive)|].
  unfold effective_keys. fold (custom_keys cfg). split.
  - now intros ->.
  - intros Hne.
    assert (Heq : match useDefaultFilterKeys cfg with
                  | Some false => custom_keys cfg
                  | _ => uniq_from [] (DEFAULT_FILTER_KEYS ++ custom_keys cfg)
                  end = uniq_from [] (DEFAULT_FILTER_KEYS ++ custom_keys cfg)).
    { destruct (useDefaultFilterKeys cfg) as [[|]|]; congruence. }
    rewrite Heq. split; [apply uniq_from_nodup|]. split.
    + intros k. rewrite uniq_from_in, in_app_iff. cbn [In]. tauto.
    + rewrite uniq_from_app, app_nil_r. f_equal; vm_compute; reflexivity.
Qed.

Lemma X5_witness :
  exists keys,
    getFilterKeys
      (world_after_init (options "test-key" None None
                           (Some ["customSecret"; "password"; "customSecret"]) None None None None))
    = (Ok keys,
       world_after_init (options "test-key" None None
                           (Some ["customSecret"; "password"; "customSecret"]) None None None None))
    /\ keys = DEFAULT_FILTER_KEYS ++ ["customSecret"].
Proof.
  destruct (X5_getFilterKeys_union
              (world_after_init (options "test-key" None None
                           (Some ["customSecret"; "password"; "customSecret"]) None None None None))
              _ eq_refl) as (keys & Hrun & _ & Hon).
  exists keys. split; [exact Hrun|].
  destruct Hon as (_ & _ & ->); [discriminate|]. vm_compute. reflexivity.
Defined.

(** ** The redactor, further *)

Lemma slice0_exact (n : nat) (s : string) :
  n <= String.length s -> String.length (Str.slice0 n s) = n.
Proof.
  unfold Str.slice0. revert s. induction n as [|n IH]; intros s H.
  - destruct s; reflexivity.
  - destruct s as [|c s]; cbn in *; [lia|]. rewrite IH; [reflexivity | lia].
Qed.

Lemma slice0_app (n : nat) (a b : string) :
  String.length a = n -> Str.slice0 n (a ++ b) = a.
Proof.
  unfold Str.slice0. revert a. induction n as [|n IH]; intros a H.
  - destruct a; [|discriminate]. cbn. destruct b; reflexivity.
  - destruct a as [|c a]; [discriminate|]. cbn in *. rewrite IH; [reflexivity | lia].
Qed.

Lemma truncate_short (s : string) :
  (Z.of_nat (String.length s) <= 10000)%Z -> truncate s = s.
Proof.
  intros H. unfold truncate.
  destruct (Z.ltb_spec 10000 (Z.of_nat (String.length s))); [lia | reflexivity].
Qed.

Lemma truncate_long (s : string) :
  (10000 < Z.of_nat (String.length s))%Z ->
  truncate s = (Str.slice0 (Z.to_nat 10000) s ++ "...[TRUNCATED]")%string
  /\ Z.of_nat (String.length (truncate s)) = 10014%Z.
Proof.
  intros H. unfold truncate.
  destruct (Z.ltb_spec 10000 (Z.of_nat (String.length s))); [|lia].
  split; [reflexivity|]. rewrite append_length.
  remember (Z.to_nat 10000) as n eqn:Hn.
  rewrite slice0_exact by lia.
  change (String.length "...[TRUNCATED]") with 14. lia.
Qed.

Lemma truncate_bound (s : string) :
  (Z.of_nat (String.length (truncate s)) <= 10014)%Z.
Proof.
  destruct (Z.ltb_spec 10000 (Z.of_nat (String.length s))) as [H|H].
  - destruct (truncate_long s H) as [_ ->]. lia.
  - rewrite truncate_short by exact H. lia.
Qed.

Lemma truncate_idem (s : string) : truncate (truncate s) = truncate s.
Proof.
  destruct (Z.ltb_spec 10000 (Z.of_nat (String.length s))) as [H|H].
  - destruct (truncate_long s H) as [Heq Hlen].
    destruct (truncate_long (truncate s)) as [Heq2 _]; [lia|].
    rewrite Heq2. rewrite Heq at 1. rewrite slice0_app; [symmetry; exact Heq|].
    remember (Z.to_nat 10000) as n eqn:Hn. apply slice0_exact. lia.
  - now rewrite !truncate_short by (rewrite ?truncate_short by exact H; exact H).
Qed.

Section RedactorFurther.
Variable p : RegExp.t.
Variable maxDepth : Z.

Local Abbreviation san := (sanitizeValue p maxDepth).

Lemma sanitize_idem v : forall depth, san (san v depth) depth = san v depth.
Proof.
  induction v as [ | | b | n | s | t | items IH | entries IH ] using value_induction;
    intros depth;
    destruct (Z.ltb_spec maxDepth depth) as [Hlt|Hge];
    try (rewrite !sanitize_beyond by exact Hlt; reflexivity);
    try (match goal with
         | |- sanitizeValue _ _ (sanitizeValue _ _ ?v _) _ = _ =>
             rewrite !(sanitize_scalar p maxDepth v depth Hge eq_refl)
         end; reflexivity).
  - rewrite !sanitize_string by exact Hge. now rewrite truncate_idem.
  - rewrite !sanitize_array by exact Hge. f_equal. rewrite map_map.
    apply map_ext_in. intros x Hx. rewrite Forall_forall in IH. now apply IH.
  - rewrite !sanitize_object by exact Hge. f_equal.
    set (out := Obj.assign (map (sanitized_entry p maxDepth depth) entries) []).
    assert (Hcan : Obj.canonical out) by (apply assign_canonical, canonical_nil).
    assert (Hfix : map (sanitized_entry p maxDepth depth) out = out).
    { rewrite <- (map_id out) at 2. apply map_ext_in. intros [k x] Hx.
      apply in_sanitized in Hx. destruct Hx as (v & Hv & ->).
      unfold sanitized_entry. cbn [fst snd].
      destruct (RegExp.test p k); [reflexivity|].
      f_equal. rewrite Forall_forall in IH. exact (IH (k, v) Hv (depth + 1)%Z). }
    rewrite Hfix. now apply assign_canonical_id.
Qed.

Lemma sanitize_redacted v : forall depth, redacted p (san v depth) = true.
Proof.
  induction v as [ | | b | n | s | t | items IH | entries IH ] using value_induction;
    intros depth;
    destruct (Z.ltb_spec maxDepth depth) as [Hlt|Hge];
    try (rewrite (sanitize_beyond p maxDepth _ depth Hlt); reflexivity);
    try (rewrite sanitize_scalar by (try exact Hge; reflexivity); reflexivity).
  - rewrite sanitize_string by exact Hge. reflexivity.
  - rewrite sanitize_array by exact Hge. cbn [redacted]. apply forallb_forall.
    intros y Hy. apply in_map_iff in Hy. destruct Hy as (x & <- & Hx).
    rewrite Forall_forall in IH. now apply IH.
  - rewrite sanitize_object by exact Hge. cbn [redacted]. apply forallb_forall.
    intros [k y] Hy. apply in_sanitized in Hy. destruct Hy as (x & Hx & ->).
    cbn [fst snd]. destruct (RegExp.test p k); [reflexivity|].
    rewrite Forall_forall in IH. exact (IH (k, x) Hx (depth + 1)%Z).
Qed.

Lemma sanitize_strings_within v : forall depth,
  strings_within 10014%Z (san v depth) = true.
Proof.
  induction v as [ | | b | n | s | t | items IH | entries IH ] using value_induction;
    intros depth;
    destruct (Z.ltb_spec maxDepth depth) as [Hlt|Hge];
    try (rewrite (sanitize_beyond p maxDepth _ depth Hlt); reflexivity);
    try (rewrite sanitize_scalar by (try exact Hge; reflexivity); reflexivity).
  - rewrite sanitize_string by exact Hge. cbn [strings_within].
    apply Z.leb_le. apply truncate_bound.
  - rewrite sanitize_array by exact Hge. cbn [strings_within]. apply forallb_forall.
    intros y Hy. apply in_map_iff in Hy. destruct Hy as (x & <- & Hx).
    rewrite Forall_forall in IH. now apply IH.
  - rewrite sanitize_object by exact Hge. cbn [strings_within]. apply forallb_forall.
    intros [k y] Hy. apply in_sanitized in Hy. destruct Hy as (x & Hx & ->).
    cbn [fst snd]. destruct (RegExp.test p k); [reflexivity|].
    rewrite Forall_forall in IH. exact (IH (k, x) Hx (depth + 1)%Z).
Qed.

End RedactorFurther.

Lemma sanitize_ok_inv w data maxDepth out w' :
  sanitize data maxDepth w = (Ok out, w') ->
  w' = w
  /\ exists cfg r,
       globalConfig w = Some cfg
       /\ filterPattern_of (effective_keys cfg) = RegExp.Compiled r
       /\ out = sanitizeValue (RegExp.mk r true) maxDepth data 0%Z.
Proof.
  intros H. destruct (globalConfig w) as [cfg|] eqn:Hlive.
  - unfold sanitize, bind in H. rewrite (getFilterKeys_live w cfg Hlive) in H.
    destruct (filterPattern_of (effective_keys cfg)) as [r| |] eqn:Hc;
      try discriminate.
    unfold ret in H. injection H as <- <-. split; [reflexivity|]. now exists cfg, r.
  - unfold sanitize, getFilterKeys, bind, getConfig in H. rewrite Hlive in H.
    discriminate.
Qed.

(** X6. [sanitize] is idempotent: sanitizing what [sanitize] returned,
    under the same configuration and [maxDepth], returns it unchanged (the
    walk at any depth is idempotent, truncation included). *)
Theorem X6_sanitize_idempotent :
  forall (w w' : world) (data out : value) (maxDepth : Z),
    sanitize data maxDepth w = (Ok out, w') ->
    sanitize out maxDepth w = (Ok out, w)
    /\ (forall p v depth,
          sanitizeValue p maxDepth (sanitizeValue p maxDepth v depth) depth
          = sanitizeValue p maxDepth v depth).
Proof.
  intros w w' data out maxDepth H.
  destruct (sanitize_ok_inv _ _ _ _ _ H) as (-> & cfg & r & Hlive & Hc & ->).
  split; [|intros p v depth; apply sanitize_idem].
  rewrite (sanitize_live w cfg r _ maxDepth Hlive Hc). now rewrite sanitize_idem.
Qed.

Lemma X6_witness :
  exists out,
    sanitize t_array 10%Z w_default = (Ok out, w_default)
    /\ sanitize out 10%Z w_default = (Ok out, w_default).
Proof.
  assert (H : sanitize t_array 10%Z w_default
              = (Ok (VObject [("items",
                       VArray [VObject [("id", VNumber 1); ("token", FILTERED)];
                               VObject [("id", VNumber 2); ("token", FILTERED)]])]),
                 w_default)) by (vm_compute; reflexivity).
  eexists. split; [exact H|].
  exact (proj1 (X6_sanitize_idempotent _ _ _ _ _ H)).
Defined.

(** X7. Whatever the input, the value [sanitize] returns holds nothing
    but ['[FILTERED]'] under a property name its filter pattern matches, at
    any depth of the result. *)
Theorem X7_sanitize_output_is_redacted :
  forall (w w' : world) (data out : value) (maxDepth : Z),
    sanitize data maxDepth w = (Ok out, w') ->
    exists cfg r,
      globalConfig w = Some cfg
      /\ filterPattern_of (effective_keys cfg) = RegExp.Compiled r
      /\ redacted (RegExp.mk r true) out = true.
Proof.
  intros w w' data out maxDepth H.
  destruct (sanitize_ok_inv _ _ _ _ _ H) as (-> & cfg & r & Hlive & Hc & ->).
  exists cfg, r. repeat split; try assumption. apply sanitize_redacted.
Qed.

Lemma X7_witness :
  exists out r,
    sanitize t_nested 10%Z w_default = (Ok out, w_default)
    /\ filterPattern_of (effective_keys (config_of_key "test-key")) = RegExp.Compiled r
    /\ redacted (RegExp.mk r true) out = true.
Proof.
  assert (H : sanitize t_nested 10%Z w_default
              = (Ok (VObject [("user", VObject [("name", VString "john");
                                                ("apiKey", FILTERED)])]), w_default))
    by (vm_compute; reflexivity).
  destruct (X7_sanitize_output_is_redacted _ _ _ _ _ H) as (cfg & r & Hlive & Hc & Hr).
  assert (cfg = config_of_key "test-key") by (cbv in Hlive; now injection Hlive as <-).
  subst cfg. eexists. exists r. split; [exact H|]. split; assumption.
Defined.

(** X8. A string of at most 10000 characters is left as it is and a
    longer one becomes its first 10000 characters followed by
    ['...[TRUNCATED]'], 10014 characters in all; hence no string value in
    what [sanitize] returns is longer than 10014 characters. *)
Theorem X8_sanitize_bounds_strings :
  (forall s, (Z.of_nat (String.length s) <= 10000)%Z -> truncate s = s)
  /\ (forall s, (10000 < Z.of_nat (String.length s))%Z ->
        truncate s = (Str.slice0 (Z.to_nat 10000) s ++ "...[TRUNCATED]")%string
        /\ Z.of_nat (String.length (truncate s)) = 10014%Z)
  /\ (forall w w' data out maxDepth,
        sanitize data maxDepth w = (Ok out, w') ->
        strings_within 10014%Z out = true).
Proof.
  split; [exact truncate_short|]. split; [exact truncate_long|].
  intros w w' data out maxDepth H.
  destruct (sanitize_ok_inv _ _ _ _ _ H) as (-> & cfg & r & Hlive & Hc & ->).
  apply sanitize_strings_within.
Qed.

(** ** Matching a property name against plain filter keys *)

Lemma existsb_ext {A} (f g : A -> bool) (l : list A) :
  (forall x, f x = g x) -> existsb f l = existsb g l.
Proof. intros H. induction l; cbn; [reflexivity | now rewrite H, IHl]. Qed.

Lemma existsb_orb {A} (f g : A -> bool) (l : list A) :
  existsb (fun x => f x || g x) l = existsb f l || existsb g l.
Proof.
  induction l as [|a l IH]; cbn [existsb]; [reflexivity|]. rewrite IH.
  destruct (f a), (g a), (existsb f l), (existsb g l); reflexivity.
Qed.

Section PlainMatching.
Import RegExp.
Variable ic : bool.
Variable n : nat.

Lemma m_lit_prefix l : forall s c k,
  m ic n (mkSeq (map Chr l)) s c k
  = if prefix_ci ic l s then k (skipn (length l) s) c else None.
Proof.
  induction l as [|a l IH]; intros s c k; [reflexivity|].
  cbn [map]. rewrite mkSeq_cons. cbn [m prefix_ci length].
  destruct s as [|x s]; [reflexivity|].
  destruct (chr_eq ic a x); [|reflexivity]. cbn [andb skipn]. apply IH.
Qed.

Lemma m_alt_of_lits keys : forall s c k,
  keys <> [] ->
  (forall s' c', is_some (k s' c') = true) ->
  is_some (m ic n (mkAlt (map lit keys)) s c k)
  = existsb (fun key => prefix_ci ic (Str.chars key) s) keys.
Proof.
  induction keys as [|k0 ks IH]; intros s c k Hne Hk; [congruence|].
  destruct ks as [|k1 ks'].
  - cbn [map mkAlt existsb]. rewrite orb_false_r. unfold lit. rewrite m_lit_prefix.
    destruct (prefix_ci ic (Str.chars k0) s); [apply Hk | reflexivity].
  - change (mkAlt (map lit (k0 :: k1 :: ks')))
      with (Alt (lit k0) (mkAlt (map lit (k1 :: ks')))).
    cbn [m existsb]. unfold orElse. unfold lit at 1. rewrite m_lit_prefix.
    destruct (prefix_ci ic (Str.chars k0) s).
    + specialize (Hk (skipn (length (Str.chars k0)) s) c).
      destruct (k _ c); [reflexivity | discriminate].
    + cbn [orb]. apply IH; [discriminate | exact Hk].
Qed.

Lemma is_some_match_at r s :
  is_some (match_at ic n r s) = is_some (m ic n r s [] (fun s' c' => Some (s', c'))).
Proof. unfold match_at. now destruct (m ic n r s [] _) as [[s' c']|]. Qed.

Lemma is_some_scan r s :
  is_some (scan ic n r s)
  = is_some (match_at ic n r s)
    || match s with [] => false | _ :: t => is_some (scan ic n r t) end.
Proof.
  destruct s as [|x s]; cbn [scan]; destruct (match_at ic n r _); cbn [is_some orb];
    reflexivity.
Qed.

Lemma includes_ci_unfold hay needle :
  includes_ci ic hay needle
  = prefix_ci ic needle hay
    || match hay with [] => false | _ :: t => includes_ci ic t needle end.
Proof.
  destruct hay; cbn [includes_ci]; destruct (prefix_ci ic needle _); reflexivity.
Qed.

Lemma scan_alt_of_lits keys s :
  keys <> [] ->
  is_some (scan ic n (mkAlt (map lit keys)) s)
  = existsb (fun key => includes_ci ic s (Str.chars key)) keys.
Proof.
  intros Hne. induction s as [|x s IH]; rewrite is_some_scan, is_some_match_at,
    (m_alt_of_lits keys _ [] (fun s' c' => Some (s', c')) Hne (fun _ _ => eq_refl)).
  - rewrite orb_false_r. apply existsb_ext. intros key.
    now rewrite includes_ci_unfold, orb_false_r.
  - rewrite IH, <- existsb_orb. apply existsb_ext. intros key.
    now rewrite (includes_ci_unfold (x :: s)).
Qed.

End PlainMatching.

Lemma prefix_ci_iff ic needle hay :
  prefix_ci ic needle hay = true
  <-> exists mid post,
        hay = mid ++ post
        /\ Forall2 (fun a x => RegExp.chr_eq ic a x = true) needle mid.
Proof.
  revert hay. induction needle as [|a needle IH]; intros hay; cbn [prefix_ci].
  - split; [intros _; exists [], hay; split; [reflexivity | constructor] | reflexivity].
  - destruct hay as [|x hay].
    + split; [discriminate|]. intros (mid & post & H & HF). inversion HF; subst.
      discriminate.
    + rewrite andb_true_iff, IH. split.
      * intros (Hax & mid & post & -> & HF). exists (x :: mid), post.
        split; [reflexivity | now constructor].
      * intros (mid & post & H & HF). inversion HF as [|a' x' l l' Hax HF']; subst.
        injection H as -> ->. split; [exact Hax | now exists l', post].
Qed.

Lemma includes_ci_iff ic hay needle :
  includes_ci ic hay needle = true
  <-> exists pre mid post,
        hay = pre ++ mid ++ post
        /\ Forall2 (fun a x => RegExp.chr_eq ic a x = true) needle mid.
Proof.
  induction hay as [|x hay IH]; rewrite includes_ci_unfold, orb_true_iff, prefix_ci_iff.
  - split.
    + intros [(mid & post & H & HF)|H]; [now exists [], mid, post | discriminate].
    + intros (pre & mid & post & H & HF). left.
      destruct pre; [now exists mid, post | discriminate].
  - rewrite IH. split.
    + intros [(mid & post & H & HF)|(pre & mid & post & H & HF)].
      * now exists [], mid, post.
      * exists (x :: pre), mid, post. split; [now rewrite H | exact HF].
    + intros (pre & mid & post & H & HF). destruct pre as [|y pre].
      * left. now exists mid, post.
      * right. injection H as _ H. now exists pre, mid, post.
Qed.

(** X9. The filter pattern compiled from plain keys matches a property
    name exactly when the name contains one of the keys as a substring, up
    to the case folding of the [i] flag; so [sanitize] replaces the value
    of such a property of its argument, and of no other, with
    ['[FILTERED]'].  The exception is a property ['__proto__'], which the
    result does not have.  (The property names of an object are
    distinct.) *)
Theorem X9_filter_keys_match_as_substrings :
  forall (w : world) (cfg : CheckendNextConfig),
    globalConfig w = Some cfg ->
    forallb plain_key (effective_keys cfg) = true ->
    effective_keys cfg <> [] ->
    exists r,
      filterPattern_of (effective_keys cfg) = RegExp.Compiled r
      /\ (forall name,
            RegExp.test (RegExp.mk r true) name
            = existsb (fun key => includes_ci true (Str.chars name) (Str.chars key))
                (effective_keys cfg))
      /\ (forall name,
            RegExp.test (RegExp.mk r true) name = true
            <-> exists key pre mid post,
                  In key (effective_keys cfg)
                  /\ Str.chars name = pre ++ mid ++ post
                  /\ Forall2 (fun a x => RegExp.chr_eq true a x = true)
                       (Str.chars key) mid)
      /\ (forall entries name val maxDepth,
            (0 <= maxDepth)%Z ->
            NoDup (map fst entries) ->
            name <> "__proto__" ->
            lookup name entries = Some val ->
            exists out,
              sanitize (VObject entries) maxDepth w = (Ok (VObject out), w)
              /\ lookup name out
                 = Some (if existsb (fun key => includes_ci true (Str.chars name)
                                                  (Str.chars key)) (effective_keys cfg)
                         then FILTERED
                         else sanitizeValue (RegExp.mk r true) maxDepth val 1%Z)
              /\ lookup "__proto__" out = None).
Proof.
  intros w cfg Hlive Hplain Hne.
  exists (RegExp.mkAlt (map lit (effective_keys cfg))).
  pose proof (filterPattern_plain _ Hplain) as Hc.
  assert (Htest : forall name,
             RegExp.test (RegExp.mk (RegExp.mkAlt (map lit (effective_keys cfg))) true) name
             = existsb (fun key => includes_ci true (Str.chars name) (Str.chars key))
                 (effective_keys cfg)).
  { intros name. rewrite <- (scan_alt_of_lits true (length (Str.chars name)) _ _ Hne).
    unfold RegExp.test, RegExp.exec. cbn [RegExp.ast RegExp.ignoreCase].
    now destruct (RegExp.scan _ _ _ _) as [[wh c]|]. }
  split; [exact Hc|]. split; [exact Htest|]. split.
  - intros name. rewrite Htest, existsb_exists. split.
    + intros (key & Hin & Hi). apply includes_ci_iff in Hi.
      destruct Hi as (pre & mid & post & H & HF). now exists key, pre, mid, post.
    + intros (key & pre & mid & post & Hin & H & HF). exists key.
      split; [exact Hin|]. apply includes_ci_iff. now exists pre, mid, post.
  - intros entries name val maxDepth Hd Hnd Hname Hl.
    eexists. split; [|split].
    + rewrite (sanitize_live w cfg _ _ maxDepth Hlive Hc).
      now rewrite sanitize_object by exact Hd.
    + rewrite lookup_sanitized, Hl, Htest by assumption. reflexivity.
    + apply lookup_sanitized_proto.
Qed.

Lemma X9_witness :
  exists out,
    sanitize o_business 10%Z w_default = (Ok (VObject out), w_default)
    /\ lookup "Business" out = Some FILTERED
    /\ lookup "title" out = Some (VString "x").
Proof.
  assert (Hplain : forallb plain_key (effective_keys (config_of_key "test-key")) = true)
    by (vm_compute; reflexivity).
  assert (Hne : effective_keys (config_of_key "test-key") <> [])
    by (vm_compute; discriminate).
  destruct (X9_filter_keys_match_as_substrings w_default (config_of_key "test-key")
              eq_refl Hplain Hne) as (r & Hc & _ & _ & Hs).
  assert (Hr : RegExp.Compiled r = RegExp.Compiled default_pattern)
    by (rewrite <- Hc; vm_compute; reflexivity).
  injection Hr as ->.
  assert (Hnd : NoDup (map fst [("Business", VNumber 1); ("title", VString "x")]))
    by (apply distinct_NoDup; reflexivity).
  destruct (Hs [("Business", VNumber 1); ("title", VString "x")] "Business" (VNumber 1)
              10%Z ltac:(lia) Hnd ltac:(discriminate) eq_refl) as (out & Hrun & Hb & _).
  destruct (Hs [("Business", VNumber 1); ("title", VString "x")] "title" (VString "x")
              10%Z ltac:(lia) Hnd ltac:(discriminate) eq_refl) as (out' & Hrun' & Ht & _).
  assert (out' = out) by (unfold o_business in *; congruence). subst out'.
  exists out. split; [exact Hrun|]. split.
  - rewrite Hb. vm_compute. reflexivity.
  - rewrite Ht. vm_compute. reflexivity.
Defined.

(** ** The header filter *)

Lemma existsb_eqb_in (x : string) (l : list string) :
  existsb (String.eqb x) l = true <-> In x l.
Proof.
  rewrite existsb_exists. split.
  - intros (y & Hy & E). apply String.eqb_eq in E. now subst.
  - intros H. exists x. split; [exact H | apply String.eqb_refl].
Qed.

Lemma filterHeaders_assign headers keys :
  filterHeaders headers keys = Obj.assign (map (filtered_header keys) headers) [].
Proof.
  unfold filterHeaders, Obj.assign. fold (sensitive_headers keys).
  generalize (@nil (string * string)) as acc.
  induction headers as [|[k v] t IH]; intros acc; [reflexivity|].
  cbn [fold_left map].
  change (filtered_header keys (k, v))
    with (k, if existsb (String.eqb (Str.toLowerCase k)) (sensitive_headers keys)
             then "[FILTERED]" else v).
  cbn [fst snd]. destruct (existsb _ _); apply IH.
Qed.

(** X10. [filterHeaders] returns an object whose property names are
    names of the headers, each once, and every name of the headers other
    than ['__proto__'] is among them.  The value under a name is
    ['[FILTERED]'] when the lower-cased name is one of [authorization],
    [cookie], [x-api-key], [x-auth-token] or one of the caller's keys
    lower-cased (the whole name, not a part of it), and otherwise the value
    of the last header of that name (of a name that comes twice, as
    [set-cookie] may, the earlier values are overwritten).  Where the names
    are distinct, none of them an array index or ['__proto__'], the order
    and the number of the headers are kept. *)
Theorem X10_filterHeaders_redacts_sensitive_names :
  forall (headers : list (string * string)) (keys : list string),
    (forall name val,
        In (name, val) (filterHeaders headers keys) ->
        exists visited,
          In (name, visited) headers
          /\ val = if existsb (String.eqb (Str.toLowerCase name)) (sensitive_headers keys)
                   then "[FILTERED]" else visited)
    /\ (forall name,
          name <> "__proto__" -> In name (map fst headers) ->
          In name (map fst (filterHeaders headers keys)))
    /\ NoDup (map fst (filterHeaders headers keys))
    /\ (forall name,
          In (Str.toLowerCase name) (sensitive_headers keys) ->
          name <> "__proto__" -> In name (map fst headers) ->
          Obj.get name (filterHeaders headers keys) = Some "[FILTERED]")
    /\ (forall before name val after,
          headers = before ++ (name, val) :: after ->
          ~ In name (map fst after) ->
          ~ In (Str.toLowerCase name) (sensitive_headers keys) ->
          name <> "__proto__" ->
          Obj.get name (filterHeaders headers keys) = Some val)
    /\ (Obj.canonical headers ->
        filterHeaders headers keys = map (filtered_header keys) headers
        /\ map fst (filterHeaders headers keys) = map fst headers).
Proof.
  intros headers keys. rewrite filterHeaders_assign.
  assert (Hkeys : forall l, map fst (map (filtered_header keys) l) = map fst l)
    by (intros l; rewrite map_map; reflexivity).
  assert (Hin : forall name val,
             In (name, val) (Obj.assign (map (filtered_header keys) headers) []) ->
             exists visited,
               In (name, visited) headers
               /\ val = if existsb (String.eqb (Str.toLowerCase name))
                             (sensitive_headers keys)
                        then "[FILTERED]" else visited).
  { intros name val H. apply in_assign in H. destruct H as [H|[]].
    apply in_map_iff in H. destruct H as ([k v] & E & H).
    unfold filtered_header in E. cbn [fst snd] in E. injection E as -> <-.
    now exists v. }
  assert (Hsome : forall name,
             name <> "__proto__" -> In name (map fst headers) ->
             exists val,
               Obj.get name (Obj.assign (map (filtered_header keys) headers) [])
               = Some val).
  { intros name Hp H. apply get_assign_some; [exact Hp | now rewrite Hkeys]. }
  split; [exact Hin|]. split; [|split; [|split; [|split]]].
  - intros name Hp H. destruct (Hsome name Hp H) as (val & Hv).
    apply get_in in Hv. apply in_map_iff. now exists (name, val).
  - apply (assign_canonical _ _ canonical_nil).
  - intros name Hs Hp H. destruct (Hsome name Hp H) as (val & Hv).
    rewrite Hv. f_equal. apply get_in in Hv. destruct (Hin _ _ Hv) as (visited & _ & ->).
    apply existsb_eqb_in in Hs. now rewrite Hs.
  - intros before name val after -> Hlast Hs Hp.
    rewrite map_app, assign_app. cbn [map]. rewrite assign_cons.
    rewrite get_assign_absent by now rewrite Hkeys.
    rewrite get_set. unfold filtered_header. cbn [fst snd].
    apply String.eqb_neq in Hp. rewrite Hp, String.eqb_refl.
    destruct (existsb (String.eqb (Str.toLowerCase name)) (sensitive_headers keys)) eqn:E;
      [|reflexivity].
    apply existsb_eqb_in in E. contradiction.
  - intros Hc.
    assert (E : Obj.assign (map (filtered_header keys) headers) []
                = map (filtered_header keys) headers)
      by (apply assign_canonical_id; exact (canonical_map _ _ Hc)).
    rewrite E. split; [reflexivity | apply Hkeys].
Qed.

Lemma X10_witness :
  filterHeaders headers_example ["X-Tenant"]
  = [("authorization", "[FILTERED]"); ("content-type", "application/json");
     ("cookie", "[FILTERED]"); ("x-tenant", "[FILTERED]")]
  /\ Obj.get "x-tenant" (filterHeaders headers_example []) = Some "acme"
  /\ filterHeaders [("set-cookie", "a=1"); ("set-cookie", "b=2")] []
     = [("set-cookie", "b=2")].
Proof.
  split; [reflexivity|]. split; [|reflexivity].
  destruct (X10_filterHeaders_redacts_sensitive_names headers_example [])
    as (_ & _ & _ & _ & H & _).
  apply (H [("authorization", "Bearer secret-token"); ("content-type", "application/json");
            ("cookie", "session=abc123")] "x-tenant" "acme" []).
  - reflexivity.
  - intros [].
  - cbn. intros [H1|[H1|[H1|[H1|[]]]]]; discriminate H1.
  - discriminate.
Defined.

(** ** [notify] of the edge runtime *)

Lemma shouldIgnoreException_live w cfg error :
  globalConfig w = Some cfg ->
  shouldIgnoreException error w = (Ok (ignored_exception cfg error), w).
Proof.
  intros H. unfold shouldIgnoreException, ignored_exception, bind, getConfig. rewrite H.
  destruct (ignoredExceptions cfg) as [[|r rs]|]; reflexivity.
Qed.

Lemma notify_not_initialized w error options :
  globalConfig w = None ->
  notify error options w
  = (Ok tt, emit (mkEntry Console Warn "[Checkend] Edge SDK: not initialized" []) w).
Proof. intros H. unfold notify, bind, isInitialized. rewrite H. reflexivity. Qed.

Lemma notify_live w cfg error options :
  globalConfig w = Some cfg ->
  notify error options w
  = if ignored_exception cfg error then (Ok tt, w)
    else if negb (flag (enableEdge cfg)) then
      when (flag (debug cfg))
        (console Log "[Checkend] Edge SDK disabled, skipping notification" []) w
    else
      match beforeSend cfg with
      | Some bs =>
          let ev := event_of_notice (build_notice error options cfg) in
          let w1 := add_trace (callback_error_entries (configuredLogger w)
                                 (throws_of (callbacks_of bs) (Some ev)))
                      (calls_of 0 (callbacks_of bs) (Some ev)) w in
          match fold_callbacks (callbacks_of bs) (Some ev) with
          | Some _ => deliver cfg (build_notice error options cfg) w1
          | None =>
              when (flag (debug cfg))
                (console Log "[Checkend] Edge: beforeSend returned null, skipping" []) w1
          end
      | None => deliver cfg (build_notice error options cfg) w
      end.
Proof.
  intros Hlive. unfold notify. unfold bind at 1. unfold isInitialized. rewrite Hlive.
  cbn [negb]. unfold bind at 1. rewrite (shouldIgnoreException_live w cfg error Hlive).
  destruct (ignored_exception cfg error); [reflexivity|].
  unfold bind at 1. unfold getConfig at 1. rewrite Hlive.
  destruct (flag (enableEdge cfg)); cbn [negb]; [|reflexivity].
  destruct (beforeSend cfg) as [bs|] eqn:Hbs.
  - unfold bind at 1. unfold bind at 1.
    rewrite (applyBeforeSend_trace w cfg bs _ Hlive Hbs).
    cbv zeta.
    destruct (fold_callbacks (callbacks_of bs) _) as [e|]; [reflexivity|].
    unfold bind, when. destruct (flag (debug cfg)); reflexivity.
  - reflexivity.
Qed.

Lemma deliver_spec cfg notice w :
  exists w',
    deliver cfg notice w = (Ok tt, w')
    /\ globalConfig w' = globalConfig w
    /\ match fetch w with
       | RealFetch =>
           sent w' = sent w ++ [(ingest_url cfg, json_of_notice notice)]
           /\ capturedNotices w' = capturedNotices w
       | MockFetch =>
           sent w' = sent w
           /\ exists c, capturedNotices w' = capturedNotices w ++ [c]
       end.
Proof.
  unfold deliver, try_catch, bind, call_fetch.
  destruct (fetch w) eqn:Hf.
  - unfold real_fetch. destruct (network w (ingest_url cfg)) as [status|];
      unfold when; destruct (flag (debug cfg)); eexists;
      (split; [reflexivity|]); repeat split; reflexivity.
  - destruct (mock_fetch_ingest cfg notice (or_string (endpoint cfg) DEFAULT_ENDPOINT) w)
      as (c & Hrun & _).
    fold (ingest_url cfg) in Hrun. rewrite Hrun. unfold when.
    destruct (flag (debug cfg)); eexists; (split; [reflexivity|]);
      repeat split; try reflexivity; exists c; reflexivity.
Qed.

(** X11. Provided the methods of the configured logger return normally
    (the standing assumption on a logger of the user, which
    [applyBeforeSend] calls outside any [try]), [notify] never throws:
    with no configuration, with a transport that rejects, with callbacks
    that throw, it returns.  It leaves the configuration as it is, makes at
    most one request and adds at most one notice to the store of the capture
    harness. *)
Theorem X11_notify_never_throws :
  forall (w : world) (error : JsErrorObject) (options : NotifyOptions),
    exists w',
      notify error options w = (Ok tt, w')
      /\ globalConfig w' = globalConfig w
      /\ (sent w' = sent w \/ exists url body, sent w' = sent w ++ [(url, body)])
      /\ (capturedNotices w' = capturedNotices w
          \/ exists c, capturedNotices w' = capturedNotices w ++ [c]).
Proof.
  intros w error options.
  assert (Hquiet : forall b e w0,
             exists w', when b (console Log e []) w0 = (Ok tt, w')
                        /\ globalConfig w' = globalConfig w0
                        /\ sent w' = sent w0
                        /\ capturedNotices w' = capturedNotices w0).
  { intros b e w0. unfold when. destruct b; eexists; repeat split; reflexivity. }
  assert (Hsend : forall cfg notice w0,
             globalConfig w0 = globalConfig w -> sent w0 = sent w ->
             capturedNotices w0 = capturedNotices w ->
             exists w',
               deliver cfg notice w0 = (Ok tt, w')
               /\ globalConfig w' = globalConfig w
               /\ (sent w' = sent w \/ exists url body, sent w' = sent w ++ [(url, body)])
               /\ (capturedNotices w' = capturedNotices w
                   \/ exists c, capturedNotices w' = capturedNotices w ++ [c])).
  { intros cfg notice w0 Hg Hs Hc.
    destruct (deliver_spec cfg notice w0) as (w' & Hrun & Hcfg & Hf).
    exists w'. split; [exact Hrun|]. split; [congruence|].
    destruct (fetch w0).
    - destruct Hf as (H1 & H2). split; [right; do 2 eexists; rewrite H1, Hs; reflexivity|].
      left. congruence.
    - destruct Hf as (H1 & c & H2). split; [left; congruence|].
      right. exists c. now rewrite H2, Hc. }
  destruct (globalConfig w) as [cfg|] eqn:Hlive.
  - rewrite (notify_live w cfg error options Hlive).
    destruct (ignored_exception cfg error);
      [exists w; repeat split; auto|].
    destruct (negb (flag (enableEdge cfg))).
    { destruct (Hquiet (flag (debug cfg))
                  "[Checkend] Edge SDK disabled, skipping notification" w)
        as (w' & Hrun & Hg & Hs & Hc).
      exists w'. split; [exact Hrun|]. split; [congruence|]. split; left; assumption. }
    destruct (beforeSend cfg) as [bs|].
    + cbv zeta. destruct (fold_callbacks _ _).
      * apply Hsend; [exact Hlive | reflexivity | reflexivity].
      * match goal with
        | |- exists w', when ?b (console Log ?e []) ?w0 = _ /\ _ =>
            destruct (Hquiet b e w0) as (w' & Hrun & Hg & Hs & Hc)
        end.
        exists w'. split; [exact Hrun|]. split; [rewrite Hg; exact Hlive|].
        split; left; assumption.
    + apply Hsend; [exact Hlive | reflexivity | reflexivity].
  - rewrite (notify_not_initialized w error options Hlive).
    eexists. split; [reflexivity|]. split; [exact Hlive|]. split; left; reflexivity.
Qed.

(** X12. When nothing is initialised, or the exception is ignored, or the
    edge runtime is disabled, or a [beforeSend] callback drops the event,
    [notify] returns without a request: nothing leaves through the
    transport and nothing is captured. *)
Theorem X12_notify_suppressed_sends_nothing :
  forall (w : world) (error : JsErrorObject) (options : NotifyOptions),
    suppressed w error options ->
    exists w',
      notify error options w = (Ok tt, w')
      /\ sent w' = sent w
      /\ capturedNotices w' = capturedNotices w.
Proof.
  intros w error options [Hnone|(cfg & Hlive & Hwhy)].
  - rewrite (notify_not_initialized w error options Hnone). now eexists.
  - rewrite (notify_live w cfg error options Hlive).
    destruct (ignored_exception cfg error) eqn:Hi; [now eexists|].
    destruct (flag (enableEdge cfg)) eqn:He; cbn [negb].
    + destruct Hwhy as [H|[H|H]]; try discriminate.
      unfold dropped_by_callbacks in H.
      destruct (beforeSend cfg) as [bs|]; [|discriminate]. cbv zeta.
      destruct (fold_callbacks _ _); [discriminate|].
      unfold when. destruct (flag (debug cfg)); now eexists.
    + unfold when. destruct (flag (debug cfg)); now eexists.
Qed.

Lemma X12_witness :
  suppressed w_edge_disabled error_test no_options
  /\ notify error_test no_options w_edge_disabled = (Ok tt, w_edge_disabled).
Proof.
  assert (Hs : suppressed w_edge_disabled error_test no_options).
  { right. eexists. split; [reflexivity|]. right. left. reflexivity. }
  split; [exact Hs|].
  destruct (X12_notify_suppressed_sends_nothing _ _ _ Hs) as (w' & Hrun & _).
  rewrite Hrun. f_equal. vm_compute in Hrun. now injection Hrun as <-.
Defined.



(** ** The capture harness *)

Lemma setup_inactive w config :
  isTestMode w = false ->
  apiKey (test_config config) <> "" ->
  exists w1,
    setup config w = (Ok tt, w1)
    /\ isTestMode w1 = true
    /\ fetch w1 = MockFetch
    /\ originalFetch w1 = Some (fetch w)
    /\ capturedNotices w1 = []
    /\ globalConfig w1 = Some (merge_defaults (test_config config))
    /\ sent w1 = sent w.
Proof.
  intros Hoff Hkey. unfold setup. rewrite Hoff.
  destruct (init_ok (snd (reset w)) (test_config config) Hkey)
    as (wi & Hinit & Hcfg & _ & _ & _ & Hf & _ & Hs).
  unfold bind at 1. change (reset w) with (Ok tt, snd (reset w)).
  cbv iota. unfold bind at 1. rewrite Hinit.
  unfold bind, modify. eexists. split; [reflexivity|].
  cbn. repeat split; try reflexivity; try assumption.
  now rewrite Hf.
Qed.

(** X14. From a world outside test mode, [setup] (with a configuration
    whose key is not empty) enters test mode with an empty store, the
    interceptor installed, the transport that was in place remembered and
    the test configuration live; a second [setup] only warns; [teardown]
    then puts the remembered transport back, leaves no configuration live
    and empties the store, and a further [teardown] changes nothing.  A
    [setup] whose override empties the key throws after the configuration
    was reset, without entering test mode. *)
Theorem X14_setup_and_teardown :
  forall (w : world) (config : option PartialConfig),
    isTestMode w = false ->
    (apiKey (test_config config) <> "" ->
     exists w1 w2,
       setup config w = (Ok tt, w1)
       /\ isTestMode w1 = true /\ fetch w1 = MockFetch /\ capturedNotices w1 = []
       /\ globalConfig w1 = Some (merge_defaults (test_config config))
       /\ (forall again,
             setup again w1
             = (Ok tt,
                emit (mkEntry Console Warn
                        "[Checkend Testing] Already in test mode. Call teardown() first." [])
                  w1))
       /\ teardown w1 = (Ok tt, w2)
       /\ isTestMode w2 = false /\ fetch w2 = fetch w /\ originalFetch w2 = None
       /\ globalConfig w2 = None /\ capturedNotices w2 = []
       /\ teardown w2 = (Ok tt, w2))
    /\ (apiKey (test_config config) = "" ->
        setup config w = (Throw (JsError "Checkend: apiKey is required"), snd (reset w))).
Proof.
  intros w config Hoff. split.
  - intros Hkey.
    destruct (setup_inactive w config Hoff Hkey)
      as (w1 & Hrun & Hon & Hf & Ho & Hc & Hcfg & _).
    exists w1. eexists. split; [exact Hrun|]. do 4 (split; [assumption|]).
    split; [intros again; unfold setup; now rewrite Hon|].
    split.
    { unfold teardown. rewrite Hon. cbn [negb]. unfold bind, modify.
      rewrite Ho. reflexivity. }
    cbn. repeat split; reflexivity.
  - intros Hkey. unfold setup. rewrite Hoff. unfold bind at 1.
    change (reset w) with (Ok tt, snd (reset w)). cbv iota.
    unfold bind at 1. unfold init. rewrite Hkey. reflexivity.
Qed.

Lemma X14_witness :
  exists w1 w2,
    setup None initial_world = (Ok tt, w1)
    /\ isTestMode w1 = true
    /\ teardown w1 = (Ok tt, w2)
    /\ fetch w2 = RealFetch /\ globalConfig w2 = None.
Proof.
  destruct (X14_setup_and_teardown initial_world None eq_refl) as [H _].
  destruct H as (w1 & w2 & H1 & H2 & _ & _ & _ & _ & H3 & _ & H4 & _ & H5 & _);
    [discriminate|].
  exists w1, w2. repeat split; assumption.
Defined.

(** X15. Outside test mode every query, every assertion, [clearNotices]
    and [addNotice] throw the same error and change nothing; [isActive]
    answers false and [teardown] does nothing. *)
Theorem X15_queries_need_test_mode :
  forall (w : world),
    isTestMode w = false ->
    notices w = (Throw NOT_IN_TEST_MODE, w)
    /\ lastNotice w = (Throw NOT_IN_TEST_MODE, w)
    /\ firstNotice w = (Throw NOT_IN_TEST_MODE, w)
    /\ noticeCount w = (Throw NOT_IN_TEST_MODE, w)
    /\ hasNotices w = (Throw NOT_IN_TEST_MODE, w)
    /\ clearNotices w = (Throw NOT_IN_TEST_MODE, w)
    /\ (forall p, findNotices p w = (Throw NOT_IN_TEST_MODE, w))
    /\ (forall c, findNoticesByClass c w = (Throw NOT_IN_TEST_MODE, w))
    /\ (forall t, findNoticesByTag t w = (Throw NOT_IN_TEST_MODE, w))
    /\ (forall r, findNoticesByRuntime r w = (Throw NOT_IN_TEST_MODE, w))
    /\ (forall e, assertNoticeCount e w = (Throw NOT_IN_TEST_MODE, w))
    /\ assertNoNotices w = (Throw NOT_IN_TEST_MODE, w)
    /\ (forall n, addNotice n w = (Throw NOT_IN_TEST_MODE, w))
    /\ isActive w = (Ok false, w)
    /\ teardown w = (Ok tt, w).
Proof.
  intros w H.
  assert (Ha : assertTestMode w = (Throw NOT_IN_TEST_MODE, w))
    by (unfold assertTestMode; now rewrite H).
  repeat apply conj; intros;
    unfold notices, lastNotice, firstNotice, clearNotices, findNoticesByClass,
      findNoticesByTag, findNoticesByRuntime, findNotices, assertNoticeCount,
      assertNoNotices, hasNotices, noticeCount, addNotice, isActive, teardown, bind;
    rewrite ?Ha, ?H; reflexivity.
Qed.

Lemma X15_witness :
  isTestMode initial_world = false
  /\ noticeCount initial_world = (Throw NOT_IN_TEST_MODE, initial_world)
  /\ addNotice (partial_notice "E" "m" None) initial_world
     = (Throw NOT_IN_TEST_MODE, initial_world).
Proof.
  split; [reflexivity|].
  destruct (X15_queries_need_test_mode initial_world eq_refl)
    as (_ & _ & _ & Hc & _ & _ & _ & _ & _ & _ & _ & _ & Ha & _).
  split; [exact Hc | apply Ha].
Defined.

Lemma capturedNotices_set_notices ns w : capturedNotices (set_notices ns w) = ns.
Proof. reflexivity. Qed.

Lemma last_snoc {A} (l : list A) (x d : A) : last (l ++ [x]) d = x.
Proof.
  induction l as [|a l IH]; [reflexivity|].
  cbn [app]. destruct (l ++ [x]) eqn:E; [destruct l; discriminate|].
  cbn [last]. exact IH.
Qed.

(** X16. In test mode [addNotice] appends exactly one notice to the
    store, with an empty backtrace, the runtime [server] and the time of
    the call where these are not given, and sends nothing: afterwards
    [notices] ends with it, [lastNotice] returns it, [noticeCount] is one
    more and [hasNotices] is true; after [clearNotices] the count is 0 and
    [lastNotice] and [firstNotice] return [undefined]. *)
Theorem X16_addNotice_and_the_store :
  forall (w : world) (notice : PartialNotice),
    isTestMode w = true ->
    exists w1 w2,
      addNotice notice w = (Ok tt, w1)
      /\ sent w1 = sent w
      /\ notices w1
         = (Ok (capturedNotices w ++ [notice_of_partial notice (clock w)]), w1)
      /\ lastNotice w1 = (Ok (Some (notice_of_partial notice (clock w))), w1)
      /\ firstNotice w1
         = (Ok (Some (hd (notice_of_partial notice (clock w)) (capturedNotices w))), w1)
      /\ noticeCount w1 = (Ok (S (length (capturedNotices w))), w1)
      /\ hasNotices w1 = (Ok true, w1)
      /\ (pn_backtrace notice = None ->
          cn_backtrace (notice_of_partial notice (clock w)) = VArray [])
      /\ (pn_runtime notice = None ->
          cn_runtime (notice_of_partial notice (clock w)) = Server)
      /\ (pn_occurredAt notice = None ->
          cn_occurredAt (notice_of_partial notice (clock w)) = clock w)
      /\ clearNotices w1 = (Ok tt, w2)
      /\ noticeCount w2 = (Ok 0, w2)
      /\ hasNotices w2 = (Ok false, w2)
      /\ lastNotice w2 = (Ok None, w2)
      /\ firstNotice w2 = (Ok None, w2).
Proof.
  intros w notice Hon.
  assert (Ha : assertTestMode w = (Ok tt, w)) by (unfold assertTestMode; now rewrite Hon).
  exists (set_notices (capturedNotices w ++ [notice_of_partial notice (clock w)]) w).
  exists (set_notices []
            (set_notices (capturedNotices w ++ [notice_of_partial notice (clock w)]) w)).
  split.
  { unfold addNotice, bind. rewrite Ha. reflexivity. }
  set (n := notice_of_partial notice (clock w)).
  repeat apply conj;
    try (unfold notices, lastNotice, firstNotice, noticeCount, hasNotices, clearNotices,
           bind, assertTestMode, modify; cbn [isTestMode set_notices capturedNotices];
         rewrite ?Hon; cbv iota; rewrite ?capturedNotices_set_notices).
  - reflexivity.
  - reflexivity.
  - rewrite map_app. cbn [map]. now rewrite last_snoc.
  - destruct (capturedNotices w); reflexivity.
  - rewrite length_app. cbn [length]. now rewrite Nat.add_1_r.
  - rewrite length_app. cbn [length]. now rewrite Nat.add_1_r.
  - unfold n, notice_of_partial. intros ->. reflexivity.
  - unfold n, notice_of_partial. intros ->. reflexivity.
  - unfold n, notice_of_partial. intros ->. reflexivity.
  - reflexivity.
  - reflexivity.
  - reflexivity.
  - reflexivity.
  - reflexivity.
Qed.

Lemma X16_witness :
  exists w1,
    addNotice (partial_notice "ValidationError" "Invalid input" (Some ["validation"])) w_test
    = (Ok tt, w1)
    /\ fst (noticeCount w1) = Ok 1
    /\ fst (lastNotice w1)
       = Ok (Some (mkNotice (VString "ValidationError") (VString "Invalid input")
                     (VArray []) VUndefined VUndefined VUndefined
                     (VArray [VString "validation"]) VUndefined 0%Z Server)).
Proof.
  destruct (X16_addNotice_and_the_store w_test
              (partial_notice "ValidationError" "Invalid input" (Some ["validation"]))
              eq_refl) as (w1 & w2 & Hadd & _ & _ & Hlast & _ & Hcount & _).
  exists w1. split; [exact Hadd|]. rewrite Hcount, Hlast. split; reflexivity.
Defined.

Lemma assertTestMode_on w : isTestMode w = true -> assertTestMode w = (Ok tt, w).
Proof. intros H. unfold assertTestMode. now rewrite H. Qed.

Lemma filter_by_tag_well_tagged tag store :
  Forall well_tagged store ->
  filter_by_tag tag store = Some (filter (has_tag tag) store).
Proof.
  induction 1 as [|n store (o & Ho) _ IH]; [reflexivity|].
  cbn [filter_by_tag filter]. rewrite IH. unfold has_tag. rewrite Ho.
  destruct o as [l|]; reflexivity.
Qed.

Lemma has_tag_iff tag n l :
  cn_tags n = json_tags (Some l) -> (has_tag tag n = true <-> In tag l).
Proof.
  intros H. unfold has_tag. rewrite H. cbn [json_tags].
  rewrite existsb_exists. split.
  - intros (x & Hx & Hs). apply in_map_iff in Hx. destruct Hx as (s & <- & Hin).
    cbn [is_string] in Hs. apply String.eqb_eq in Hs. now subst.
  - intros Hin. exists (VString tag). split; [now apply in_map|].
    cbn [is_string]. apply String.eqb_refl.
Qed.

(** X17. In test mode [findNotices] returns, in the order of capture,
    exactly the captured notices the predicate accepts, and leaves the store
    as it is; a notice added afterwards comes last in the answer or not at
    all.  [findNoticesByClass] returns the notices whose class is that
    string, and, where the tags of the captured notices are absent or
    lists of strings, [findNoticesByTag] those that carry the tag. *)
Theorem X17_findNotices_filters_in_order :
  forall (w : world) (p : CapturedNotice -> bool),
    isTestMode w = true ->
    findNotices p w = (Ok (filter p (capturedNotices w)), w)
    /\ (forall n, In n (filter p (capturedNotices w))
                  <-> In n (capturedNotices w) /\ p n = true)
    /\ length (filter p (capturedNotices w)) <= length (capturedNotices w)
    /\ (forall notice,
          fst (findNotices p (snd (addNotice notice w)))
          = Ok (filter p (capturedNotices w)
                  ++ (if p (notice_of_partial notice (clock w))
                      then [notice_of_partial notice (clock w)] else [])))
    /\ (forall c,
          exists r,
            findNoticesByClass c w = (Ok r, w)
            /\ forall n, In n r <-> In n (capturedNotices w) /\ cn_errorClass n = VString c)
    /\ (forall tag,
          Forall well_tagged (capturedNotices w) ->
          findNoticesByTag tag w = (Ok (filter (has_tag tag) (capturedNotices w)), w)).
Proof.
  intros w p Hon. pose proof (assertTestMode_on w Hon) as Ha.
  assert (Hf : forall q, findNotices q w = (Ok (filter q (capturedNotices w)), w))
    by (intros q; unfold findNotices, bind; now rewrite Ha).
  split; [apply Hf|]. split; [intros n; apply filter_In|].
  split; [apply filter_length_le|]. split; [|split].
  - intros notice. unfold addNotice, bind. rewrite Ha. cbn [snd].
    unfold findNotices, bind, assertTestMode. cbn [isTestMode set_notices]. rewrite Hon.
    cbn [fst]. rewrite capturedNotices_set_notices, filter_app. cbn [filter].
    reflexivity.
  - intros c. eexists. split; [apply Hf|]. intros n. rewrite filter_In.
    split; intros [Hin Hc]; (split; [exact Hin|]).
    + destruct (cn_errorClass n); try discriminate. cbn [is_string] in Hc.
      apply String.eqb_eq in Hc. now subst.
    + rewrite Hc. cbn [is_string]. apply String.eqb_refl.
  - intros tag Hw. unfold findNoticesByTag, bind. rewrite Ha.
    now rewrite (filter_by_tag_well_tagged tag _ Hw).
Qed.

Lemma X17_witness :
  isTestMode w_two_notices = true
  /\ exists r,
       findNoticesByTag "validation" w_two_notices = (Ok r, w_two_notices)
       /\ map cn_errorClass r = [VString "ValidationError"].
Proof.
  split; [reflexivity|].
  destruct (X17_findNotices_filters_in_order w_two_notices (fun _ => true) eq_refl)
    as (_ & _ & _ & _ & _ & Ht).
  eexists. split.
  - apply Ht. repeat constructor; eexists (Some _); reflexivity.
  - reflexivity.
Defined.

Lemma all_some_lines store :
  Forall string_typed store ->
  exists lines, all_some (map notice_line store) = Some lines.
Proof.
  induction 1 as [|n store (c & m & Hc & Hm) _ (lines & IH)]; [now exists []|].
  cbn [map all_some]. unfold notice_line at 1. rewrite Hc, Hm. cbn [js_toString].
  rewrite IH. now eexists.
Qed.

(** X18. In test mode [assertNoticeCount(n)] returns exactly when [n]
    notices are captured and otherwise throws an error that names the
    expected and the actual number and lists the captured classes;
    [assertNoNotices] returns exactly when the store is empty and otherwise
    throws (with the count, and the class and message of each notice where
    these are strings).  Neither changes the store. *)
Theorem X18_assertions_compare_the_count :
  forall (w : world) (expected : Z),
    isTestMode w = true ->
    (Z.of_nat (length (capturedNotices w)) = expected ->
     assertNoticeCount expected w = (Ok tt, w))
    /\ (Z.of_nat (length (capturedNotices w)) <> expected ->
        exists js,
          json_text (VArray (map cn_errorClass (capturedNotices w))) = Some js
          /\ assertNoticeCount expected w
             = (Throw (JsError ("Expected " ++ decimal expected ++ " notice(s), but got "
                                  ++ decimal (Z.of_nat (length (capturedNotices w)))
                                  ++ ". Notices: " ++ js)), w))
    /\ (capturedNotices w = [] -> assertNoNotices w = (Ok tt, w))
    /\ (capturedNotices w <> [] ->
        snd (assertNoNotices w) = w /\ fst (assertNoNotices w) <> Ok tt)
    /\ (capturedNotices w <> [] ->
        Forall string_typed (capturedNotices w) ->
        exists js,
          assertNoNotices w
          = (Throw (JsError ("Expected no notices, but got "
                               ++ decimal (Z.of_nat (length (capturedNotices w)))
                               ++ ". Notices: " ++ js)), w)).
Proof.
  intros w expected Hon. pose proof (assertTestMode_on w Hon) as Ha.
  assert (Hcount : noticeCount w = (Ok (length (capturedNotices w)), w))
    by (unfold noticeCount, bind; now rewrite Ha).
  assert (Hhas : hasNotices w = (Ok (0 <? length (capturedNotices w)), w))
    by (unfold hasNotices, bind; now rewrite Ha).
  repeat apply conj.
  - intros Heq. unfold assertNoticeCount, bind. rewrite Hcount.
    apply Z.eqb_eq in Heq. now rewrite Heq.
  - intros Hne. eexists. split; [reflexivity|].
    unfold assertNoticeCount, bind. rewrite Hcount.
    apply Z.eqb_neq in Hne. rewrite Hne. reflexivity.
  - intros Hempty. unfold assertNoNotices, bind. rewrite Hhas, Hempty. reflexivity.
  - intros Hne. unfold assertNoNotices, bind. rewrite Hhas.
    destruct (capturedNotices w) as [|n store] eqn:Hs; [congruence|].
    cbn [length Nat.ltb Nat.leb]. rewrite Hcount. cbv beta.
    destruct (all_some (map notice_line (capturedNotices w))) as [lines|];
      [cbn [json_text]|]; split; (reflexivity || discriminate).
  - intros Hne Htyped. unfold assertNoNotices, bind. rewrite Hhas.
    destruct (all_some_lines _ Htyped) as (lines & Hl).
    destruct (capturedNotices w) as [|n store] eqn:Hs; [congruence|].
    cbn [Nat.ltb Nat.leb length]. rewrite Hcount. cbv beta. rewrite Hs, Hl.
    cbn [json_text]. now eexists.
Qed.

Lemma X18_witness :
  isTestMode w_two_notices = true
  /\ assertNoticeCount 2%Z w_two_notices = (Ok tt, w_two_notices)
  /\ exists msg,
       assertNoticeCount 3%Z w_two_notices = (Throw (JsError msg), w_two_notices)
       /\ String.prefix "Expected 3 notice(s), but got 2. Notices: [" msg = true.
Proof.
  split; [reflexivity|].
  destruct (X18_assertions_compare_the_count w_two_notices 2%Z eq_refl) as (Hok & _).
  destruct (X18_assertions_compare_the_count w_two_notices 3%Z eq_refl)
    as (_ & Hthrow & _).
  split; [apply Hok; reflexivity|].
  destruct Hthrow as (js & Hjs & Hrun); [discriminate|].
  eexists. split; [exact Hrun|].
  vm_compute in Hjs. injection Hjs as <-. reflexivity.
Defined.

(** X19. The interceptor answers every request whose URL contains
    ['/ingest/'] or ['checkend'] with the status 201 and lets nothing of
    it reach the transport of the platform.  A body that is the JSON text
    of an object adds one notice to the store, stamped with the time of the
    call and with the runtime [client] where a window exists, else [edge]
    where ['edge'] occurs in the URL or in the text of the headers
    ([headers.toString()]), else [server]; when the headers have to be
    printed and are a record with a property [toString], the call throws
    inside the [try] and nothing is added.  A request without a body or with
    the body [null] adds nothing.  Every other request is handed to the
    transport that was in place, and throws when none was remembered. *)
Theorem X19_interceptor :
  forall (w : world) (url : string) (init : RequestInit),
    (intercepted url = true ->
     exists w',
       mock_fetch url init w = (Ok 201%Z, w')
       /\ sent w' = sent w
       /\ (init_body init = None \/ init_body init = Some VNull -> w' = w)
       /\ (forall entries,
             init_body init = Some (VObject entries) ->
             hasWindow w = true \/ Str.includes url "edge" = true
             \/ headers_not_printable init = false ->
             exists c,
               capturedNotices w' = capturedNotices w ++ [c]
               /\ cn_occurredAt c = clock w
               /\ cn_runtime c
                  = (if hasWindow w then Client
                     else if Str.includes url "edge" || headers_mention_edge init then Edge
                     else Server))
       /\ (hasWindow w = false -> Str.includes url "edge" = false ->
           headers_not_printable init = true -> w' = w))
    /\ (intercepted url = false ->
        (originalFetch w = Some RealFetch -> mock_fetch url init w = real_fetch url init w)
        /\ (originalFetch w = None ->
            mock_fetch url init w = (Throw (JsError "Original fetch not available"), w))).
Proof.
  intros w url init. unfold intercepted, mock_fetch. split; intros Hi; rewrite Hi.
  2: { split; intros ->; reflexivity. }
  unfold bind, ret, headers_mention_edge, headers_not_printable.
  destruct (init_body init) as [payload|].
  2: { exists w. repeat split; try reflexivity; intros; discriminate. }
  destruct (hasWindow w).
  { destruct (decode_notice payload (clock w) Client) as [c|] eqn:Hd.
    - eexists. split; [reflexivity|]. split; [reflexivity|]. split; [|split].
      + intros [H|H]; [discriminate|]. injection H as ->. discriminate.
      + intros entries H _. injection H as ->. cbn [decode_notice] in Hd.
        injection Hd as <-. eexists. repeat split; reflexivity.
      + discriminate.
    - exists w. split; [reflexivity|]. split; [reflexivity|]. split; [reflexivity|].
      split; [|reflexivity]. intros entries H. injection H as ->. discriminate. }
  destruct (Str.includes url "edge").
  { destruct (decode_notice payload (clock w) Edge) as [c|] eqn:Hd.
    - eexists. split; [reflexivity|]. split; [reflexivity|]. split; [|split].
      + intros [H|H]; [discriminate|]. injection H as ->. discriminate.
      + intros entries H _. injection H as ->. cbn [decode_notice] in Hd.
        injection Hd as <-. eexists. repeat split; reflexivity.
      + discriminate.
    - exists w. split; [reflexivity|]. split; [reflexivity|]. split; [reflexivity|].
      split; [|reflexivity]. intros entries H. injection H as ->. discriminate. }
  cbn [orb].
  assert (Hcase :
            forall rt,
            exists w',
              match decode_notice payload (clock w) rt with
              | Some notice => (Ok 201%Z, set_notices (capturedNotices w ++ [notice]) w)
              | None => (Ok 201%Z, w)
              end = (Ok 201%Z, w')
              /\ sent w' = sent w
              /\ (Some payload = None \/ Some payload = Some VNull -> w' = w)
              /\ (forall entries,
                    Some payload = Some (VObject entries) ->
                    exists c,
                      capturedNotices w' = capturedNotices w ++ [c]
                      /\ cn_occurredAt c = clock w /\ cn_runtime c = rt)).
  { intros rt. destruct (decode_notice payload (clock w) rt) as [c|] eqn:Hd.
    - eexists. split; [reflexivity|]. split; [reflexivity|]. split.
      + intros [H|H]; [discriminate|]. injection H as ->. discriminate.
      + intros entries H. injection H as ->. cbn [decode_notice] in Hd.
        injection Hd as <-. eexists. repeat split; reflexivity.
    - exists w. split; [reflexivity|]. split; [reflexivity|]. split; [reflexivity|].
      intros entries H. injection H as ->. discriminate. }
  destruct (init_headers init) as [h|].
  - destruct h as [entries|pairs|entries]; cbn [headers_toString].
    + destruct (Obj.has "toString" entries).
      * exists w. split; [reflexivity|]. split; [reflexivity|]. split; [reflexivity|].
        split; [|reflexivity]. intros es _ [H|[H|H]]; discriminate.
      * destruct (Hcase (if Str.includes "[object Object]" "edge" then Edge else Server))
          as (w' & Hrun & Hsent & Hnull & Hobj).
        exists w'. split; [|split; [exact Hsent|split; [exact Hnull|split]]].
        -- now destruct (decode_notice _ _ _).
        -- intros es H _. exact (Hobj es H).
        -- discriminate.
    + destruct (Hcase (if Str.includes (Str.join "," (map (Str.join ",") pairs)) "edge"
                       then Edge else Server))
        as (w' & Hrun & Hsent & Hnull & Hobj).
      exists w'. split; [|split; [exact Hsent|split; [exact Hnull|split]]].
      * now destruct (decode_notice _ _ _).
      * intros es H _. exact (Hobj es H).
      * discriminate.
    + destruct (Hcase (if Str.includes "[object Headers]" "edge" then Edge else Server))
        as (w' & Hrun & Hsent & Hnull & Hobj).
      exists w'. split; [|split; [exact Hsent|split; [exact Hnull|split]]].
      * now destruct (decode_notice _ _ _).
      * intros es H _. exact (Hobj es H).
      * discriminate.
  - destruct (Hcase Server) as (w' & Hrun & Hsent & Hnull & Hobj).
    exists w'. split; [|split; [exact Hsent|split; [exact Hnull|split]]].
    + now destruct (decode_notice _ _ _).
    + intros es H _. exact (Hobj es H).
    + discriminate.
Qed.

Lemma X19_witness :
  intercepted "https://test.checkend.io/ingest/v1/errors" = true
  /\ exists w' c,
       mock_fetch "https://test.checkend.io/ingest/v1/errors"
         (mkInit (Some "POST") (Some (HeadersPairs [["x-runtime"; "edge"]]))
            (Some (VObject [("error_class", VString "E")]))) w_test
       = (Ok 201%Z, w')
       /\ capturedNotices w' = [c]
       /\ cn_runtime c = Edge.
Proof.
  split; [reflexivity|].
  destruct (X19_interceptor w_test "https://test.checkend.io/ingest/v1/errors"
              (mkInit (Some "POST") (Some (HeadersPairs [["x-runtime"; "edge"]]))
                 (Some (VObject [("error_class", VString "E")])))) as (H & _).
  destruct (H eq_refl) as (w' & Hrun & _ & _ & Hc & _).
  destruct (Hc _ eq_refl) as (c & Hcap & _ & Hrt).
  { right. right. reflexivity. }
  exists w', c. split; [exact Hrun|]. split; [exact Hcap|]. rewrite Hrt. reflexivity.
Defined.

(** ** The stack parser, further *)

Lemma split_lines_aux_length s : forall cur,
  length (Str.split_lines_aux cur s) = S (count_lf s).
Proof.
  induction s as [|c t IH]; intros cur; cbn [Str.split_lines_aux count_lf]; [reflexivity|].
  destruct (Ascii.eqb c "010"); cbn [length]; now rewrite IH.
Qed.

Lemma split_lines_aux_app s more : forall cur,
  Str.split_lines_aux cur (s ++ LF ++ more)%string
  = Str.split_lines_aux cur s ++ Str.split_lines more.
Proof.
  induction s as [|c t IH]; intros cur.
  - reflexivity.
  - cbn [String.append Str.split_lines_aux].
    destruct (Ascii.eqb c "010"); [cbn [app]; f_equal|]; apply IH.
Qed.

Lemma flat_map_line_frames_length lines :
  length (flat_map line_frames lines) <= length lines.
Proof.
  induction lines as [|l rest IH]; [reflexivity|].
  cbn [flat_map]. rewrite length_app. cbn [length].
  unfold line_frames at 1.
  destruct (RegExp.exec stack_line_re l) as [[wh c]|]; cbn [length]; lia.
Qed.

Lemma or_string_nonempty o d : d <> "" -> or_string o d <> "".
Proof.
  intros Hd. unfold or_string. destruct o as [s|]; [|exact Hd].
  destruct (String.eqb s "") eqn:E; [exact Hd|]. now apply String.eqb_neq.
Qed.

(** X20. [parseStackTrace] gives at most one frame for each line after
    the first, so no more frames than the trace has line feeds (none for a
    trace of one line); the file and the method of every frame are non-empty
    strings; and the frames of a trace continued by further lines are the
    frames of the trace followed by those of the further lines. *)
Theorem X20_parseStackTrace_bounds :
  forall stack : string,
    length (parseStackTrace (Some stack)) <= count_lf stack
    /\ (forall f, In f (parseStackTrace (Some stack)) -> file f <> "" /\ method f <> "")
    /\ (forall more,
          stack <> "" ->
          parseStackTrace (Some (stack ++ LF ++ more)%string)
          = parseStackTrace (Some stack) ++ flat_map line_frames (Str.split_lines more)).
Proof.
  intros stack. unfold parseStackTrace.
  destruct (String.eqb stack "") eqn:E.
  { split; [apply Nat.le_0_l|]. split; [intros f []|].
    intros more Hne. apply String.eqb_eq in E. contradiction. }
  rewrite parse_lines_flat_map. cbn [app]. repeat apply conj.
  - etransitivity; [apply flat_map_line_frames_length|].
    unfold Str.split_lines.
    pose proof (split_lines_aux_length stack "") as Hl.
    destruct (Str.split_lines_aux "" stack); cbn [length tl] in *; lia.
  - intros f Hin. apply in_flat_map in Hin. destruct Hin as (line & _ & Hf).
    unfold line_frames in Hf.
    destruct (RegExp.exec stack_line_re line) as [[wh c]|]; [|destruct Hf].
    destruct Hf as [<-|[]]. unfold frame_of_match. cbn [file method].
    split; apply or_string_nonempty; discriminate.
  - intros more _.
    assert (Hne : String.eqb (stack ++ LF ++ more) "" = false).
    { destruct stack; [discriminate|reflexivity]. }
    rewrite Hne, parse_lines_flat_map. cbn [app].
    unfold Str.split_lines at 1. rewrite split_lines_aux_app.
    pose proof (split_lines_aux_length stack "") as Hl.
    change (Str.split_lines stack) with (Str.split_lines_aux "" stack).
    destruct (Str.split_lines_aux "" stack); [discriminate|].
    cbn [app tl]. apply flat_map_app.
Qed.

(** ** The middleware wrapper *)

Lemma notify_returns w error options : exists w', notify error options w = (Ok tt, w').
Proof.
  destruct (globalConfig w) as [cfg|] eqn:Hlive.
  - rewrite (notify_live w cfg error options Hlive).
    destruct (ignored_exception cfg error); [now eexists|].
    destruct (negb (flag (enableEdge cfg))).
    { unfold when. destruct (flag (debug cfg)); now eexists. }
    destruct (beforeSend cfg) as [bs|].
    + cbv zeta. destruct (fold_callbacks _ _).
      * destruct (deliver_spec cfg (build_notice error options cfg)
                    (add_trace (callback_error_entries (configuredLogger w)
                       (throws_of (callbacks_of bs)
                          (Some (event_of_notice (build_notice error options cfg)))))
                       (calls_of 0 (callbacks_of bs)
                          (Some (event_of_notice (build_notice error options cfg)))) w))
          as (w' & H & _). now exists w'.
      * unfold when. destruct (flag (debug cfg)); now eexists.
    + destruct (deliver_spec cfg (build_notice error options cfg) w) as (w' & H & _).
      now exists w'.
  - rewrite (notify_not_initialized w error options Hlive). now eexists.
Qed.

Lemma shouldIgnoreRoute_live w cfg route :
  globalConfig w = Some cfg ->
  shouldIgnoreRoute route w = (Ok (ignored_route cfg route), w).
Proof.
  intros H. unfold shouldIgnoreRoute, ignored_route, bind, getConfig. rewrite H.
  destruct (ignoredRoutes cfg) as [[|r rs]|]; reflexivity.
Qed.

(** X21. Provided the methods of the configured logger return normally
    (so that [notify] returns), on a live configuration a call of the
    wrapped middleware ends exactly as the call of the handler does, with
    its response or with what it threw.  Nothing else happens when the route
    is ignored, when the handler responds, or when what it threw is no
    [Error]; an [Error] thrown on a route that is not ignored is first
    passed to [notify], with the request and the context
    [{ middleware: true, pathname }].  Before [init] the wrapped middleware
    throws the error of [getConfig]. *)
Theorem X21_middleware_is_transparent :
  forall (R : Type) (handler : NextMiddleware R) (request : Request) (w : world),
    (globalConfig w = None ->
     withCheckendMiddleware handler request w = (Throw NOT_INITIALIZED, w))
    /\ (forall cfg,
          globalConfig w = Some cfg ->
          exists w',
            withCheckendMiddleware handler request w = (Ok (handler request), w')
            /\ (ignored_route cfg (rq_pathname request) = true -> w' = w)
            /\ ((forall error, handler request <> Rejects error) -> w' = w)
            /\ (forall error,
                  ignored_route cfg (rq_pathname request) = false ->
                  handler request = Rejects error ->
                  w' = snd (notify error (middleware_options request) w))).
Proof.
  intros R handler request w. split.
  - intros Hnone.
    assert (Hr : shouldIgnoreRoute (rq_pathname request) w = (Throw NOT_INITIALIZED, w))
      by (unfold shouldIgnoreRoute, bind, getConfig; now rewrite Hnone).
    unfold withCheckendMiddleware, bind. cbv zeta. now rewrite Hr.
  - intros cfg Hlive. unfold withCheckendMiddleware, bind. cbv zeta.
    rewrite (shouldIgnoreRoute_live w cfg _ Hlive).
    destruct (ignored_route cfg (rq_pathname request)) eqn:Hi.
    + exists w. split; [reflexivity|]. split; [reflexivity|]. split; [reflexivity|].
      intros error H. discriminate.
    + destruct (handler request) as [r|error|v] eqn:Hh.
      * exists w. split; [reflexivity|]. split; [reflexivity|]. split; [reflexivity|].
        intros error _ H. discriminate.
      * fold (middleware_options request).
        destruct (notify_returns w error (middleware_options request)) as (w' & Hn).
        rewrite Hn. exists w'. split; [reflexivity|]. split; [discriminate|].
        split; [intros H; now destruct (H error)|].
        intros e _ H. injection H as <-. now rewrite Hn.
      * exists w. split; [reflexivity|]. split; [reflexivity|]. split; [reflexivity|].
        intros error _ H. discriminate.
Qed.

Lemma X21_witness :
  globalConfig (w_routes [RString "/health"])
  = Some (merge_defaults (options "test-key" (Some [RString "/health"])
                            None None None None None None))
  /\ withCheckendMiddleware failing_handler request_health (w_routes [RString "/health"])
     = (Ok (Rejects (mkError "Error" "Test error" None)), w_routes [RString "/health"])
  /\ exists w',
       withCheckendMiddleware failing_handler request_api (w_routes [RString "/health"])
       = (Ok (Rejects (mkError "Error" "Test error" None)), w')
       /\ map fst (sent w') = ["https://app.checkend.io/ingest/v1/errors"].
Proof.
  assert (Hlive : globalConfig (w_routes [RString "/health"])
                  = Some (merge_defaults (options "test-key" (Some [RString "/health"])
                                            None None None None None None)))
    by (vm_compute; reflexivity).
  split; [exact Hlive|].
  destruct (X21_middleware_is_transparent unit failing_handler request_health
              (w_routes [RString "/health"])) as (_ & Hh).
  destruct (X21_middleware_is_transparent unit failing_handler request_api
              (w_routes [RString "/health"])) as (_ & Ha).
  destruct (Hh _ Hlive) as (w1 & Hrun1 & Hsame & _).
  destruct (Ha _ Hlive) as (w2 & Hrun2 & _ & _ & Hnotify).
  split.
  - rewrite Hrun1. f_equal. apply Hsame. vm_compute. reflexivity.
  - exists w2. split; [exact Hrun2|].
    rewrite (Hnotify (mkError "Error" "Test error" None)) by (vm_compute; reflexivity).
    vm_compute. reflexivity.
Defined.
